(** * ImageForMeDearAi: provider orchestration and resilience core

    A shallow embedding of the TypeScript sources
      - [providers/baseProvider.ts]   (BaseImageProvider),
      - [providers/chatGptProvider.ts] (ChatGPTProvider),
      - [providers/providerManager.ts] (ProviderManager),
      - [utils/errorHandler.ts]        (ImageGenerationError, ErrorHandler),
      - [providers/huggingFaceProvider.ts] (the error mapping of generateImage
        and the pixel loop of makeImageTransparent),
      - [tools/generateImage.ts]       (handleGenerateImage, formatFileSize),
    together with a model of the result cache, whose implementation
    ([cache/imageCache.ts]) is only known through its callers.

    Conventions.
      - A JavaScript string whose whitespace matters (a prompt) is a list of
        UTF-16 code units; identifiers, codes and messages are [string]s.
      - [async] code is sequential here: every [await] is a call.  A method
        that talks to the outside world is a function of an abstract world
        [W]; it returns an [Outcome] (returned or threw), the next world and
        the events it emitted.
      - [console.*] output is not part of the model. *)

From Stdlib Require Import ZArith NArith List Bool String Ascii Lia QArith.
From Stdlib Require Import Qround DecimalString DecimalNat.
Import ListNotations.
Close Scope Q_scope.
Local Open Scope Z_scope.

Set Implicit Arguments.

(* ================================================================== *)
(** * JavaScript strings *)
(* ================================================================== *)

Module Js.

(** A UTF-16 code unit. *)
Definition char := N.
Definition jsstring := list char.

Definition codes (s : string) : jsstring :=
  map N_of_ascii (list_ascii_of_string s).

Definition inRange (lo hi c : N) : bool := ((lo <=? c) && (c <=? hi))%N.

(** [\s] of a RegExp without the [u] flag, which is also the set that
    [String.prototype.trim] strips: WhiteSpace and LineTerminator of
    ECMA-262. *)
Definition isSpace (c : char) : bool :=
  inRange 9 13 c          (* \t \n \v \f \r *)
  || (c =? 32)%N          (* space *)
  || (c =? 160)%N         (* U+00A0 *)
  || (c =? 5760)%N        (* U+1680 *)
  || inRange 8192 8202 c  (* U+2000 .. U+200A *)
  || (c =? 8232)%N || (c =? 8233)%N  (* U+2028 U+2029 *)
  || (c =? 8239)%N        (* U+202F *)
  || (c =? 8287)%N        (* U+205F *)
  || (c =? 12288)%N       (* U+3000 *)
  || (c =? 65279)%N.      (* U+FEFF *)

(** [\w] of a RegExp without the [u] flag: [A-Za-z0-9_]. *)
Definition isWord (c : char) : bool :=
  inRange 65 90 c || inRange 97 122 c || inRange 48 57 c || (c =? 95)%N.

Definition SPACE : char := 32%N.

Fixpoint trimStart (s : jsstring) : jsstring :=
  match s with
  | [] => []
  | c :: s' => if isSpace c then trimStart s' else s
  end.

Definition trimEnd (s : jsstring) : jsstring := rev (trimStart (rev s)).

(** [String.prototype.trim]. *)
Definition trim (s : jsstring) : jsstring := trimEnd (trimStart s).

(** [s.length], in code units. *)
Definition length (s : jsstring) : Z := Z.of_nat (List.length s).

(** Printing of a non-negative integer inside a template literal. *)
Definition showNat (n : nat) : string := NilEmpty.string_of_uint (Nat.to_uint n).
Definition showZ (z : Z) : string :=
  if z <? 0 then String "-" (showNat (Z.to_nat (- z))) else showNat (Z.to_nat z).

(** ** Regular expressions of the form [/\s+/g] and [/\b(?:w1|...|wn)\b/gi] *)

(** [s.replace(/\s+/g, ' ')]: every maximal run of whitespace becomes one
    space.  [inRun] says that the previous code unit belongs to the run
    being replaced. *)
Fixpoint collapseRuns (inRun : bool) (s : jsstring) : jsstring :=
  match s with
  | [] => []
  | c :: s' =>
      if isSpace c
      then if inRun then collapseRuns true s' else SPACE :: collapseRuns true s'
      else c :: collapseRuns false s'
  end.

Definition collapseSpaces (s : jsstring) : jsstring := collapseRuns false s.

(** Canonicalize of ECMA-262 for a RegExp with [i] and without [u], on
    ASCII: a lower-case letter goes to its upper-case letter. *)
Definition canonicalize (c : char) : char :=
  if inRange 97 122 c then (c - 32)%N else c.

(** Does the pattern character [p] (ASCII) match the code unit [c] under
    the [i] flag?  A code unit from 128 on never canonicalizes to an ASCII
    one, so it matches no ASCII pattern character. *)
Definition matchChar (p c : char) : bool :=
  ((c <? 128) && (canonicalize p =? canonicalize c))%N.

Definition isWordAt (c : option char) : bool :=
  match c with Some c => isWord c | None => false end.

(** The assertion [\b] between the code unit before and the one after. *)
Definition wordBoundary (before after : option char) : bool :=
  xorb (isWordAt before) (isWordAt after).

(** Match the literal [w] at the head of [s]; the result is the last code
    unit consumed (or [before] when nothing was) and the rest of [s]. *)
Fixpoint matchLiteral (w : jsstring) (before : option char) (s : jsstring)
  : option (option char * jsstring) :=
  match w with
  | [] => Some (before, s)
  | p :: w' =>
      match s with
      | c :: s' => if matchChar p c then matchLiteral w' (Some c) s' else None
      | [] => None
      end
  end.

(** [\bw\b] at the head of [s], [before] being the code unit before it. *)
Definition matchWord (w : jsstring) (before : option char) (s : jsstring)
  : option (option char * jsstring) :=
  if wordBoundary before (hd_error s)
  then match matchLiteral w before s with
       | Some (last, rest) =>
           if wordBoundary last (hd_error rest) then Some (last, rest) else None
       | None => None
       end
  else None.

(** [\b(?:w1|...|wn)\b] at the head of [s]: the alternatives are tried in
    order, the first one that lets the whole pattern match wins. *)
Fixpoint matchAlternatives (alts : list jsstring) (before : option char)
         (s : jsstring) : option (option char * jsstring) :=
  match alts with
  | [] => None
  | w :: alts' =>
      match matchWord w before s with
      | Some r => Some r
      | None => matchAlternatives alts' before s
      end
  end.

(** [s.replace(/\b(?:w1|...|wn)\b/gi, '')], scanning from the left: after a
    match the scan resumes behind it, otherwise the code unit is kept.  The
    alternatives are not empty, so every step consumes input and
    [List.length s] steps are enough. *)
Fixpoint removeFrom (alts : list jsstring) (steps : nat) (before : option char)
         (s : jsstring) : jsstring :=
  match steps with
  | O => s
  | S steps' =>
      match s with
      | [] => []
      | c :: s' =>
          match matchAlternatives alts before s with
          | Some (last, rest) => removeFrom alts steps' last rest
          | None => c :: removeFrom alts steps' (Some c) s'
          end
      end
  end.

Definition removeAll (alts : list jsstring) (s : jsstring) : jsstring :=
  removeFrom alts (List.length s) None s.

End Js.

(* ================================================================== *)
(** * Outcomes, events and the effect monad *)
(* ================================================================== *)

(** The value of a [throw]: [error: any] as the code inspects it.
    [errCode] is [error?.code], [errStatus] is [error?.response?.status],
    [errDetails] is the wrapped error that [createError] stores in
    [details] ([{ lastError }] or [{ error }]). *)
#[warnings="-register-all"] Inductive JsError : Type :=
  mkJsError {
    errName : string;
    errMessage : string;
    errProvider : option string;
    errCode : option string;
    errStatus : option Z;
    errDetails : option JsError
  }.

Inductive Outcome (A : Type) : Type :=
| Returned (a : A)
| Threw (e : JsError).
Arguments Returned {A} a.
Arguments Threw {A} e.

(** What a call leaves behind in the outside world. *)
Inductive Event : Type :=
| EvOperation (provider operationName : string)   (* the wrapped backend operation is started *)
| EvSleep (ms : Z)                                (* [await this.delay(ms)] *)
| EvProbe (provider : string) (answer : Outcome bool)  (* [provider.isAvailable()] *)
| EvGenerate (provider : string) (ok : bool).     (* [provider.generateImage(request)] settled *)

Section Monad.
Variable W : Type.

Definition M (A : Type) : Type := W -> Outcome A * W * list Event.

Definition ret {A} (a : A) : M A := fun w => (Returned a, w, []).

Definition throw {A} (e : JsError) : M A := fun w => (Threw e, w, []).

Definition bind {A B} (m : M A) (k : A -> M B) : M B :=
  fun w =>
    match m w with
    | (Returned a, w1, t1) =>
        let '(r, w2, t2) := k a w1 in (r, w2, t1 ++ t2)
    | (Threw e, w1, t1) => (Threw e, w1, t1)
    end.

(** [try { m } catch (e) { h e }]. *)
Definition tryCatch {A} (m : M A) (h : JsError -> M A) : M A :=
  fun w =>
    match m w with
    | (Returned a, w1, t1) => (Returned a, w1, t1)
    | (Threw e, w1, t1) =>
        let '(r, w2, t2) := h e w1 in (r, w2, t1 ++ t2)
    end.

Definition emit (ev : Event) : M unit := fun w => (Returned tt, w, [ev]).

Definition outcomeOf {A} (r : Outcome A * W * list Event) : Outcome A := fst (fst r).
Definition worldOf {A} (r : Outcome A * W * list Event) : W := snd (fst r).
Definition eventsOf {A} (r : Outcome A * W * list Event) : list Event := snd r.
End Monad.

Arguments ret {W A} a _.
Arguments throw {W A} e _.
Arguments emit {W} ev _.

Declare Scope js_scope.
Delimit Scope js_scope with js.
Notation "x <- m ;; k" := (bind m (fun x => k))
  (at level 100, m at next level, right associativity) : js_scope.
Notation "m ;;; k" := (bind m (fun _ => k))
  (at level 100, right associativity) : js_scope.

(* ================================================================== *)
(** * Shared types ([types/index.ts], as used by the sources) *)
(* ================================================================== *)

Record ImageDimensions := { width : Z; height : Z }.

(** Optional fields are [option]s; [transparent?: boolean] is only ever
    tested for truthiness, so an absent flag is [false]. *)
Record ImageGenerationRequest := {
  prompt : Js.jsstring;
  style : option string;
  dimensions : option ImageDimensions;
  quality : option string;
  count : option Z;
  format : option string;
  transparent : bool;
  negativePrompt : option Js.jsstring;
  seed : option Z
}.

Record GeneratedImage := {
  imgUrl : string;
  imgFormat : string;
  imgDimensions : ImageDimensions;
  imgSize : Z
}.

Record ImageGenerationResult := {
  success : bool;
  images : list GeneratedImage;
  provider : string;
  requestId : string;
  error : option string
}.

Inductive Feature := generation | description | tagging | transparency | logo.

(* ================================================================== *)
(** * utils/errorHandler.ts: retryability by code *)
(* ================================================================== *)

Module ImageGenerationError.

Definition retryableCodes : list string :=
  ["TIMEOUT"; "SERVICE_UNAVAILABLE"; "NETWORK_ERROR"; "RATE_LIMIT_EXCEEDED"]%string.

(** [retryableCodes.includes(code)]. *)
Definition isRetryableByCode (code : string) : bool :=
  existsb (String.eqb code) retryableCodes.

End ImageGenerationError.

(* ================================================================== *)
(** * providers/baseProvider.ts *)
(* ================================================================== *)

Module BaseImageProvider.

(** The fields of [this] that the base class reads. *)
Record t := {
  name : string;
  timeout : Z;
  retryAttempts : nat;
  retryDelay : Z
}.

(** [constructor(timeout = 30000)]. *)
Definition new (name : string) (timeout : option Z) : t :=
  {| name := name;
     timeout := match timeout with Some ms => ms | None => 30000 end;
     retryAttempts := 3;
     retryDelay := 1000 |}.

(** [createError(code, message, details?)]: a [ProviderError]; it carries
    no HTTP response. *)
Definition createError (this : t) (code message : string)
           (details : option JsError) : JsError :=
  {| errName := "ProviderError";
     errMessage := message;
     errProvider := Some (name this);
     errCode := Some code;
     errStatus := None;
     errDetails := details |}.

(** ** validateRequest *)

(** [width / height] of two integers, exactly. *)
Definition aspectRatio (d : ImageDimensions) : Q :=
  (inject_Z (width d) / inject_Z (height d))%Q.

Definition Qltb (x y : Q) : bool :=
  match (x ?= y)%Q with Lt => true | _ => false end.

Definition validateRequest (this : t) (request : ImageGenerationRequest)
  : Outcome unit :=
  let invalid msg := Threw (createError this "INVALID_REQUEST" msg None) in
  if match prompt request with [] => true | _ => false end        (* !request.prompt *)
     || (Js.length (Js.trim (prompt request)) =? 0)
  then invalid "Prompt is required"%string
  else if Js.length (prompt request) >? 4000
  then invalid "Prompt is too long (max 4000 characters)"%string
  else if match count request with
          | None => false                                          (* undefined is falsy *)
          | Some c => negb (c =? 0) && ((c <? 1) || (c >? 10))     (* 0 is falsy *)
          end
  then invalid "Count must be between 1 and 10"%string
  else match dimensions request with
       | None => Returned tt
       | Some d =>
           if (width d <? 64) || (width d >? 2048)
              || (height d <? 64) || (height d >? 2048)
           then invalid "Dimensions must be between 64x64 and 2048x2048"%string
           else if Qltb (aspectRatio d) (1 # 4) || Qltb (4 # 1) (aspectRatio d)
           then invalid "Invalid aspect ratio (must be between 1:4 and 4:1)"%string
           else Returned tt
       end.

(** ** isClientError *)

Definition nonRetryableErrorCodes : list string :=
  ["INVALID_REQUEST"; "AUTHENTICATION_FAILED"; "PERMISSION_DENIED";
   "QUOTA_EXCEEDED"; "CONTENT_POLICY_VIOLATION"]%string.

(** [error?.response?.status >= 400 && error?.response?.status < 500];
    a comparison with [undefined] is false. *)
Definition is4xx (e : JsError) : bool :=
  match errStatus e with
  | Some s => (s >=? 400) && (s <? 500)
  | None => false
  end.

(** [nonRetryableErrorCodes.includes(error?.code)]. *)
Definition hasNonRetryableCode (e : JsError) : bool :=
  match errCode e with
  | Some c => existsb (String.eqb c) nonRetryableErrorCodes
  | None => false
  end.

Definition isClientError (e : JsError) : bool :=
  if is4xx e then true else hasNonRetryableCode e.

(** ** executeWithRetry *)

Section Retry.
Variables W T : Type.

(** How one call of [operation()] ends when raced against the timeout
    promise: it resolves, it rejects, or it is still pending when the
    timer fires. *)
Inductive Attempt :=
| Resolves (v : T)
| Rejects (e : JsError)
| Pending.

Definition Operation := W -> Attempt * W.

Definition timeoutError (this : t) (operationName : string) : JsError :=
  createError this "TIMEOUT"
    (operationName ++ " timed out after " ++ Js.showZ (timeout this) ++ "ms")%string
    None.

(** [await Promise.race([operation(), this.createTimeoutPromise(operationName)])]. *)
Definition race (this : t) (operation : Operation) (operationName : string) : M W T :=
  fun w =>
    let '(a, w') := operation w in
    (match a with
     | Resolves v => Returned v
     | Rejects e => Threw e
     | Pending => Threw (timeoutError this operationName)
     end, w', [EvOperation (name this) operationName]).

(** [this.retryDelay * Math.pow(2, attempt - 1)]. *)
Definition backoff (this : t) (attempt : nat) : Z :=
  retryDelay this * 2 ^ Z.of_nat (attempt - 1).

Definition exhausted (this : t) (operationName : string)
           (lastError : option JsError) : JsError :=
  createError this "OPERATION_FAILED"
    ("Failed to " ++ operationName ++ " after "
       ++ Js.showNat (retryAttempts this) ++ " attempts")%string
    lastError.

(** The [for] loop, by the number of iterations left:
    [remaining = retryAttempts - attempt + 1]. *)
Fixpoint retryLoop (this : t) (operation : Operation) (operationName : string)
         (remaining attempt : nat) (lastError : option JsError) : M W T :=
  match remaining with
  | O => throw (exhausted this operationName lastError)
  | S remaining' =>
      tryCatch (race this operation operationName)
        (fun e =>
           if isClientError e then throw e
           else
             (if (attempt <? retryAttempts this)%nat
              then emit (EvSleep (backoff this attempt))
              else ret tt) ;;;
             retryLoop this operation operationName remaining' (S attempt) (Some e))%js
  end.

Definition executeWithRetry (this : t) (operation : Operation)
           (operationName : string) : M W T :=
  retryLoop this operation operationName (retryAttempts this) 1%nat None.

End Retry.
Arguments Resolves {T} v.
Arguments Rejects {T} e.
Arguments Pending {T}.

(** ** sanitizePrompt *)

Definition harmfulPatterns : list (list Js.jsstring) :=
  map (map Js.codes)
    [ ["hack"; "exploit"; "vulnerability"; "bypass"; "jailbreak"];
      ["nsfw"; "explicit"; "adult"; "sexual"; "pornographic"];
      ["violence"; "gore"; "death"; "suicide"; "self-harm"];
      ["illegal"; "drugs"; "weapons"; "terrorism"] ]%string.

Definition sanitizePrompt (prompt : Js.jsstring) : Js.jsstring :=
  let sanitized := Js.collapseSpaces (Js.trim prompt) in
  let sanitized := fold_left (fun s pattern => Js.removeAll pattern s)
                             harmfulPatterns sanitized in
  Js.trim (Js.collapseSpaces sanitized).

End BaseImageProvider.


(* ================================================================== *)
(** * The [ImageProvider] interface, as the manager uses it *)
(* ================================================================== *)

Module ImageProvider.

Record t (W : Type) := {
  name : string;
  isAvailable : W -> Outcome bool * W;
  supportsFeature : Feature -> bool;
  generateImage : ImageGenerationRequest -> W -> Outcome ImageGenerationResult * W
}.
Arguments name {W} _.
Arguments isAvailable {W} _ _.
Arguments supportsFeature {W} _ _.
Arguments generateImage {W} _ _ _.

End ImageProvider.

(* ================================================================== *)
(** * providers/chatGptProvider.ts *)
(* ================================================================== *)

Module ChatGPTProvider.

Section WithWorld.
Variable W : Type.

(** [applyStyleToPrompt] of [config/imageStyles.ts]; [promptModifier] is
    the lookup in the style table. *)
Definition applyStyleToPrompt (promptModifier : string -> option Js.jsstring)
           (prompt : Js.jsstring) (style : option string) : Js.jsstring :=
  match style with
  | None => prompt
  | Some st =>
      if String.eqb st "" then prompt
      else match promptModifier st with
           | None => prompt
           | Some m => prompt ++ Js.codes ", " ++ m
           end
  end.

(** [hasClient] is [this.client !== null].  [backend] is the closure
    handed to [executeWithRetry]: the call of the OpenAI SDK, the download
    of the images and the mapping of the SDK's errors; it receives the
    styled prompt, the sanitized prompt and the request. *)
Record t := {
  base : BaseImageProvider.t;
  enabled : bool;                   (* [this.config.enabled] *)
  hasApiKey : bool;                 (* [this.config.apiKey] is truthy *)
  hasClient : bool;
  promptModifier : string -> option Js.jsstring;
  backend : Js.jsstring -> Js.jsstring -> ImageGenerationRequest
            -> BaseImageProvider.Operation W ImageGenerationResult;
  listModels : M W unit             (* [this.client.models.list()] *)
}.

Definition isAvailable (this : t) : M W bool :=
  if negb (enabled this) || negb (hasApiKey this) || negb (hasClient this)
  then ret false
  else tryCatch (listModels this ;;; ret true)%js (fun _ => ret false).

Definition generateImage (this : t) (request : ImageGenerationRequest)
  : M W ImageGenerationResult :=
  if negb (hasClient this)
  then throw (BaseImageProvider.createError (base this) "PROVIDER_NOT_CONFIGURED"
                "ChatGPT provider is not configured" None)
  else
    match BaseImageProvider.validateRequest (base this) request with
    | Threw e => throw e
    | Returned _ =>
        let sanitizedPrompt := BaseImageProvider.sanitizePrompt (prompt request) in
        let styledPrompt :=
          applyStyleToPrompt (promptModifier this) sanitizedPrompt (style request) in
        BaseImageProvider.executeWithRetry (base this)
          (backend this styledPrompt sanitizedPrompt request) "generate image"
    end.

Definition supportsFeature (feature : Feature) : bool :=
  match feature with
  | generation => true
  | description => true
  | tagging => false
  | transparency => true
  | logo => true
  end.

(** The adapter behind the interface: the manager sees what a call
    returns and how it leaves the world, not the adapter's own events. *)
Definition asImageProvider (this : t) : ImageProvider.t W :=
  {| ImageProvider.name := BaseImageProvider.name (base this);
     ImageProvider.isAvailable := fun w => fst (isAvailable this w);
     ImageProvider.supportsFeature := supportsFeature;
     ImageProvider.generateImage := fun request w => fst (generateImage this request w) |}.

End WithWorld.

End ChatGPTProvider.

(* ================================================================== *)
(** * providers/providerManager.ts *)
(* ================================================================== *)

Module ProviderManager.

Section WithWorld.
Variable W : Type.

Local Abbreviation Provider := (ImageProvider.t W).

(** [this.providers]: a [Map], iterated in insertion order. *)
Definition t := list (string * Provider).

Definition getProviders (this : t) : list Provider := map snd this.

(** [this.providers.get(name) || null]. *)
Definition getProvider (this : t) (name : string) : option Provider :=
  match find (fun kv => String.eqb (fst kv) name) this with
  | Some kv => Some (snd kv)
  | None => None
  end.

(** [await provider.isAvailable()]. *)
Definition probe (p : Provider) : M W bool :=
  fun w =>
    let '(r, w') := ImageProvider.isAvailable p w in
    (r, w', [EvProbe (ImageProvider.name p) r]).

(** [await provider.generateImage(request)]. *)
Definition invoke (p : Provider) (request : ImageGenerationRequest)
  : M W ImageGenerationResult :=
  fun w =>
    let '(r, w') := ImageProvider.generateImage p request w in
    (r, w', [EvGenerate (ImageProvider.name p)
               match r with Returned _ => true | Threw _ => false end]).

(** The loop of [getAvailableProviders]: a probe that throws is caught and
    the provider is left out. *)
Fixpoint probeAll (providers : list Provider) : M W (list Provider) :=
  match providers with
  | [] => ret []
  | p :: rest =>
      (available <- tryCatch (probe p) (fun _ => ret false) ;;
       others <- probeAll rest ;;
       ret (if available then p :: others else others))%js
  end.

Definition getAvailableProviders (this : t) : M W (list Provider) :=
  probeAll (getProviders this).

Definition priorities (feature : Feature) : option (list string) :=
  match feature with
  | generation => Some ["chatgpt"; "huggingface"]
  | description => Some ["chatgpt"; "huggingface"]
  | tagging => Some ["huggingface"; "chatgpt"]
  | logo => Some ["chatgpt"; "huggingface"]
  | transparency => None
  end%string.

(** [priorities[feature] || ['chatgpt', 'huggingface']]. *)
Definition priorityOrder (feature : Feature) : list string :=
  match priorities feature with
  | Some order => order
  | None => ["chatgpt"; "huggingface"]%string
  end.

(** [for (const providerName of priorityOrder) { find ...; if (provider) return provider }]. *)
Fixpoint pickByPriority (order : list string) (supporting : list Provider)
  : option Provider :=
  match order with
  | [] => None
  | providerName :: order' =>
      match find (fun p => String.eqb (ImageProvider.name p) providerName) supporting with
      | Some p => Some p
      | None => pickByPriority order' supporting
      end
  end.

Definition chooseBest (feature : Feature) (available : list Provider)
  : option Provider :=
  let supporting := filter (fun p => ImageProvider.supportsFeature p feature) available in
  match supporting with
  | [] => None
  | first :: _ =>
      match pickByPriority (priorityOrder feature) supporting with
      | Some p => Some p
      | None => Some first
      end
  end.

Definition getBestProvider (this : t) (feature : Feature) : M W (option Provider) :=
  (available <- getAvailableProviders this ;;
   ret (chooseBest feature available))%js.

Definition getFallbackProvider (this : t) (failedProviderName : string)
           (feature : Feature) : M W (option Provider) :=
  (available <- getAvailableProviders this ;;
   ret (find (fun p => negb (String.eqb (ImageProvider.name p) failedProviderName)
                       && ImageProvider.supportsFeature p feature) available))%js.

Definition noProviderResult : ImageGenerationResult :=
  {| success := false; images := []; provider := "none"; requestId := "";
     error := Some "No available providers for image generation"%string |}.

(** [error.message || 'Image generation failed']. *)
Definition failedResult (p : Provider) (e : JsError) : ImageGenerationResult :=
  {| success := false; images := []; provider := ImageProvider.name p; requestId := "";
     error := Some (if String.eqb (errMessage e) "" then "Image generation failed"%string
                    else errMessage e) |}.

(** The preferred-provider branch: [if (preferredProvider) { ... }]; the
    empty string is falsy. *)
Definition selectPreferred (this : t) (preferredProvider : option string)
  : M W (option Provider) :=
  match preferredProvider with
  | None => ret None
  | Some providerName =>
      if String.eqb providerName "" then ret None
      else match getProvider this providerName with
           | None => ret None
           | Some p => (available <- probe p ;;
                        ret (if available then Some p else None))%js
           end
  end.

Definition featureOf (request : ImageGenerationRequest) : Feature :=
  if transparent request then logo else generation.

Definition selectProvider (this : t) (request : ImageGenerationRequest)
           (preferredProvider : option string) : M W (option Provider) :=
  (preferred <- selectPreferred this preferredProvider ;;
   match preferred with
   | Some p => ret (Some p)
   | None => getBestProvider this (featureOf request)
   end)%js.

(** The [catch] block: one fallback provider, tried once. *)
Definition tryFallback (this : t) (request : ImageGenerationRequest)
           (p : Provider) (error : JsError) : M W ImageGenerationResult :=
  (fallbackProvider <- getFallbackProvider this (ImageProvider.name p) generation ;;
   match fallbackProvider with
   | Some q => tryCatch (invoke q request) (fun _ => ret (failedResult p error))
   | None => ret (failedResult p error)
   end)%js.

(** From [if (!provider)] on. *)
Definition generateWith (this : t) (request : ImageGenerationRequest)
           (selected : option Provider) : M W ImageGenerationResult :=
  match selected with
  | None => ret noProviderResult
  | Some p => tryCatch (invoke p request) (tryFallback this request p)
  end.

Definition generateImage (this : t) (request : ImageGenerationRequest)
           (preferredProvider : option string) : M W ImageGenerationResult :=
  (selected <- selectProvider this request preferredProvider ;;
   generateWith this request selected)%js.

End WithWorld.

End ProviderManager.

(* ================================================================== *)
(** * cache/imageCache.ts *)
(* ================================================================== *)

Module ImageCache.

Section WithFingerprint.
(** The fingerprint of a request is a key with a decidable equality. *)
Variable Key : Type.
Variable key_eqb : Key -> Key -> bool.
Variable fingerprint : ImageGenerationRequest -> Key.

Record CacheEntry := {
  entryKey : Key;
  entryResult : ImageGenerationResult;
  createdAt : Z;
  expiresAt : Z
}.

(** Modelled from the spec: the cache of [cache/imageCache.ts], whose
    source is not available; only its callers ([handleGenerateImage]) are.
    The state is the sequence of entries in insertion order, the configured
    TTL in milliseconds and the maximum number of entries; the clock is the
    argument [now] of every operation. *)
Record t := {
  entries : list CacheEntry;
  ttl : Z;
  maxSize : nat
}.

(** Modelled from the spec: the missing notion of a live entry, "entries
    past expiresAt are treated as absent". *)
Definition live (now : Z) (e : CacheEntry) : bool := now <=? expiresAt e.

(** Modelled from the spec: the missing [get], "returns the live entry if
    present and not expired; absent otherwise". *)
Definition get (now : Z) (this : t) (request : ImageGenerationRequest)
  : option ImageGenerationResult :=
  match find (fun e => key_eqb (entryKey e) (fingerprint request) && live now e)
             (entries this) with
  | Some e => Some (entryResult e)
  | None => None
  end.

(** Modelled from the spec: the missing choice of the "oldest-created"
    entry; among entries created at the same instant the one inserted
    first goes. *)
Definition oldestCreated (es : list CacheEntry) : option Z :=
  match es with
  | [] => None
  | e :: es' => Some (fold_left (fun m x => Z.min m (createdAt x)) es' (createdAt e))
  end.

(** Modelled from the spec: removal of one entry, part of the missing
    eviction. *)
Fixpoint removeFirst (p : CacheEntry -> bool) (es : list CacheEntry) : list CacheEntry :=
  match es with
  | [] => []
  | e :: es' => if p e then es' else e :: removeFirst p es'
  end.

(** Modelled from the spec: one step of the missing eviction. *)
Definition evictOldest (es : list CacheEntry) : list CacheEntry :=
  match oldestCreated es with
  | None => es
  | Some m => removeFirst (fun e => createdAt e =? m) es
  end.

(** Modelled from the spec: the missing eviction, "evict the oldest-created
    entries until within bound". *)
Fixpoint evict (excess : nat) (es : list CacheEntry) : list CacheEntry :=
  match excess with
  | O => es
  | S excess' => evict excess' (evictOldest es)
  end.

(** Modelled from the spec: the missing [set], "inserts/overwrites the entry
    for the fingerprint, stamps createdAt/expiresAt = createdAt+TTL; if the
    number of live entries exceeds the configured maximum, evict the
    oldest-created entries until within bound".  Expired entries are
    dropped ("evicted by TTL expiry") before the live ones are counted. *)
Definition set (now : Z) (this : t) (request : ImageGenerationRequest)
           (result : ImageGenerationResult) : t :=
  let key := fingerprint request in
  let fresh := {| entryKey := key; entryResult := result;
                  createdAt := now; expiresAt := now + ttl this |} in
  let others := filter (fun e => negb (key_eqb (entryKey e) key) && live now e)
                       (entries this) in
  let all := others ++ [fresh] in
  {| entries := evict (List.length all - maxSize this) all;
     ttl := ttl this;
     maxSize := maxSize this |}.

End WithFingerprint.

End ImageCache.

(* ================================================================== *)
(** * Observations on event traces *)
(* ================================================================== *)

(** How often the wrapped backend operation was started. *)
Fixpoint invocations (trace : list Event) : nat :=
  match trace with
  | [] => O
  | EvOperation _ _ :: trace' => S (invocations trace')
  | _ :: trace' => invocations trace'
  end.

(** The delays slept, in order. *)
Fixpoint sleeps (trace : list Event) : list Z :=
  match trace with
  | [] => []
  | EvSleep ms :: trace' => ms :: sleeps trace'
  | _ :: trace' => sleeps trace'
  end.

(** The providers whose [generateImage] was called, in order, with whether
    the call returned. *)
Fixpoint generateCalls (trace : list Event) : list (string * bool) :=
  match trace with
  | [] => []
  | EvGenerate p ok :: trace' => (p, ok) :: generateCalls trace'
  | _ :: trace' => generateCalls trace'
  end.

(** ** Operations seen through the retry wrapper *)

Section Attempts.
Variables W T : Type.
Variable this : BaseImageProvider.t.
Variable operation : BaseImageProvider.Operation W T.
Variable operationName : string.

(** The error with which one raced attempt fails, if it fails. *)
Definition attemptError (a : BaseImageProvider.Attempt T) : option JsError :=
  match a with
  | BaseImageProvider.Resolves _ => None
  | BaseImageProvider.Rejects e => Some e
  | BaseImageProvider.Pending => Some (BaseImageProvider.timeoutError this operationName)
  end.

(** The world after [n] calls of the operation. *)
Fixpoint worldAfter (n : nat) (w : W) : W :=
  match n with
  | O => w
  | S n' => worldAfter n' (snd (operation w))
  end.

End Attempts.

(** A retryable error of the taxonomy: a [ProviderError] as [createError]
    builds it (no HTTP response attached) whose code is retryable by code. *)
Definition retryableError (e : JsError) : Prop :=
  errStatus e = None /\
  exists code, errCode e = Some code /\
               ImageGenerationError.isRetryableByCode code = true.

(** The operation fails with a retryable error whenever it is called. *)
Definition alwaysFailsRetryably {W T} (this : BaseImageProvider.t)
           (operation : BaseImageProvider.Operation W T) (operationName : string) : Prop :=
  forall w, exists e,
    attemptError this operationName (fst (operation w)) = Some e /\ retryableError e.

(** The errors that [isClientError] recognises: an HTTP 4xx response, or
    one of the listed codes. *)
Definition clientError (e : JsError) : Prop :=
  (exists status, errStatus e = Some status /\ 400 <= status < 500) \/
  (exists code, errCode e = Some code /\
                In code BaseImageProvider.nonRetryableErrorCodes).

(** ** Concrete providers and operations, used as test inputs *)

Module Sample.

Definition chatgptBase : BaseImageProvider.t := BaseImageProvider.new "chatgpt" None.

(** A backend call that fails with the given code each time it is made; the
    world counts the calls. *)
Definition failingWith (code message : string)
  : BaseImageProvider.Operation nat ImageGenerationResult :=
  fun calls =>
    (BaseImageProvider.Rejects (BaseImageProvider.createError chatgptBase code message None),
     S calls).

Definition rateLimited := failingWith "RATE_LIMIT_EXCEEDED" "API rate limit exceeded".
Definition generationFailed := failingWith "GENERATION_FAILED" "Image generation failed: boom".
Definition invalidRequest := failingWith "INVALID_REQUEST" "Invalid request".
Definition authenticationFailed := failingWith "AUTHENTICATION_FAILED" "Invalid API key".

(** A configured ChatGPT adapter whose backend is rate limited. *)
Definition chatgpt : ChatGPTProvider.t nat :=
  {| ChatGPTProvider.base := chatgptBase;
     ChatGPTProvider.enabled := true;
     ChatGPTProvider.hasApiKey := true;
     ChatGPTProvider.hasClient := true;
     ChatGPTProvider.promptModifier := fun _ => None;
     ChatGPTProvider.backend := fun _ _ _ => rateLimited;
     ChatGPTProvider.listModels := ret tt |}.

Definition redBicycle (n : option Z) (d : option ImageDimensions)
  : ImageGenerationRequest :=
  {| prompt := Js.codes "a red bicycle"; style := None; dimensions := d;
     quality := None; count := n; format := None; transparent := false;
     negativePrompt := None; seed := None |}.

End Sample.

(** ** Requests that the validator must refuse *)

(** Width or height outside [64, 2048], or the ratio width : height below
    1 : 4 or above 4 : 1 (written without division). *)
Definition dimensionsOutOfBounds (d : ImageDimensions) : Prop :=
  width d < 64 \/ 2048 < width d \/ height d < 64 \/ 2048 < height d \/
  4 * width d < height d \/ 4 * height d < width d.

(** ** Availability as reported during one pass over the registry *)

Section Reports.
Variable W : Type.

(** The adapter contract for the probe: [isAvailable] answers, it does not
    throw. *)
Definition probeNeverThrows (p : ImageProvider.t W) : Prop :=
  forall w, exists answer, fst (ImageProvider.isAvailable p w) = Returned answer.

(** What each provider answers when the providers are probed one after the
    other, starting in world [w]. *)
Fixpoint probeReports (providers : list (ImageProvider.t W)) (w : W)
  : list (ImageProvider.t W * Outcome bool) :=
  match providers with
  | [] => []
  | p :: rest =>
      (p, fst (ImageProvider.isAvailable p w))
        :: probeReports rest (snd (ImageProvider.isAvailable p w))
  end.

Fixpoint worldAfterProbes (providers : list (ImageProvider.t W)) (w : W) : W :=
  match providers with
  | [] => w
  | p :: rest => worldAfterProbes rest (snd (ImageProvider.isAvailable p w))
  end.

Definition saidAvailable (report : ImageProvider.t W * Outcome bool) : bool :=
  match snd report with
  | Returned true => true
  | _ => false
  end.

(** The providers that answered [true], in registry order. *)
Definition reportedAvailable (reports : list (ImageProvider.t W * Outcome bool))
  : list (ImageProvider.t W) :=
  map fst (filter saidAvailable reports).

Definition probeEvents (reports : list (ImageProvider.t W * Outcome bool))
  : list Event :=
  map (fun report => EvProbe (ImageProvider.name (fst report)) (snd report)) reports.

(** [x] is the first element of [l] that satisfies [good]. *)
Definition firstSuchThat {A} (good : A -> Prop) (l : list A) (x : A) : Prop :=
  exists before after,
    l = before ++ x :: after /\ good x /\ forall y, In y before -> ~ good y.

(** No candidate bears the name [n]. *)
Definition unmatched (candidates : list (ImageProvider.t W)) (n : string) : Prop :=
  forall q, In q candidates -> ImageProvider.name q <> n.

(** [p] is chosen by the priority table [order]: its name is the first name
    of [order] borne by a candidate, and [p] is the first candidate that
    bears it. *)
Definition pickedByPriority (order : list string)
           (candidates : list (ImageProvider.t W)) (p : ImageProvider.t W) : Prop :=
  (exists before after,
      order = before ++ ImageProvider.name p :: after /\
      forall n, In n before -> unmatched candidates n) /\
  firstSuchThat (fun q => ImageProvider.name q = ImageProvider.name p) candidates p.

End Reports.

(** A failed result that says what went wrong. *)
Definition describesFailure (r : ImageGenerationResult) : Prop :=
  success r = false /\ exists message, error r = Some message /\ message <> ""%string.

(** The run [run] with the events [t] emitted before it. *)
Definition after {W A} (t : list Event) (run : Outcome A * W * list Event)
  : Outcome A * W * list Event :=
  (outcomeOf run, worldOf run, t ++ eventsOf run).

Definition returned {A} (r : Outcome A) : bool :=
  match r with Returned _ => true | Threw _ => false end.

(** ** Stub providers, used as test inputs; the world counts the calls *)

Module SampleProviders.

Definition okResult (name : string) : ImageGenerationResult :=
  {| success := true; images := []; provider := name; requestId := "req-1";
     error := None |}.

Definition stub (name : string) (available : bool) (features : Feature -> bool)
           (answer : Outcome ImageGenerationResult) : ImageProvider.t nat :=
  {| ImageProvider.name := name;
     ImageProvider.isAvailable := fun calls => (Returned available, S calls);
     ImageProvider.supportsFeature := features;
     ImageProvider.generateImage := fun _ calls => (answer, S calls) |}.

(** A provider that cannot produce PNG: generation only. *)
Definition jpegOnly : ImageProvider.t nat :=
  stub "jpegonly" true
       (fun f => match f with generation => true | _ => false end)
       (Returned (okResult "jpegonly")).

Definition chatgpt (available : bool) (answer : Outcome ImageGenerationResult)
  : ImageProvider.t nat :=
  stub "chatgpt" available (ChatGPTProvider.supportsFeature) answer.

Definition huggingface (available : bool) (answer : Outcome ImageGenerationResult)
  : ImageProvider.t nat :=
  stub "huggingface" available (fun _ => true) answer.

(** One provider is down, the other one works. *)
Definition chatgptUnavailable : ProviderManager.t nat :=
  [("chatgpt", chatgpt false (Returned (okResult "chatgpt")));
   ("huggingface", huggingface true (Returned (okResult "huggingface")))]%string.

Definition withJpegOnly : ProviderManager.t nat :=
  [("chatgpt", chatgpt true (Returned (okResult "chatgpt")));
   ("jpegonly", jpegOnly)]%string.

Definition logoRequest : ImageGenerationRequest :=
  {| prompt := Js.codes "a fox logo"; style := None; dimensions := None;
     quality := None; count := Some 1; format := Some "png"%string;
     transparent := true; negativePrompt := None; seed := None |}.

End SampleProviders.

(** ** A small cache, used as a test input *)

Module SampleCache.

(** The fingerprint of the sample: the prompt and the count. *)
Definition fingerprint (request : ImageGenerationRequest) : Js.jsstring * option Z :=
  (prompt request, count request).

Definition key_eqb (a b : Js.jsstring * option Z) : bool :=
  (if list_eq_dec N.eq_dec (fst a) (fst b) then true else false)
  && match snd a, snd b with
     | Some x, Some y => x =? y
     | None, None => true
     | _, _ => false
     end.

Definition entryFor (request : ImageGenerationRequest) (name : string) (at_ : Z)
  : ImageCache.CacheEntry (Js.jsstring * option Z) :=
  {| ImageCache.entryKey := fingerprint request;
     ImageCache.entryResult := SampleProviders.okResult name;
     ImageCache.createdAt := at_;
     ImageCache.expiresAt := at_ + 86400000 |}.

(** Two entries, created at 1000 and 2000; room for two; TTL of a day. *)
Definition full : ImageCache.t (Js.jsstring * option Z) :=
  {| ImageCache.entries := [entryFor (Sample.redBicycle (Some 1) None) "chatgpt" 1000;
                            entryFor (Sample.redBicycle (Some 2) None) "chatgpt" 2000];
     ImageCache.ttl := 86400000;
     ImageCache.maxSize := 2 |}.

End SampleCache.

(** ** Shapes of strings and patterns, for the study of [sanitizePrompt] *)

Section Shapes.
Import Js.

(** Whitespace is tidy: every whitespace code unit is a single space that
    does not follow another one ([afterSpace] tells whether the code unit
    before [s] is whitespace). *)
Fixpoint tidy (afterSpace : bool) (s : jsstring) : Prop :=
  match s with
  | [] => True
  | c :: s' =>
      if isSpace c then afterSpace = false /\ c = SPACE /\ tidy true s'
      else tidy false s'
  end.

(** The pattern [\b(?:alts)\b] matches nowhere in [s], [before] being the
    code unit before [s]. *)
Fixpoint noMatchFrom (alts : list jsstring) (before : option char) (s : jsstring) : Prop :=
  match s with
  | [] => True
  | c :: s' => matchAlternatives alts before s = None /\ noMatchFrom alts (Some c) s'
  end.

(** The code unit before what follows [pre]. *)
Fixpoint lastOr (before : option char) (pre : jsstring) : option char :=
  match pre with
  | [] => before
  | c :: pre' => lastOr (Some c) pre'
  end.

(** Wherever the pattern [kept] does not match in [s], the pattern
    [other] does not match either. *)
Definition quiet (kept other : list jsstring) (before : option char) (s : jsstring) : Prop :=
  forall pre post,
    s = pre ++ post ->
    matchAlternatives kept (lastOr before pre) post = None ->
    matchAlternatives other (lastOr before pre) post = None.

(** The rest of a literal in which no two neighbours are both outside [\w]
    and which ends inside [\w]; [prevWord] tells whether the character
    before it is in [\w]. *)
Fixpoint tailOK (prevWord : bool) (w : jsstring) : bool :=
  match w with
  | [] => prevWord
  | x :: w' => (prevWord || isWord x) && tailOK (isWord x) w'
  end.

(** A literal such as [hack] or [self-harm]: it starts and ends inside
    [\w], has no two neighbours outside [\w], and holds no whitespace. *)
Definition wordLike (w : jsstring) : bool :=
  match w with
  | [] => false
  | x :: w' => isWord x && tailOK (isWord x) w' && forallb (fun c => negb (isSpace c)) w
  end.

End Shapes.

(** ** Requests that the validator lets through *)

(** The prompt is not blank and has at most 4000 code units; the count is
    absent, zero, or between 1 and 10; the dimensions are absent, or both
    between 64 and 2048 with a ratio between 1 : 4 and 4 : 1. *)
Definition acceptable (request : ImageGenerationRequest) : Prop :=
  Js.trim (prompt request) <> [] /\
  Js.length (prompt request) <= 4000 /\
  match count request with
  | None => True
  | Some n => n = 0 \/ 1 <= n <= 10
  end /\
  match dimensions request with
  | None => True
  | Some d =>
      64 <= width d <= 2048 /\ 64 <= height d <= 2048 /\
      height d <= 4 * width d /\ width d <= 4 * height d
  end.

(** ** More test inputs *)

Module SampleOperations.

(** A backend that is rate limited twice and then answers. *)
Definition flaky : BaseImageProvider.Operation nat ImageGenerationResult :=
  fun calls =>
    (if (calls <? 2)%nat
     then BaseImageProvider.Rejects
            (BaseImageProvider.createError Sample.chatgptBase "RATE_LIMIT_EXCEEDED"
               "API rate limit exceeded" None)
     else BaseImageProvider.Resolves (SampleProviders.okResult "chatgpt"),
     S calls).

End SampleOperations.

(* ================================================================== *)
(** * providers/chatGptProvider.ts: the parameters sent to DALL-E *)
(* ================================================================== *)

Module ChatGPTParams.

(** The field of [this.config] that the parameters depend on. *)
Record ChatGPTConfig := { model : option string }.

(** [this.config.model === 'dall-e-3' ? 1 : 10]. *)
Definition getMaxImageCount (config : ChatGPTConfig) : Z :=
  match model config with
  | Some m => if String.eqb m "dall-e-3" then 1 else 10
  | None => 10
  end.

Definition supportedSizes : list string :=
  ["1024x1024"; "1024x1792"; "1792x1024"]%string.

Definition getSupportedDimensions : list ImageDimensions :=
  [ {| width := 1024; height := 1024 |};
    {| width := 1024; height := 1792 |};
    {| width := 1792; height := 1024 |} ].

(** [`${width}x${height}`]. *)
Definition requestedSize (d : ImageDimensions) : string :=
  (Js.showZ (width d) ++ "x" ++ Js.showZ (height d))%string.

Definition mapDimensionsToSize (d : ImageDimensions) : string :=
  if existsb (String.eqb (requestedSize d)) supportedSizes then requestedSize d
  else if width d =? height d then "1024x1024"%string
  else if width d >? height d then "1792x1024"%string
  else "1024x1792"%string.

Record ImageGenerateParams := {
  paramPrompt : Js.jsstring;
  paramModel : string;
  n : Z;
  paramQuality : string;
  response_format : string;
  user : string;
  size : string;
  paramStyle : option string
}.

(** [x || fallback] for an optional string. *)
Definition orString (x : option string) (fallback : string) : string :=
  match x with
  | Some s => if String.eqb s "" then fallback else s
  | None => fallback
  end.

(** [request.count || 1]. *)
Definition countOrOne (request : ImageGenerationRequest) : Z :=
  match count request with
  | Some c => if c =? 0 then 1 else c
  | None => 1
  end.

(** The object [dalleParams] that the closure of [generateImage] builds
    before it calls [images.generate]. *)
Definition dalleParams (config : ChatGPTConfig) (request : ImageGenerationRequest)
           (styledPrompt : Js.jsstring) (requestId : string) : ImageGenerateParams :=
  {| paramPrompt := styledPrompt;
     paramModel := orString (model config) "dall-e-3";
     n := Z.min (countOrOne request) (getMaxImageCount config);
     paramQuality := orString (quality request) "standard";
     response_format := "url";
     user := requestId;
     size := match dimensions request with
             | Some d => mapDimensionsToSize d
             | None => "1024x1024"%string
             end;
     paramStyle := match model config with
                   | Some m =>
                       if String.eqb m "dall-e-3"
                       then Some (match style request with
                                  | Some st => if String.eqb st "realistic"
                                               then "natural"%string else "vivid"%string
                                  | None => "vivid"%string
                                  end)
                       else None
                   | None => None
                   end |}.

End ChatGPTParams.

(** Does the character occur in the string? *)
Fixpoint occursIn (c : ascii) (s : string) : bool :=
  match s with
  | EmptyString => false
  | String a s' => Ascii.eqb a c || occursIn c s'
  end.

(* ================================================================== *)
(** * utils/errorHandler.ts: classification of failures *)
(* ================================================================== *)

Module ErrorHandler.

Inductive ErrorCodes :=
| CONFIGURATION_ERROR | PROVIDER_NOT_CONFIGURED
| AUTHENTICATION_FAILED | PERMISSION_DENIED | RATE_LIMIT_EXCEEDED | QUOTA_EXCEEDED
| INVALID_REQUEST | CONTENT_POLICY_VIOLATION
| GENERATION_FAILED | DESCRIPTION_FAILED | TAGGING_FAILED | DOWNLOAD_FAILED
| TIMEOUT | SERVICE_UNAVAILABLE | NETWORK_ERROR | INVALID_RESPONSE
| FEATURE_NOT_AVAILABLE | IMAGE_DESCRIPTION_NOT_SUPPORTED | IMAGE_TAGGING_NOT_SUPPORTED
| OPERATION_FAILED | VALIDATION_FAILED.

(** The string value of a member of the enum. *)
Definition codeString (c : ErrorCodes) : string :=
  match c with
  | CONFIGURATION_ERROR => "CONFIGURATION_ERROR"
  | PROVIDER_NOT_CONFIGURED => "PROVIDER_NOT_CONFIGURED"
  | AUTHENTICATION_FAILED => "AUTHENTICATION_FAILED"
  | PERMISSION_DENIED => "PERMISSION_DENIED"
  | RATE_LIMIT_EXCEEDED => "RATE_LIMIT_EXCEEDED"
  | QUOTA_EXCEEDED => "QUOTA_EXCEEDED"
  | INVALID_REQUEST => "INVALID_REQUEST"
  | CONTENT_POLICY_VIOLATION => "CONTENT_POLICY_VIOLATION"
  | GENERATION_FAILED => "GENERATION_FAILED"
  | DESCRIPTION_FAILED => "DESCRIPTION_FAILED"
  | TAGGING_FAILED => "TAGGING_FAILED"
  | DOWNLOAD_FAILED => "DOWNLOAD_FAILED"
  | TIMEOUT => "TIMEOUT"
  | SERVICE_UNAVAILABLE => "SERVICE_UNAVAILABLE"
  | NETWORK_ERROR => "NETWORK_ERROR"
  | INVALID_RESPONSE => "INVALID_RESPONSE"
  | FEATURE_NOT_AVAILABLE => "FEATURE_NOT_AVAILABLE"
  | IMAGE_DESCRIPTION_NOT_SUPPORTED => "IMAGE_DESCRIPTION_NOT_SUPPORTED"
  | IMAGE_TAGGING_NOT_SUPPORTED => "IMAGE_TAGGING_NOT_SUPPORTED"
  | OPERATION_FAILED => "OPERATION_FAILED"
  | VALIDATION_FAILED => "VALIDATION_FAILED"
  end%string.

Inductive ErrorSeverity := LOW | MEDIUM | HIGH | CRITICAL.

(** A thrown value that is not an [ImageGenerationError], as [handle] and
    its helpers inspect it: [error?.message], [error?.code],
    [error?.error?.code], [error?.error?.message] and
    [error?.response?.status]. *)
Record RawError := {
  rawMessage : option string;
  rawCode : option string;
  apiCode : option string;
  apiMessage : option string;
  httpStatus : option Z
}.

(** The [details] that the functions of this file attach. *)
Inductive Details :=
| OriginalMessage (message : option string)       (* [{ originalError: error.message }] *)
| OriginalError (error : RawError)                (* [{ originalError: error }] *)
| TimedOut (operation : string) (timeout : Z).    (* [{ operation, timeout }] *)

(** An [ImageGenerationError]; [message] is what [super(message)] leaves in
    [this.message] (the empty string for [undefined]), [timestamp] is the
    clock reading taken by the constructor. *)
Record ImageGenerationError := {
  name : string;
  message : string;
  provider : string;
  code : ErrorCodes;
  severity : ErrorSeverity;
  retryable : bool;
  userFriendly : option string;
  details : option Details;
  timestamp : Z;
  requestId : option string
}.

(** The [options] argument of the constructor. *)
Record Options := {
  optSeverity : option ErrorSeverity;
  optRetryable : option bool;
  optUserFriendly : option string;
  optDetails : option Details;
  optRequestId : option string
}.

Definition friendlyMessages (c : ErrorCodes) : option string :=
  match c with
  | AUTHENTICATION_FAILED => Some "Invalid API key. Please check your configuration."
  | RATE_LIMIT_EXCEEDED => Some "Too many requests. Please wait a moment and try again."
  | QUOTA_EXCEEDED => Some "API quota exceeded. Please check your account limits."
  | CONTENT_POLICY_VIOLATION =>
      Some "The request violates content policy. Please modify your prompt."
  | TIMEOUT => Some "Request timed out. Please try again."
  | SERVICE_UNAVAILABLE => Some "Service temporarily unavailable. Please try again later."
  | INVALID_REQUEST => Some "Invalid request parameters. Please check your input."
  | GENERATION_FAILED =>
      Some "Image generation failed. Please try again with a different prompt."
  | DESCRIPTION_FAILED => Some "Image description failed. Please check the image URL."
  | TAGGING_FAILED => Some "Image tagging failed. Please check the image URL."
  | DOWNLOAD_FAILED => Some "Failed to download image. Please check the URL."
  | FEATURE_NOT_AVAILABLE =>
      Some "This feature is not available with current configuration."
  | _ => None
  end%string.

(** [a || b] on optional strings: the empty string is falsy. *)
Definition orElse (a b : option string) : option string :=
  match a with
  | Some s => if String.eqb s "" then b else Some s
  | None => b
  end.

(** [friendlyMessages[code] || originalMessage]. *)
Definition generateUserFriendlyMessage (c : ErrorCodes) (originalMessage : option string)
  : option string :=
  orElse (friendlyMessages c) originalMessage.

(** The constructor, called with a member of [ErrorCodes] as all the
    functions of this file do; [now] is [new Date()]. *)
Definition new (now : Z) (c : ErrorCodes) (msg : option string) (prov : string)
           (options : Options) : ImageGenerationError :=
  {| name := "ImageGenerationError";
     message := match msg with Some m => m | None => ""%string end;
     provider := prov;
     code := c;
     severity := match optSeverity options with Some s => s | None => MEDIUM end;
     retryable := match optRetryable options with
                  | Some r => r
                  | None => ImageGenerationError.isRetryableByCode (codeString c)
                  end;
     userFriendly := orElse (optUserFriendly options) (generateUserFriendlyMessage c msg);
     details := optDetails options;
     timestamp := now;
     requestId := optRequestId options |}.

Definition noOptions : Options :=
  {| optSeverity := None; optRetryable := None; optUserFriendly := None;
     optDetails := None; optRequestId := None |}.

Definition isCode (x : option string) (s : string) : bool :=
  match x with Some c => String.eqb c s | None => false end.

Definition isStatus (x : option Z) (n : Z) : bool :=
  match x with Some s => s =? n | None => false end.

Definition handleOpenAIError (now : Z) (error : RawError) (reqId : option string)
  : ImageGenerationError :=
  let errorCode := apiCode error in
  let errorMessage := orElse (apiMessage error) (rawMessage error) in
  let statusCode := httpStatus error in
  let opts sev r det :=
    {| optSeverity := sev; optRetryable := r; optUserFriendly := None;
       optDetails := det; optRequestId := reqId |} in
  if isCode errorCode "content_policy_violation"
  then new now CONTENT_POLICY_VIOLATION errorMessage "chatgpt"
           (opts (Some LOW) (Some false) None)
  else if isCode errorCode "invalid_request_error"
  then new now INVALID_REQUEST errorMessage "chatgpt" (opts (Some LOW) (Some false) None)
  else if isCode errorCode "rate_limit_exceeded"
  then new now RATE_LIMIT_EXCEEDED (Some "OpenAI rate limit exceeded"%string) "chatgpt"
           (opts (Some MEDIUM) (Some true) None)
  else if isCode errorCode "insufficient_quota"
  then new now QUOTA_EXCEEDED (Some "OpenAI quota exceeded"%string) "chatgpt"
           (opts (Some HIGH) (Some false) None)
  else if isStatus statusCode 401
  then new now AUTHENTICATION_FAILED (Some "Invalid OpenAI API key"%string) "chatgpt"
           (opts (Some CRITICAL) (Some false) None)
  else if isStatus statusCode 403
  then new now PERMISSION_DENIED (Some "Access denied to OpenAI API"%string) "chatgpt"
           (opts (Some HIGH) (Some false) None)
  else if isStatus statusCode 503
  then new now SERVICE_UNAVAILABLE
           (Some "OpenAI service temporarily unavailable"%string) "chatgpt"
           (opts (Some MEDIUM) (Some true) None)
  else new now OPERATION_FAILED (orElse errorMessage (Some "OpenAI API error"%string))
           "chatgpt" (opts None None (Some (OriginalError error))).

Definition handleHuggingFaceError (now : Z) (error : RawError) (reqId : option string)
  : ImageGenerationError :=
  let statusCode := httpStatus error in
  let errorMessage := rawMessage error in
  let opts sev r friendly det :=
    {| optSeverity := sev; optRetryable := r; optUserFriendly := friendly;
       optDetails := det; optRequestId := reqId |} in
  if isStatus statusCode 401
  then new now AUTHENTICATION_FAILED (Some "Invalid HuggingFace API key"%string)
           "huggingface" (opts (Some CRITICAL) (Some false) None None)
  else if isStatus statusCode 403
  then new now PERMISSION_DENIED (Some "Access denied to HuggingFace model"%string)
           "huggingface" (opts (Some HIGH) (Some false) None None)
  else if isStatus statusCode 429
  then new now RATE_LIMIT_EXCEEDED (Some "HuggingFace rate limit exceeded"%string)
           "huggingface" (opts (Some MEDIUM) (Some true) None None)
  else if isStatus statusCode 503
  then new now SERVICE_UNAVAILABLE (Some "HuggingFace model is loading"%string)
           "huggingface"
           (opts (Some MEDIUM) (Some true)
                 (Some "Model is starting up. Please wait a few moments and try again."%string)
                 None)
  else new now OPERATION_FAILED (orElse errorMessage (Some "HuggingFace API error"%string))
           "huggingface" (opts None None None (Some (OriginalError error))).

(** What [handle] is given: an [ImageGenerationError] ([instanceof]) or
    any other thrown value. *)
Inductive Thrown :=
| Already (e : ImageGenerationError)
| Other (error : RawError).

Definition handle (now : Z) (error : Thrown) (prov : string) (reqId : option string)
  : ImageGenerationError :=
  match error with
  | Already e => e
  | Other error =>
      let opts sev r det :=
        {| optSeverity := sev; optRetryable := r; optUserFriendly := None;
           optDetails := det; optRequestId := reqId |} in
      if String.eqb prov "chatgpt" then handleOpenAIError now error reqId
      else if String.eqb prov "huggingface" then handleHuggingFaceError now error reqId
      else if isCode (rawCode error) "ENOTFOUND" || isCode (rawCode error) "ECONNREFUSED"
      then new now NETWORK_ERROR (Some "Network connection failed"%string) prov
               (opts (Some HIGH) (Some true) (Some (OriginalMessage (rawMessage error))))
      else if isCode (rawCode error) "ETIMEDOUT"
      then new now TIMEOUT (Some "Request timed out"%string) prov
               (opts (Some MEDIUM) (Some true) (Some (OriginalMessage (rawMessage error))))
      else new now OPERATION_FAILED
               (orElse (rawMessage error) (Some "Unknown error occurred"%string)) prov
               (opts (Some MEDIUM) (Some false) (Some (OriginalError error)))
  end.

(** [ErrorHandler.timeoutError]. *)
Definition timeoutError (now : Z) (operation : string) (timeout : Z) (prov : string)
           (reqId : option string) : ImageGenerationError :=
  new now TIMEOUT
      (Some (operation ++ " timed out after " ++ Js.showZ timeout ++ "ms")%string) prov
      {| optSeverity := Some MEDIUM; optRetryable := Some true; optUserFriendly := None;
         optDetails := Some (TimedOut operation timeout); optRequestId := reqId |}.

(** The object that [toToolResponse] returns. *)
Record ToolResponse := {
  responseSuccess : bool;
  responseError : option string;
  responseCode : string;
  responseRetryable : bool
}.

Definition toToolResponse (e : ImageGenerationError) : ToolResponse :=
  {| responseSuccess := false;
     responseError := userFriendly e;
     responseCode := codeString (code e);
     responseRetryable := retryable e |}.

End ErrorHandler.

(* ================================================================== *)
(** * tools/generateImage.ts: formatFileSize *)
(* ================================================================== *)

Module GenerateImageTool.

Definition units : list string := ["B"; "KB"; "MB"; "GB"]%string.

(** The [while] loop of [formatFileSize].  A file size is an integer
    below 2^53, and dividing such a double by 1024 is exact, so [size] is
    the rational number itself.  The test [unitIndex < units.length - 1]
    stops the loop after at most [units.length - 1] rounds; [fuel] only
    has to be that large. *)
Fixpoint scale (fuel : nat) (size : Q) (unitIndex : nat) : Q * nat :=
  match fuel with
  | O => (size, unitIndex)
  | S fuel' =>
      if Qle_bool (inject_Z 1024) size && (unitIndex <? List.length units - 1)%nat
      then scale fuel' (size / inject_Z 1024)%Q (S unitIndex)
      else (size, unitIndex)
  end.

(** [x.toFixed(2)] for [0 <= x < 10^21] picks the integer [n] for which
    [n / 100 - x] is closest to zero, the larger one of two. *)
Definition hundredths (x : Q) : Z := Qfloor (x * inject_Z 100 + (1 # 2))%Q.

Definition twoDigits (n : Z) : string :=
  if n <? 10 then ("0" ++ Js.showZ n)%string else Js.showZ n.

(** The digits of [n], the point before the last two. *)
Definition fixed2 (n : Z) : string :=
  (Js.showZ (n / 100) ++ "." ++ twoDigits (n mod 100))%string.

Definition toFixed2 (x : Q) : string := fixed2 (hundredths x).

Definition formatFileSize (bytes : Z) : string :=
  let '(size, unitIndex) := scale (List.length units) (inject_Z bytes) 0 in
  (toFixed2 size ++ " " ++ nth unitIndex units "undefined")%string.

End GenerateImageTool.

(* ================================================================== *)
(** * providers/providerManager.ts: description, tagging and capabilities *)
(* ================================================================== *)

Module ImageDescriptionResult.
Record t := {
  success : bool;
  description : string;
  confidence : option Q;
  provider : string;
  error : option string
}.
End ImageDescriptionResult.

Module ImageTaggingResult.
Record ImageTag := { label : string; confidence : Q; category : option string }.
Record t := {
  success : bool;
  tags : list ImageTag;
  provider : string;
  error : option string
}.
End ImageTaggingResult.

(** The [ImageProvider] interface with the members that
    [ProviderManager.generateImage] does not touch: the optional methods
    [describeImage?] and [tagImage?] ([None] when the object has none),
    [getSupportedFormats()] and [getMaxImageCount()]. *)
Module FullImageProvider.

Record t (W : Type) := {
  core : ImageProvider.t W;
  describeImage : option (string -> W -> Outcome ImageDescriptionResult.t * W);
  tagImage : option (string -> W -> Outcome ImageTaggingResult.t * W);
  getSupportedFormats : list string;
  getMaxImageCount : Z
}.
Arguments core {W} _.
Arguments describeImage {W} _.
Arguments tagImage {W} _.
Arguments getSupportedFormats {W} _.
Arguments getMaxImageCount {W} _.

Definition name {W} (p : t W) : string := ImageProvider.name (core p).
Definition supportsFeature {W} (p : t W) (feature : Feature) : bool :=
  ImageProvider.supportsFeature (core p) feature.

End FullImageProvider.

(** The manager over such providers.  The functions that
    [ProviderManager] above has already are repeated here word for word,
    now returning the whole provider. *)
Module FullProviderManager.

Record Capabilities := {
  canGenerate : bool;
  canDescribe : bool;
  canTag : bool;
  canGenerateLogos : bool;
  supportedFormats : list string;
  maxImageCount : Z
}.

(** [[...new Set(xs)]]: the first occurrence of every element, in order. *)
Fixpoint distinct (seen xs : list string) : list string :=
  match xs with
  | [] => []
  | x :: xs' =>
      if existsb (String.eqb x) seen then distinct seen xs'
      else x :: distinct (x :: seen) xs'
  end.

Section WithWorld.
Variable W : Type.

Local Abbreviation Provider := (FullImageProvider.t W).

Definition t := list (string * Provider).

Definition getProviders (this : t) : list Provider := map snd this.

Definition getProvider (this : t) (name : string) : option Provider :=
  match find (fun kv => String.eqb (fst kv) name) this with
  | Some kv => Some (snd kv)
  | None => None
  end.

(** The same registry, seen by [ProviderManager.generateImage]. *)
Definition cores (this : t) : ProviderManager.t W :=
  map (fun kv => (fst kv, FullImageProvider.core (snd kv))) this.

Definition probe (p : Provider) : M W bool :=
  ProviderManager.probe (FullImageProvider.core p).

Fixpoint probeAll (providers : list Provider) : M W (list Provider) :=
  match providers with
  | [] => ret []
  | p :: rest =>
      (available <- tryCatch (probe p) (fun _ => ret false) ;;
       others <- probeAll rest ;;
       ret (if available then p :: others else others))%js
  end.

Definition getAvailableProviders (this : t) : M W (list Provider) :=
  probeAll (getProviders this).

Fixpoint pickByPriority (order : list string) (supporting : list Provider)
  : option Provider :=
  match order with
  | [] => None
  | providerName :: order' =>
      match find (fun p => String.eqb (FullImageProvider.name p) providerName) supporting with
      | Some p => Some p
      | None => pickByPriority order' supporting
      end
  end.

Definition chooseBest (feature : Feature) (available : list Provider)
  : option Provider :=
  let supporting := filter (fun p => FullImageProvider.supportsFeature p feature) available in
  match supporting with
  | [] => None
  | first :: _ =>
      match pickByPriority (ProviderManager.priorityOrder feature) supporting with
      | Some p => Some p
      | None => Some first
      end
  end.

Definition getBestProvider (this : t) (feature : Feature) : M W (option Provider) :=
  (available <- getAvailableProviders this ;;
   ret (chooseBest feature available))%js.

Definition getFallbackProvider (this : t) (failedProviderName : string)
           (feature : Feature) : M W (option Provider) :=
  (available <- getAvailableProviders this ;;
   ret (find (fun p => negb (String.eqb (FullImageProvider.name p) failedProviderName)
                       && FullImageProvider.supportsFeature p feature) available))%js.

(** [if (preferredProvider) { provider = this.getProvider(...); if (provider
    && !(await provider.isAvailable())) provider = null }]. *)
Definition selectPreferred (this : t) (preferredProvider : option string)
  : M W (option Provider) :=
  match preferredProvider with
  | None => ret None
  | Some providerName =>
      if String.eqb providerName "" then ret None
      else match getProvider this providerName with
           | None => ret None
           | Some p => (available <- probe p ;;
                        ret (if available then Some p else None))%js
           end
  end.

(** [describeImage] and [tagImage] are the same text up to the feature,
    the method called and the two failure results: [operate] is that text,
    and the two functions are its instances.  A call of the method is
    recorded as the operation [operationName] of the provider. *)
Section Operation.
Variable R : Type.
Variable feature : Feature.
Variable operationName : string.
Variable method : Provider -> option (string -> W -> Outcome R * W).
Variable noProvider : R.
Variable failed : Provider -> JsError -> R.

Definition call (p : Provider) (f : string -> W -> Outcome R * W) (imageUrl : string)
  : M W R :=
  fun w =>
    let '(r, w') := f imageUrl w in
    (r, w', [EvOperation (FullImageProvider.name p) operationName]).

(** The [catch] block. *)
Definition tryFallback (this : t) (imageUrl : string) (p : Provider) (error : JsError)
  : M W R :=
  (fallbackProvider <- getFallbackProvider this (FullImageProvider.name p) feature ;;
   match fallbackProvider with
   | Some q =>
       match method q with
       | Some g => tryCatch (call q g imageUrl) (fun _ => ret (failed p error))
       | None => ret (failed p error)
       end
   | None => ret (failed p error)
   end)%js.

Definition operate (this : t) (imageUrl : string) (preferredProvider : option string)
  : M W R :=
  (preferred <- selectPreferred this preferredProvider ;;
   provider <- match preferred with
               | Some p => ret (Some p)
               | None => getBestProvider this feature
               end ;;
   match provider with
   | None => ret noProvider
   | Some p =>
       match method p with
       | None => ret noProvider
       | Some f => tryCatch (call p f imageUrl) (tryFallback this imageUrl p)
       end
   end)%js.

End Operation.

(** [error.message || fallback]. *)
Definition messageOr (e : JsError) (fallback : string) : string :=
  if String.eqb (errMessage e) "" then fallback else errMessage e.

Definition noDescription : ImageDescriptionResult.t :=
  {| ImageDescriptionResult.success := false;
     ImageDescriptionResult.description := "";
     ImageDescriptionResult.confidence := None;
     ImageDescriptionResult.provider := "none";
     ImageDescriptionResult.error :=
       Some "No available providers for image description"%string |}.

Definition failedDescription (p : Provider) (e : JsError) : ImageDescriptionResult.t :=
  {| ImageDescriptionResult.success := false;
     ImageDescriptionResult.description := "";
     ImageDescriptionResult.confidence := None;
     ImageDescriptionResult.provider := FullImageProvider.name p;
     ImageDescriptionResult.error := Some (messageOr e "Image description failed") |}.

Definition describeImage (this : t) (imageUrl : string) (preferredProvider : option string)
  : M W ImageDescriptionResult.t :=
  operate description "describeImage" FullImageProvider.describeImage
          noDescription failedDescription this imageUrl preferredProvider.

Definition noTagging : ImageTaggingResult.t :=
  {| ImageTaggingResult.success := false;
     ImageTaggingResult.tags := [];
     ImageTaggingResult.provider := "none";
     ImageTaggingResult.error := Some "No available providers for image tagging"%string |}.

Definition failedTagging (p : Provider) (e : JsError) : ImageTaggingResult.t :=
  {| ImageTaggingResult.success := false;
     ImageTaggingResult.tags := [];
     ImageTaggingResult.provider := FullImageProvider.name p;
     ImageTaggingResult.error := Some (messageOr e "Image tagging failed") |}.

Definition tagImage (this : t) (imageUrl : string) (preferredProvider : option string)
  : M W ImageTaggingResult.t :=
  operate tagging "tagImage" FullImageProvider.tagImage
          noTagging failedTagging this imageUrl preferredProvider.

Definition hasAvailableProviders (this : t) : M W bool :=
  (available <- getAvailableProviders this ;;
   ret (0 <? List.length available)%nat)%js.

Definition noCapabilities : Capabilities :=
  {| canGenerate := false; canDescribe := false; canTag := false;
     canGenerateLogos := false; supportedFormats := []; maxImageCount := 0 |}.

(** [Math.max(...xs)] of a list that is not empty. *)
Definition maxOf (first : Z) (others : list Z) : Z := fold_left Z.max others first.

Definition getCapabilities (this : t) : M W Capabilities :=
  (available <- getAvailableProviders this ;;
   ret match available with
       | [] => noCapabilities
       | first :: others =>
           let some feature :=
             existsb (fun p => FullImageProvider.supportsFeature p feature) available in
           {| canGenerate := some generation;
              canDescribe := some description;
              canTag := some tagging;
              canGenerateLogos := some logo;
              supportedFormats :=
                distinct [] (flat_map FullImageProvider.getSupportedFormats available);
              maxImageCount :=
                maxOf (FullImageProvider.getMaxImageCount first)
                      (map FullImageProvider.getMaxImageCount others) |}
       end)%js.

End WithWorld.

End FullProviderManager.

(** ** What the full providers answer to the probes *)

Section FullReports.
Variable W : Type.

Fixpoint fullReports (providers : list (FullImageProvider.t W)) (w : W)
  : list (FullImageProvider.t W * Outcome bool) :=
  match providers with
  | [] => []
  | p :: rest =>
      (p, fst (ImageProvider.isAvailable (FullImageProvider.core p) w))
        :: fullReports rest (snd (ImageProvider.isAvailable (FullImageProvider.core p) w))
  end.

Definition answeredTrue (report : FullImageProvider.t W * Outcome bool) : bool :=
  match snd report with
  | Returned true => true
  | _ => false
  end.

(** The providers that answered [true], in registry order. *)
Definition fullAvailable (reports : list (FullImageProvider.t W * Outcome bool))
  : list (FullImageProvider.t W) :=
  map fst (filter answeredTrue reports).

End FullReports.

(** The operations of providers started, in order: provider and operation. *)
Fixpoint operationCalls (trace : list Event) : list (string * string) :=
  match trace with
  | [] => []
  | EvOperation p op :: trace' => (p, op) :: operationCalls trace'
  | _ :: trace' => operationCalls trace'
  end.

(* ================================================================== *)
(** * providers/chatGptProvider.ts: the wrapped operations and their errors *)
(* ================================================================== *)

Module ChatGPTOperations.

Local Open Scope string_scope.

(** What the [catch (error: any)] inside a wrapped operation is given:
    the thrown value as the retry wrapper would see it, with
    [error?.error?.code] and [error?.error?.message] of an API error. *)
Record Caught := {
  thrown : JsError;
  apiCode : option string;
  apiMessage : option string
}.

(** How the body of the [try] ends, raced against the timeout. *)
Inductive Settled (T : Type) :=
| Fulfilled (v : T)
| Failed (error : Caught)
| Hanging.
Arguments Fulfilled {T} v.
Arguments Failed {T} error.
Arguments Hanging {T}.

(** [x || d]. *)
Definition orDefault (x : option string) (d : string) : string :=
  match x with
  | Some s => if String.eqb s "" then d else s
  | None => d
  end.

(** The [catch] of the operation of [generateImage]: what it throws. *)
Definition generationError (this : BaseImageProvider.t) (error : Caught) : JsError :=
  let create := BaseImageProvider.createError this in
  let generationFailed :=
    create "GENERATION_FAILED"
           ("Image generation failed: " ++ errMessage (thrown error))%string
           (Some (thrown error)) in
  match apiCode error with
  | None => generationFailed
  | Some code =>
      if String.eqb code "" then generationFailed
      else if String.eqb code "content_policy_violation"
      then create "CONTENT_POLICY_VIOLATION" "Content violates OpenAI content policy"%string None
      else if String.eqb code "invalid_request_error"
      then create "INVALID_REQUEST" (orDefault (apiMessage error) "Invalid request") None
      else if String.eqb code "rate_limit_exceeded"
      then create "RATE_LIMIT_EXCEEDED" "API rate limit exceeded"%string None
      else if String.eqb code "insufficient_quota"
      then create "QUOTA_EXCEEDED" "API quota exceeded"%string None
      else create "API_ERROR" (orDefault (apiMessage error) "Unknown API error") None
  end.

(** The [catch] of the operation of [describeImage]. *)
Definition descriptionError (this : BaseImageProvider.t) (error : Caught) : JsError :=
  if match apiCode error with
     | Some code => String.eqb code "model_not_found"
     | None => false
     end
  then BaseImageProvider.createError this "FEATURE_NOT_AVAILABLE"
         "GPT-4 Vision is not available" None
  else BaseImageProvider.createError this "DESCRIPTION_FAILED"
         ("Image description failed: " ++ errMessage (thrown error))%string
         (Some (thrown error)).

Section WithWorld.
Variable W : Type.

(** The operation handed to [executeWithRetry] by [describeImage].  [api]
    is [this.client.chat.completions.create(...)] followed by
    [response.choices[0]?.message?.content]; an empty or missing content is
    thrown inside the [try] and so goes through the same [catch]. *)
Definition describeOperation (this : BaseImageProvider.t)
           (api : string -> W -> Settled (option string) * W) (imageUrl : string)
  : BaseImageProvider.Operation W ImageDescriptionResult.t :=
  fun w =>
    let '(s, w') := api imageUrl w in
    (match s with
     | Fulfilled content =>
         match content with
         | Some text =>
             if String.eqb text ""
             then BaseImageProvider.Rejects
                    (descriptionError this
                       {| thrown := BaseImageProvider.createError this "INVALID_RESPONSE"
                                      "No description in response" None;
                          apiCode := None; apiMessage := None |})
             else BaseImageProvider.Resolves
                    {| ImageDescriptionResult.success := true;
                       ImageDescriptionResult.description := text;
                       ImageDescriptionResult.confidence := None;
                       ImageDescriptionResult.provider := BaseImageProvider.name this;
                       ImageDescriptionResult.error := None |}
         | None =>
             BaseImageProvider.Rejects
               (descriptionError this
                  {| thrown := BaseImageProvider.createError this "INVALID_RESPONSE"
                                 "No description in response" None;
                     apiCode := None; apiMessage := None |})
         end
     | Failed error => BaseImageProvider.Rejects (descriptionError this error)
     | Hanging => BaseImageProvider.Pending
     end, w').

(** [ChatGPTProvider.describeImage]; [hasClient] is [this.client !== null]. *)
Definition describeImage (this : BaseImageProvider.t) (hasClient : bool)
           (api : string -> W -> Settled (option string) * W) (imageUrl : string)
  : M W ImageDescriptionResult.t :=
  if negb hasClient
  then throw (BaseImageProvider.createError this "PROVIDER_NOT_CONFIGURED"
                "ChatGPT provider is not configured" None)
  else BaseImageProvider.executeWithRetry this (describeOperation this api imageUrl)
         "describe image".

End WithWorld.

End ChatGPTOperations.

(* ================================================================== *)
(** * providers/huggingFaceProvider.ts: the errors of the wrapped operation *)
(* ================================================================== *)

Module HuggingFaceOperations.

Local Open Scope string_scope.

(** The [catch] of the operation of [generateImage]: what it throws.
    [error?.response?.status] is [errStatus] of the thrown value; 0 is
    falsy. *)
Definition generationError (this : BaseImageProvider.t)
           (error : ChatGPTOperations.Caught) : JsError :=
  let create := BaseImageProvider.createError this in
  let generationFailed :=
    create "GENERATION_FAILED"
           ("Image generation failed: " ++ errMessage (ChatGPTOperations.thrown error))
           (Some (ChatGPTOperations.thrown error)) in
  match errStatus (ChatGPTOperations.thrown error) with
  | None => generationFailed
  | Some status =>
      if (status =? 0)%Z then generationFailed
      else if (status =? 401)%Z
      then create "AUTHENTICATION_FAILED" "Invalid HuggingFace API key" None
      else if (status =? 403)%Z
      then create "PERMISSION_DENIED" "Access denied to HuggingFace model" None
      else if (status =? 429)%Z
      then create "RATE_LIMIT_EXCEEDED" "HuggingFace API rate limit exceeded" None
      else if (status =? 503)%Z
      then create "SERVICE_UNAVAILABLE" "HuggingFace model is currently loading" None
      else create "API_ERROR" ("HuggingFace API error: " ++ Js.showZ status) None
  end.

End HuggingFaceOperations.

(** The same thrown value as [ErrorHandler] reads it. *)
Definition asRawError (error : ChatGPTOperations.Caught) : ErrorHandler.RawError :=
  {| ErrorHandler.rawMessage := Some (errMessage (ChatGPTOperations.thrown error));
     ErrorHandler.rawCode := errCode (ChatGPTOperations.thrown error);
     ErrorHandler.apiCode := ChatGPTOperations.apiCode error;
     ErrorHandler.apiMessage := ChatGPTOperations.apiMessage error;
     ErrorHandler.httpStatus := errStatus (ChatGPTOperations.thrown error) |}.

(* ================================================================== *)
(** * tools/generateImage.ts: handleGenerateImage *)
(* ================================================================== *)

Module GenerateImageHandler.

(** [McpImageGenerationArgs], for arguments of the right types: a string
    prompt, integers and strings where given.  What the schema does with
    values of other types is not modelled. *)
Record Args := {
  argPrompt : Js.jsstring;
  argStyle : option string;
  argWidth : option Z;
  argHeight : option Z;
  argQuality : option string;
  argCount : option Z;
  argProvider : option string;
  argFormat : option string;
  argSeed : option Z;
  argNegativePrompt : option Js.jsstring
}.

Definition styleNames : list string :=
  ["realistic"; "cartoon"; "anime"; "oil-painting"; "watercolor"; "sketch";
   "digital-art"; "cyberpunk"; "steampunk"; "minimalist"; "vintage"; "pop-art";
   "surreal"; "photographic"; "abstract"]%string.

(** The issues that [GenerateImageArgsSchema.parse] can raise on such
    arguments, by field. *)
Inductive Issue :=
| PromptRequired | PromptTooLong
| InvalidStyle
| WidthTooSmall | WidthTooBig
| HeightTooSmall | HeightTooBig
| InvalidQuality
| CountTooSmall | CountTooBig
| InvalidProvider
| InvalidFormat
| NegativePromptTooLong.

Definition enumIssue (allowed : list string) (issue : Issue) (x : option string)
  : list Issue :=
  match x with
  | Some s => if existsb (String.eqb s) allowed then [] else [issue]
  | None => []
  end.

Definition rangeIssue (lo hi : Z) (tooSmall tooBig : Issue) (x : option Z) : list Issue :=
  match x with
  | Some n => if n <? lo then [tooSmall] else if n >? hi then [tooBig] else []
  | None => []
  end.

(** All the issues, in the order of the keys of the schema. *)
Definition issues (args : Args) : list Issue :=
  (if Js.length (argPrompt args) <? 1 then [PromptRequired]
   else if Js.length (argPrompt args) >? 4000 then [PromptTooLong] else [])
  ++ enumIssue styleNames InvalidStyle (argStyle args)
  ++ rangeIssue 64 2048 WidthTooSmall WidthTooBig (argWidth args)
  ++ rangeIssue 64 2048 HeightTooSmall HeightTooBig (argHeight args)
  ++ enumIssue ["standard"; "hd"]%string InvalidQuality (argQuality args)
  ++ rangeIssue 1 10 CountTooSmall CountTooBig (argCount args)
  ++ enumIssue ["chatgpt"; "huggingface"]%string InvalidProvider (argProvider args)
  ++ enumIssue ["png"; "jpeg"; "webp"]%string InvalidFormat (argFormat args)
  ++ match argNegativePrompt args with
     | Some s => if Js.length s >? 1000 then [NegativePromptTooLong] else []
     | None => []
     end.

(** [.default(...)] of the schema. *)
Definition withDefaults (args : Args) : Args :=
  {| argPrompt := argPrompt args;
     argStyle := argStyle args;
     argWidth := argWidth args;
     argHeight := argHeight args;
     argQuality := Some match argQuality args with Some q => q | None => "standard"%string end;
     argCount := Some match argCount args with Some n => n | None => 1 end;
     argProvider := argProvider args;
     argFormat := Some match argFormat args with Some f => f | None => "png"%string end;
     argSeed := argSeed args;
     argNegativePrompt := argNegativePrompt args |}.

(** [GenerateImageArgsSchema.parse(args)]: the validated arguments, or the
    issues of the [ZodError] it throws. *)
Definition parse (args : Args) : list Issue + Args :=
  match issues args with
  | [] => inr (withDefaults args)
  | found => inl found
  end.

(** The request that the handler builds; [width && height] is truthy when
    both are given and neither is 0. *)
Definition toRequest (validatedArgs : Args) : ImageGenerationRequest :=
  {| prompt := argPrompt validatedArgs;
     style := argStyle validatedArgs;
     dimensions :=
       match argWidth validatedArgs, argHeight validatedArgs with
       | Some w, Some h =>
           if (w =? 0) || (h =? 0) then None else Some {| width := w; height := h |}
       | _, _ => None
       end;
     quality := argQuality validatedArgs;
     count := argCount validatedArgs;
     format := argFormat validatedArgs;
     transparent := false;
     negativePrompt := argNegativePrompt validatedArgs;
     seed := argSeed validatedArgs |}.

Record CacheStats := { hitRate : Q; entries : Z; diskUsage : string }.

Inductive ResponseData :=
| CachedResult (result : ImageGenerationResult)     (* [{ ...result, cached: true }] *)
| FreshResult (result : ImageGenerationResult)
              (sizes : list string)                 (* [formatFileSize(img.size)] per image *)
              (capabilities : FullProviderManager.Capabilities)
              (cacheStats : option CacheStats).

Record McpToolResponse := {
  responseSuccess : bool;
  responseData : option ResponseData;
  responseError : option string
}.

Definition failure (message : string) : McpToolResponse :=
  {| responseSuccess := false; responseData := None; responseError := Some message |}.

Section WithWorld.
Variable W : Type.

(** The cache that [getCache()] returns, as the handler uses it: [get] and
    [set] are awaited and may throw; the three statistics are read off the
    state. *)
Record Cache := {
  get : ImageGenerationRequest -> W -> Outcome (option ImageGenerationResult) * W;
  set : ImageGenerationRequest -> ImageGenerationResult -> W -> Outcome unit * W;
  stats : W -> CacheStats
}.

(** The wording of the issues: the two messages that the schema sets, and
    zod's own for the rest. *)
Variable zodMessage : Issue -> string.

Definition issueMessage (issue : Issue) : string :=
  match issue with
  | PromptRequired => "Prompt is required"
  | PromptTooLong => "Prompt must be less than 4000 characters"
  | other => zodMessage other
  end%string.

(** A call of the cache is recorded as an operation of "cache". *)
Definition cacheGet (cache : option Cache) (request : ImageGenerationRequest)
  : M W (option ImageGenerationResult) :=
  match cache with
  | None => ret None
  | Some c => fun w => let '(r, w') := get c request w in
                       (r, w', [EvOperation "cache" "get"])
  end.

Definition cacheSet (cache : option Cache) (request : ImageGenerationRequest)
           (result : ImageGenerationResult) : M W unit :=
  match cache with
  | None => ret tt
  | Some c => fun w => let '(r, w') := set c request result w in
                       (r, w', [EvOperation "cache" "set"])
  end.

Definition cacheStats (cache : option Cache) : M W (option CacheStats) :=
  fun w => (Returned match cache with Some c => Some (stats c w) | None => None end, w, []).

(** The body of the [try] after the arguments are parsed. *)
Definition respond (cache : option Cache) (manager : FullProviderManager.t W)
           (validatedArgs : Args) : M W McpToolResponse :=
  (available <- FullProviderManager.hasAvailableProviders manager ;;
   if negb available
   then ret (failure ("No image generation providers are currently available. "
                      ++ "Please check your configuration."))
   else
     let request := toRequest validatedArgs in
     cached <- cacheGet cache request ;;
     match cached with
     | Some result =>
         ret {| responseSuccess := true;
                responseData := Some (CachedResult result);
                responseError := None |}
     | None =>
         result <- ProviderManager.generateImage (FullProviderManager.cores manager)
                     request (argProvider validatedArgs) ;;
         if negb (success result)
         then ret (failure match error result with
                           | Some message =>
                               if String.eqb message "" then "Image generation failed"
                               else message
                           | None => "Image generation failed"
                           end)
         else
           (cacheSet cache request result ;;;
            capabilities <- FullProviderManager.getCapabilities manager ;;
            statistics <- cacheStats cache ;;
            ret {| responseSuccess := true;
                   responseData :=
                     Some (FreshResult result
                             (map (fun img => GenerateImageTool.formatFileSize (imgSize img))
                                  (images result))
                             capabilities statistics);
                   responseError := None |})
     end)%js%string.

(** The [catch] for a thrown value other than the [ZodError] of [parse]:
    such a value has no [errors], so that reading [error.errors.map] under
    the name "ZodError" is a [TypeError], which leaves the handler. *)
Definition recover (error : JsError) : M W McpToolResponse :=
  if String.eqb (errName error) "ZodError"
  then throw {| errName := "TypeError";
                errMessage := "Cannot read properties of undefined (reading 'map')";
                errProvider := None; errCode := None; errStatus := None;
                errDetails := None |}
  else ret (failure (if String.eqb (errMessage error) ""
                     then "Unexpected error occurred" else errMessage error))%string.

Definition handleGenerateImage (cache : option Cache) (manager : FullProviderManager.t W)
           (args : Args) : M W McpToolResponse :=
  match parse args with
  | inl found =>
      ret (failure ("Invalid arguments: "
                    ++ String.concat ", " (map issueMessage found))%string)
  | inr validatedArgs => tryCatch (respond cache manager validatedArgs) recover
  end.

End WithWorld.

End GenerateImageHandler.

(** The arguments that the schema lets through. *)
Definition validArguments (args : GenerateImageHandler.Args) : Prop :=
  1 <= Js.length (GenerateImageHandler.argPrompt args) <= 4000 /\
  (forall s, GenerateImageHandler.argStyle args = Some s ->
             In s GenerateImageHandler.styleNames) /\
  (forall n, GenerateImageHandler.argWidth args = Some n -> 64 <= n <= 2048) /\
  (forall n, GenerateImageHandler.argHeight args = Some n -> 64 <= n <= 2048) /\
  (forall q, GenerateImageHandler.argQuality args = Some q ->
             In q ["standard"; "hd"]%string) /\
  (forall n, GenerateImageHandler.argCount args = Some n -> 1 <= n <= 10) /\
  (forall p, GenerateImageHandler.argProvider args = Some p ->
             In p ["chatgpt"; "huggingface"]%string) /\
  (forall f, GenerateImageHandler.argFormat args = Some f ->
             In f ["png"; "jpeg"; "webp"]%string) /\
  (forall s, GenerateImageHandler.argNegativePrompt args = Some s ->
             Js.length s <= 1000).

(** ** A registry of full providers and arguments of the tool, used as test inputs *)

Module SampleTool.

Definition full (core : ImageProvider.t nat) (formats : list string) (maxCount : Z)
  : FullImageProvider.t nat :=
  {| FullImageProvider.core := core;
     FullImageProvider.describeImage := None;
     FullImageProvider.tagImage := None;
     FullImageProvider.getSupportedFormats := formats;
     FullImageProvider.getMaxImageCount := maxCount |}.

(** One provider is down, the other one works. *)
Definition manager : FullProviderManager.t nat :=
  [("chatgpt",
    full (SampleProviders.chatgpt false (Returned (SampleProviders.okResult "chatgpt")))
         ["png"] 1);
   ("huggingface",
    full (SampleProviders.huggingface true
            (Returned (SampleProviders.okResult "huggingface")))
         ["png"; "jpeg"; "webp"] 1)]%string.

Definition sketch : GenerateImageHandler.Args :=
  {| GenerateImageHandler.argPrompt := Js.codes "a red bicycle";
     GenerateImageHandler.argStyle := Some "sketch"%string;
     GenerateImageHandler.argWidth := Some 512;
     GenerateImageHandler.argHeight := None;
     GenerateImageHandler.argQuality := None;
     GenerateImageHandler.argCount := None;
     GenerateImageHandler.argProvider := None;
     GenerateImageHandler.argFormat := None;
     GenerateImageHandler.argSeed := None;
     GenerateImageHandler.argNegativePrompt := None |}.

End SampleTool.

(* ================================================================== *)
(** * providers/huggingFaceProvider.ts: makeImageTransparent *)
(* ================================================================== *)

Module HuggingFaceTransparency.

(** [pixels[i] ?? 0]: reading past the end gives [undefined]. *)
Definition read (pixels : list Z) (i : nat) : Z := nth i pixels 0.

(** [pixels[i] = v] on a typed array: a store past the end is ignored. *)
Fixpoint write (i : nat) (v : Z) (pixels : list Z) {struct pixels} : list Z :=
  match pixels with
  | [] => []
  | x :: rest =>
      match i with
      | O => v :: rest
      | S i' => x :: write i' v rest
      end
  end.

(** [brightness > 240 && Math.abs(r - g) < 10 && Math.abs(g - b) < 10] with
    [brightness = (r + g + b) / 3]; on bytes the quotient of the doubles
    compares with 240 as the rational number does. *)
Definition isBackground (r g b : Z) : bool :=
  BaseImageProvider.Qltb (inject_Z 240) (inject_Z (r + g + b) / inject_Z 3)%Q
  && (Z.abs (r - g) <? 10) && (Z.abs (g - b) <? 10).

(** [for (let i = ...; i < pixels.length; i += channels) { ... }], from
    index [i] on.  With [channels >= 1] the loop ends within
    [pixels.length] rounds, which is the fuel it is given below. *)
Fixpoint loop (fuel channels i : nat) (pixels : list Z) : list Z :=
  match fuel with
  | O => pixels
  | S fuel' =>
      if (i <? List.length pixels)%nat
      then
        let r := read pixels i in
        let g := read pixels (i + 1) in
        let b := read pixels (i + 2) in
        loop fuel' channels (i + channels)
             (if isBackground r g b then write (i + 3) 0 pixels else pixels)
      else pixels
  end.

(** The callback given to [.then]: the raw bytes after the loop. *)
Definition clearBackground (channels : nat) (pixels : list Z) : list Z :=
  loop (List.length pixels) channels 0 pixels.

End HuggingFaceTransparency.

(** ** Raw pixels, used as test inputs *)

Module SamplePixels.

(** Two RGBA pixels: a near-white one and a dark one, both opaque. *)
Definition whiteThenDark : list Z := [250; 250; 250; 255; 10; 20; 30; 255].

(** Two pixels of a bright greyscale image with alpha. *)
Definition greyAlpha : list Z := [250; 255; 250; 255].

End SamplePixels.

(* ================================================================== *)
(** * The ChatGPT provider behind the whole interface *)
(* ================================================================== *)

(** The optional methods as [BaseImageProvider] defines them; a subclass
    that does not override one inherits it. *)
Module InheritedMethods.

Definition describeImage {W} (this : BaseImageProvider.t)
  : string -> W -> Outcome ImageDescriptionResult.t * W :=
  fun _ w =>
    (Threw (BaseImageProvider.createError this "IMAGE_DESCRIPTION_NOT_SUPPORTED"
              "Image description not supported by this provider" None), w).

Definition tagImage {W} (this : BaseImageProvider.t)
  : string -> W -> Outcome ImageTaggingResult.t * W :=
  fun _ w =>
    (Threw (BaseImageProvider.createError this "IMAGE_TAGGING_NOT_SUPPORTED"
              "Image tagging not supported by this provider" None), w).

End InheritedMethods.

Module ChatGPTAdapter.

(** [ChatGPTProvider] overrides [describeImage], [getSupportedFormats] and
    [getMaxImageCount], and inherits [tagImage]. *)
Definition asFullProvider {W} (this : ChatGPTProvider.t W)
           (config : ChatGPTParams.ChatGPTConfig)
           (vision : string -> W -> ChatGPTOperations.Settled (option string) * W)
  : FullImageProvider.t W :=
  {| FullImageProvider.core := ChatGPTProvider.asImageProvider this;
     FullImageProvider.describeImage :=
       Some (fun imageUrl w =>
               fst (ChatGPTOperations.describeImage (ChatGPTProvider.base this)
                      (ChatGPTProvider.hasClient this) vision imageUrl w));
     FullImageProvider.tagImage :=
       Some (InheritedMethods.tagImage (ChatGPTProvider.base this));
     FullImageProvider.getSupportedFormats := ["png"%string];
     FullImageProvider.getMaxImageCount := ChatGPTParams.getMaxImageCount config |}.

End ChatGPTAdapter.

(** ** A registry that holds the ChatGPT provider alone *)

Module SampleRegistry.

Definition chatgpt : FullImageProvider.t nat :=
  ChatGPTAdapter.asFullProvider Sample.chatgpt
    {| ChatGPTParams.model := Some "dall-e-3"%string |}
    (fun _ w => (ChatGPTOperations.Hanging, w)).

Definition onlyChatGPT : FullProviderManager.t nat := [("chatgpt"%string, chatgpt)].

End SampleRegistry.

(* ================================================================== *)
(** * providers/huggingFaceProvider.ts: the adapter *)
(* ================================================================== *)

Module HuggingFaceProvider.

Section WithWorld.
Variable W : Type.

(** [hasClient] is [this.client !== null].  [backend] is the closure
    handed to [executeWithRetry]: the call of the inference API, the
    processing of the image and the mapping of the API's errors; it
    receives the styled prompt, the sanitized prompt and the request.
    [fetchModel] is the [fetch] of the model's page; what it returns is
    [modelInfo.ok]. *)
Record t := {
  base : BaseImageProvider.t;
  enabled : bool;                   (* [this.config.enabled] *)
  hasApiKey : bool;                 (* [this.config.apiKey] is truthy *)
  hasClient : bool;
  promptModifier : string -> option Js.jsstring;
  backend : Js.jsstring -> Js.jsstring -> ImageGenerationRequest
            -> BaseImageProvider.Operation W ImageGenerationResult;
  fetchModel : M W bool
}.

Definition isAvailable (this : t) : M W bool :=
  if negb (enabled this) || negb (hasApiKey this) || negb (hasClient this)
  then ret false
  else tryCatch (fetchModel this) (fun _ => ret false).

Definition generateImage (this : t) (request : ImageGenerationRequest)
  : M W ImageGenerationResult :=
  if negb (hasClient this)
  then throw (BaseImageProvider.createError (base this) "PROVIDER_NOT_CONFIGURED"
                "HuggingFace provider is not configured" None)
  else
    match BaseImageProvider.validateRequest (base this) request with
    | Threw e => throw e
    | Returned _ =>
        let sanitizedPrompt := BaseImageProvider.sanitizePrompt (prompt request) in
        let styledPrompt :=
          ChatGPTProvider.applyStyleToPrompt (promptModifier this) sanitizedPrompt
            (style request) in
        BaseImageProvider.executeWithRetry (base this)
          (backend this styledPrompt sanitizedPrompt request) "generate image"
    end.

Definition supportsFeature (feature : Feature) : bool :=
  match feature with
  | generation => true
  | description => true
  | tagging => true
  | transparency => true
  | logo => true
  end.

Definition asImageProvider (this : t) : ImageProvider.t W :=
  {| ImageProvider.name := BaseImageProvider.name (base this);
     ImageProvider.isAvailable := fun w => fst (isAvailable this w);
     ImageProvider.supportsFeature := supportsFeature;
     ImageProvider.generateImage := fun request w => fst (generateImage this request w) |}.

End WithWorld.

End HuggingFaceProvider.

(* ================================================================== *)
(** * providers/providerManager.ts: how the registry is filled *)
(* ================================================================== *)

Module ProviderRegistry.

Section WithWorld.
Variable W : Type.

(** The two adapters as their constructors build them from
    [this.config.providers]. *)
Record Adapters := {
  chatgpt : ChatGPTProvider.t W;
  huggingface : HuggingFaceProvider.t W
}.

(** [initializeProviders]: [loaded] is how [configManager.loadConfig()]
    and the constructors end; when one of them throws, the error is logged
    and the registry is left as it is, empty. *)
Definition initializeProviders (loaded : Outcome Adapters) : ProviderManager.t W :=
  match loaded with
  | Threw _ => []
  | Returned adapters =>
      (if ChatGPTProvider.enabled (chatgpt adapters)
       then [("chatgpt"%string, ChatGPTProvider.asImageProvider (chatgpt adapters))]
       else [])
      ++ (if HuggingFaceProvider.enabled (huggingface adapters)
          then [("huggingface"%string,
                 HuggingFaceProvider.asImageProvider (huggingface adapters))]
          else [])
  end.

(** A provider of one of the two classes that the registry is filled
    with. *)
Definition registered (p : ImageProvider.t W) : Prop :=
  (exists this, p = ChatGPTProvider.asImageProvider this) \/
  (exists this, p = HuggingFaceProvider.asImageProvider this).

End WithWorld.

End ProviderRegistry.

(** ** A registry of two adapters, used as test input; the world counts
    the calls of the backends *)

Module SampleAdapters.

Definition huggingfaceBase : BaseImageProvider.t :=
  BaseImageProvider.new "huggingface" None.

(** A configured HuggingFace adapter whose backend answers. *)
Definition huggingface : HuggingFaceProvider.t nat :=
  {| HuggingFaceProvider.base := huggingfaceBase;
     HuggingFaceProvider.enabled := true;
     HuggingFaceProvider.hasApiKey := true;
     HuggingFaceProvider.hasClient := true;
     HuggingFaceProvider.promptModifier := fun _ => None;
     HuggingFaceProvider.backend :=
       fun _ _ _ calls =>
         (BaseImageProvider.Resolves (SampleProviders.okResult "huggingface"), S calls);
     HuggingFaceProvider.fetchModel := ret true |}.

(** The registry of a configuration that enables both providers: the
    ChatGPT backend is rate limited, the HuggingFace one works. *)
Definition registry : ProviderManager.t nat :=
  ProviderRegistry.initializeProviders
    (Returned {| ProviderRegistry.chatgpt := Sample.chatgpt;
                 ProviderRegistry.huggingface := huggingface |}).

End SampleAdapters.

(** ** What can throw inside the [try] of the handler *)

(** [thrown] is what one of the awaited calls inside the [try] of
    [handleGenerateImage] throws: [cache.get] in the world that the probes
    of [hasAvailableProviders] leave, the manager's [generateImage], or
    [cache.set] of a successful result, in some later world. *)
Definition thrownWhileResponding {W} (cache : option (GenerateImageHandler.Cache W))
           (manager : FullProviderManager.t W) (args : GenerateImageHandler.Args)
           (w : W) (thrown : JsError) : Prop :=
  let request := GenerateImageHandler.toRequest (GenerateImageHandler.withDefaults args) in
  (exists c,
      cache = Some c /\
      fst (GenerateImageHandler.get c request
             (worldAfterProbes
                (map FullImageProvider.core (FullProviderManager.getProviders manager)) w))
      = Threw thrown) \/
  (exists w0,
      outcomeOf (ProviderManager.generateImage (FullProviderManager.cores manager)
                   request (GenerateImageHandler.argProvider args) w0)
      = Threw thrown) \/
  (exists c result w0,
      cache = Some c /\ success result = true /\
      fst (GenerateImageHandler.set c request result w0) = Threw thrown).

(* ================================================================== *)
(** * Properties of the retry wrapper *)
(* ================================================================== *)

Lemma invocations_app (t1 t2 : list Event) :
  invocations (t1 ++ t2) = (invocations t1 + invocations t2)%nat.
Proof.
  induction t1 as [|ev t1 IH]; simpl; [reflexivity|].
  destruct ev; simpl; rewrite IH; reflexivity.
Qed.

Lemma sleeps_app (t1 t2 : list Event) :
  sleeps (t1 ++ t2) = sleeps t1 ++ sleeps t2.
Proof.
  induction t1 as [|ev t1 IH]; simpl; [reflexivity|].
  destruct ev; simpl; rewrite IH; reflexivity.
Qed.

Section RetryFacts.
Variables W T : Type.
Variable this : BaseImageProvider.t.
Variable operation : BaseImageProvider.Operation W T.
Variable operationName : string.

Import BaseImageProvider.

Local Abbreviation started := (EvOperation (name this) operationName).

(** One iteration of the loop whose attempt resolves. *)
Lemma retryLoop_resolves remaining attempt lastError w v :
  fst (operation w) = Resolves v ->
  retryLoop this operation operationName (S remaining) attempt lastError w
  = (Returned v, snd (operation w), [started]).
Proof.
  intros Hop. simpl. unfold tryCatch, race.
  destruct (operation w) as [a w']. simpl in *. subst a. reflexivity.
Qed.

(** One iteration of the loop whose attempt fails with a client error:
    the error is thrown again at once. *)
Lemma retryLoop_client_error remaining attempt lastError w e :
  attemptError this operationName (fst (operation w)) = Some e ->
  isClientError e = true ->
  retryLoop this operation operationName (S remaining) attempt lastError w
  = (Threw e, snd (operation w), [started]).
Proof.
  intros Hop Hc. simpl. unfold tryCatch, race.
  destruct (operation w) as [a w']. simpl in *.
  destruct a as [v|e'|]; simpl in Hop; try discriminate;
    injection Hop as ->; rewrite Hc; reflexivity.
Qed.

(** One iteration of the loop whose attempt fails with any other error:
    sleep if attempts remain, then go round again. *)
Lemma retryLoop_other_error remaining attempt lastError w e :
  attemptError this operationName (fst (operation w)) = Some e ->
  isClientError e = false ->
  let next := retryLoop this operation operationName remaining (S attempt) (Some e)
                        (snd (operation w)) in
  retryLoop this operation operationName (S remaining) attempt lastError w
  = (outcomeOf next, worldOf next,
     started :: (if (attempt <? retryAttempts this)%nat
                 then [EvSleep (backoff this attempt)] else [])
             ++ eventsOf next).
Proof.
  intros Hop Hc next. subst next. simpl. unfold tryCatch, race.
  destruct (operation w) as [a w']. simpl in *.
  assert (Hgo : forall e0, e0 = e ->
     (let '(r, w2, t2) :=
        (if isClientError e0 then throw e0
         else bind (if (attempt <? retryAttempts this)%nat
                    then emit (EvSleep (backoff this attempt)) else ret tt)
                   (fun _ => retryLoop this operation operationName remaining
                                       (S attempt) (Some e0))) w'
      in (r, w2, [started] ++ t2))
     = (outcomeOf (retryLoop this operation operationName remaining (S attempt) (Some e) w'),
        worldOf (retryLoop this operation operationName remaining (S attempt) (Some e) w'),
        started :: (if (attempt <? retryAttempts this)%nat
                    then [EvSleep (backoff this attempt)] else [])
                ++ eventsOf (retryLoop this operation operationName remaining
                                       (S attempt) (Some e) w'))).
  { intros e0 ->. rewrite Hc. unfold bind, emit, ret, outcomeOf, worldOf, eventsOf.
    destruct (attempt <? retryAttempts this)%nat;
      destruct (retryLoop this operation operationName remaining (S attempt) (Some e) w')
        as [[r w2] t2]; reflexivity. }
  destruct a as [v|e'|]; simpl in Hop; try discriminate; injection Hop as Heq;
    apply Hgo; assumption.
Qed.

(** Every iteration starts the operation. *)
Lemma retryLoop_invokes remaining attempt lastError w :
  (1 <= invocations (eventsOf (retryLoop this operation operationName
                                         (S remaining) attempt lastError w)))%nat.
Proof.
  destruct (attemptError this operationName (fst (operation w))) as [e|] eqn:He.
  - destruct (isClientError e) eqn:Hc.
    + rewrite (retryLoop_client_error _ _ _ _ He Hc). simpl. lia.
    + rewrite (retryLoop_other_error _ _ _ _ He Hc). simpl. lia.
  - destruct (fst (operation w)) as [v| |] eqn:Ha; simpl in He; try discriminate.
    rewrite (retryLoop_resolves _ _ _ _ Ha). simpl. lia.
Qed.

End RetryFacts.

Lemma retryable_not_client_error (e : JsError) :
  retryableError e -> BaseImageProvider.isClientError e = false.
Proof.
  intros [Hst [code [Hcode Hr]]].
  unfold BaseImageProvider.isClientError, BaseImageProvider.is4xx,
    BaseImageProvider.hasNonRetryableCode.
  rewrite Hst, Hcode.
  unfold ImageGenerationError.isRetryableByCode, ImageGenerationError.retryableCodes in Hr.
  simpl in Hr.
  repeat (apply orb_prop in Hr; destruct Hr as [Hr|Hr]);
    try discriminate; apply String.eqb_eq in Hr; subst code; reflexivity.
Qed.

Lemma invalid_request_is_client_error (e : JsError) :
  errCode e = Some "INVALID_REQUEST"%string -> BaseImageProvider.isClientError e = true.
Proof.
  intros Hcode.
  unfold BaseImageProvider.isClientError, BaseImageProvider.hasNonRetryableCode.
  rewrite Hcode. destruct (BaseImageProvider.is4xx e); reflexivity.
Qed.

Section RetryExhaustion.
Variables W T : Type.
Variable this : BaseImageProvider.t.
Variable operation : BaseImageProvider.Operation W T.
Variable operationName : string.
Hypothesis always : alwaysFailsRetryably this operation operationName.

Import BaseImageProvider.

(** The loop run on an operation that keeps failing retryably: it goes
    through all the remaining iterations. *)
Lemma retryLoop_exhausts remaining : forall attempt lastError w,
  (attempt + remaining = S (retryAttempts this))%nat ->
  let run := retryLoop this operation operationName remaining attempt lastError w in
  invocations (eventsOf run) = remaining /\
  sleeps (eventsOf run) = map (backoff this) (seq attempt (remaining - 1)) /\
  worldOf run = worldAfter operation remaining w /\
  outcomeOf run
  = Threw (exhausted this operationName
             match remaining with
             | O => lastError
             | S n => attemptError this operationName
                        (fst (operation (worldAfter operation n w)))
             end).
Proof.
  induction remaining as [|remaining IH]; intros attempt lastError w Hsum run.
  - subst run. simpl. repeat split; reflexivity.
  - destruct (always w) as [e [He Hr]].
    pose proof (retryable_not_client_error Hr) as Hc.
    subst run. rewrite (retryLoop_other_error _ _ _ _ _ _ _ He Hc).
    unfold outcomeOf, worldOf, eventsOf. simpl fst. simpl snd.
    destruct (IH (S attempt) (Some e) (snd (operation w))) as [Hi [Hs [Hw Ho]]];
      [lia|].
    unfold outcomeOf, worldOf, eventsOf in Hi, Hs, Hw, Ho.
    repeat split.
    + simpl. rewrite invocations_app, Hi.
      destruct (attempt <? retryAttempts this)%nat; simpl; lia.
    + simpl. rewrite sleeps_app, Hs.
      destruct remaining as [|remaining'].
      * assert (Hlt : (attempt <? retryAttempts this)%nat = false)
          by (apply Nat.ltb_ge; lia).
        rewrite Hlt. reflexivity.
      * assert (Hlt : (attempt <? retryAttempts this)%nat = true)
          by (apply Nat.ltb_lt; lia).
        rewrite Hlt. simpl. rewrite Nat.sub_0_r. reflexivity.
    + simpl. exact Hw.
    + rewrite Ho. destruct remaining as [|remaining']; simpl.
      * rewrite He. reflexivity.
      * reflexivity.
Qed.

End RetryExhaustion.

Lemma existsb_eqb_In (c : string) (l : list string) :
  existsb (String.eqb c) l = true <-> In c l.
Proof.
  rewrite existsb_exists. split.
  - intros [x [Hin Heq]]. apply String.eqb_eq in Heq. subst. exact Hin.
  - intros Hin. exists c. split; [exact Hin | apply String.eqb_refl].
Qed.

Lemma isClientError_spec (e : JsError) :
  BaseImageProvider.isClientError e = true <-> clientError e.
Proof.
  unfold BaseImageProvider.isClientError, BaseImageProvider.is4xx,
    BaseImageProvider.hasNonRetryableCode, clientError.
  split.
  - destruct (errStatus e) as [s|] eqn:Hs.
    + destruct ((s >=? 400) && (s <? 500)) eqn:Hr.
      * intros _. left. exists s. split; [reflexivity|].
        apply andb_prop in Hr. destruct Hr as [H1 H2].
        apply Z.geb_le in H1. apply Z.ltb_lt in H2. lia.
      * destruct (errCode e) as [c|]; [|discriminate].
        intros H. right. exists c. split; [reflexivity|].
        apply existsb_eqb_In. exact H.
    + destruct (errCode e) as [c|]; [|discriminate].
      intros H. right. exists c. split; [reflexivity|].
      apply existsb_eqb_In. exact H.
  - intros [[s [Hs Hr]] | [c [Hc Hin]]].
    + rewrite Hs.
      assert (H : (s >=? 400) && (s <? 500) = true).
      { apply andb_true_intro. split; [apply Z.geb_le | apply Z.ltb_lt]; lia. }
      rewrite H. reflexivity.
    + rewrite Hc. apply existsb_eqb_In in Hin. rewrite Hin.
      destruct (errStatus e) as [s|]; [destruct ((s >=? 400) && (s <? 500))|];
        reflexivity.
Qed.

(** C1 (as amended).  In any iteration of the loop of [executeWithRetry],
    an attempt that fails with a client error (an HTTP 4xx response status,
    or one of the codes INVALID_REQUEST, AUTHENTICATION_FAILED,
    PERMISSION_DENIED, QUOTA_EXCEEDED, CONTENT_POLICY_VIOLATION) ends the
    call at once: the same error is thrown again and the operation is not
    started a second time.  An attempt that fails with any other error is
    followed by another attempt whenever an iteration is left.  The rule of
    [isClientError] is therefore the one retry policy the wrapper
    consults. *)
Theorem retry_policy_is_client_error
        (W T : Type) (this : BaseImageProvider.t)
        (operation : BaseImageProvider.Operation W T) (operationName : string)
        (remaining attempt : nat) (lastError : option JsError) (w : W) (e : JsError) :
  attemptError this operationName (fst (operation w)) = Some e ->
  let run := BaseImageProvider.retryLoop this operation operationName
               (S remaining) attempt lastError w in
  (clientError e ->
   run = (Threw e, snd (operation w),
          [EvOperation (BaseImageProvider.name this) operationName])) /\
  (~ clientError e -> (0 < remaining)%nat ->
   (2 <= invocations (eventsOf run))%nat).
Proof.
  intros He run. subst run. split.
  - intros Hc. apply isClientError_spec in Hc.
    apply retryLoop_client_error; assumption.
  - intros Hn Hrem.
    assert (Hc : BaseImageProvider.isClientError e = false).
    { destruct (BaseImageProvider.isClientError e) eqn:Hc; [|reflexivity].
      exfalso. apply Hn. apply isClientError_spec. exact Hc. }
    rewrite (retryLoop_other_error _ _ _ _ _ _ _ He Hc).
    unfold eventsOf at 1. simpl snd. simpl invocations.
    rewrite invocations_app.
    destruct remaining as [|remaining']; [lia|].
    pose proof (retryLoop_invokes this operation operationName remaining'
                  (S attempt) (Some e) (snd (operation w))) as Hinv.
    lia.
Qed.


(** C8.  An operation whose failure carries the code INVALID_REQUEST is
    started exactly once by [executeWithRetry]: the wrapper throws that very
    error again, without sleeping and without a second attempt. *)
Theorem executeWithRetry_invalid_request_once
        (W T : Type) (this : BaseImageProvider.t)
        (operation : BaseImageProvider.Operation W T) (operationName : string)
        (w : W) (e : JsError) :
  (0 < BaseImageProvider.retryAttempts this)%nat ->
  fst (operation w) = BaseImageProvider.Rejects e ->
  errCode e = Some "INVALID_REQUEST"%string ->
  let run := BaseImageProvider.executeWithRetry this operation operationName w in
  outcomeOf run = Threw e /\
  invocations (eventsOf run) = 1%nat /\
  sleeps (eventsOf run) = [].
Proof.
  intros Hpos Hop Hcode run. subst run.
  unfold BaseImageProvider.executeWithRetry.
  destruct (BaseImageProvider.retryAttempts this) as [|n] eqn:Hn; [lia|].
  assert (He : attemptError this operationName (fst (operation w)) = Some e)
    by (rewrite Hop; reflexivity).
  rewrite (retryLoop_client_error this operation operationName n 1 None w He
             (invalid_request_is_client_error e Hcode)).
  repeat split.
Qed.

Lemma retry_policy_is_client_error_witness :
  BaseImageProvider.retryLoop Sample.chatgptBase Sample.authenticationFailed
    "generate image" 3 1 None 0%nat
  = (Threw (BaseImageProvider.createError Sample.chatgptBase "AUTHENTICATION_FAILED"
              "Invalid API key" None),
     1%nat, [EvOperation "chatgpt" "generate image"]) /\
  (2 <= invocations (eventsOf (BaseImageProvider.retryLoop Sample.chatgptBase
                                 Sample.generationFailed "generate image" 3 1 None 0%nat)))%nat.
Proof.
  split.
  - apply (retry_policy_is_client_error Sample.chatgptBase Sample.authenticationFailed
             "generate image" 2 1 None 0%nat); [reflexivity|].
    right. exists "AUTHENTICATION_FAILED"%string. split; [reflexivity|].
    simpl. right. left. reflexivity.
  - apply (retry_policy_is_client_error Sample.chatgptBase Sample.generationFailed
             "generate image" 2 1 None 0%nat (e := BaseImageProvider.createError
                Sample.chatgptBase "GENERATION_FAILED" "Image generation failed: boom" None));
      [reflexivity | | apply Nat.lt_0_succ].
    intros [[status [Hs _]] | [code [Hc Hin]]].
    + discriminate Hs.
    + injection Hc as <-. simpl in Hin.
      repeat (destruct Hin as [Hin|Hin]; [discriminate Hin|]). exact Hin.
Defined.

(** C1, refuted as stated: GENERATION_FAILED is outside the retryable-by-code
    set and the error carries no HTTP status, yet the wrapper does not stop
    after the first attempt: the operation is started three times, with the
    two backoff sleeps in between. *)
Lemma retry_by_code_counterexample :
  ImageGenerationError.isRetryableByCode "GENERATION_FAILED" = false /\
  let run := BaseImageProvider.executeWithRetry Sample.chatgptBase
               Sample.generationFailed "generate image" 0%nat in
  invocations (eventsOf run) = 3%nat /\
  invocations (eventsOf run) <> 1%nat /\
  sleeps (eventsOf run) = [1000; 2000].
Proof.
  vm_compute. repeat split; discriminate.
Qed.


Lemma executeWithRetry_invalid_request_once_witness :
  let run := BaseImageProvider.executeWithRetry Sample.chatgptBase
               Sample.invalidRequest "generate image" 0%nat in
  outcomeOf run
  = Threw (BaseImageProvider.createError Sample.chatgptBase "INVALID_REQUEST"
             "Invalid request" None) /\
  invocations (eventsOf run) = 1%nat /\
  sleeps (eventsOf run) = [].
Proof.
  apply (executeWithRetry_invalid_request_once Sample.chatgptBase Sample.invalidRequest
           "generate image" 0%nat).
  - apply Nat.lt_0_succ.
  - reflexivity.
  - reflexivity.
Defined.

(* ================================================================== *)
(** * Properties of request validation *)
(* ================================================================== *)

Lemma Qltb_lt (x y : Q) : BaseImageProvider.Qltb x y = true <-> (x < y)%Q.
Proof.
  unfold BaseImageProvider.Qltb. rewrite Qlt_alt.
  destruct (x ?= y)%Q; split; intros H; try reflexivity; discriminate H.
Qed.

(** For a positive height the exact quotient compares as the integers do. *)
Lemma aspectRatio_below (d : ImageDimensions) :
  0 < height d ->
  (BaseImageProvider.Qltb (BaseImageProvider.aspectRatio d) (1 # 4) = true
   <-> 4 * width d < height d).
Proof.
  intros Hh. rewrite Qltb_lt. unfold BaseImageProvider.aspectRatio.
  destruct (height d) as [|p|p]; try lia.
  remember (4 * width d) as scaled eqn:Hscaled.
  unfold Qlt, Qdiv, Qmult, Qinv, inject_Z. simpl.
  rewrite ?Pos2Z.inj_mul. lia.
Qed.

Lemma aspectRatio_above (d : ImageDimensions) :
  0 < height d ->
  (BaseImageProvider.Qltb (4 # 1) (BaseImageProvider.aspectRatio d) = true
   <-> 4 * height d < width d).
Proof.
  intros Hh. rewrite Qltb_lt. unfold BaseImageProvider.aspectRatio.
  destruct (height d) as [|p|p]; try lia.
  remember (4 * Z.pos p) as scaled eqn:Hscaled.
  unfold Qlt, Qdiv, Qmult, Qinv, inject_Z. simpl.
  rewrite ?Pos2Z.inj_mul. lia.
Qed.

(** Whatever else the request holds, out-of-bounds dimensions make
    [validateRequest] throw INVALID_REQUEST. *)
Lemma validateRequest_bad_dimensions
      (this : BaseImageProvider.t) (request : ImageGenerationRequest)
      (d : ImageDimensions) :
  dimensions request = Some d ->
  dimensionsOutOfBounds d ->
  exists message,
    BaseImageProvider.validateRequest this request
    = Threw (BaseImageProvider.createError this "INVALID_REQUEST" message None).
Proof.
  intros Hd Hbad. unfold BaseImageProvider.validateRequest.
  destruct (_ || _); [eexists; reflexivity|].
  destruct (Js.length (prompt request) >? 4000); [eexists; reflexivity|].
  destruct (match count request with Some _ => _ | None => _ end);
    [eexists; reflexivity|].
  rewrite Hd.
  destruct ((width d <? 64) || (width d >? 2048) || (height d <? 64)
            || (height d >? 2048)) eqn:Hrange; [eexists; reflexivity|].
  apply orb_false_elim in Hrange. destruct Hrange as [Hrange H4].
  apply orb_false_elim in Hrange. destruct Hrange as [Hrange H3].
  apply orb_false_elim in Hrange. destruct Hrange as [H1 H2].
  apply Z.ltb_ge in H1, H3.
  rewrite Z.gtb_ltb in H2, H4. apply Z.ltb_ge in H2, H4.
  assert (Hh : 0 < height d) by lia.
  assert (Hratio : 4 * width d < height d \/ 4 * height d < width d)
    by (unfold dimensionsOutOfBounds in Hbad; lia).
  destruct Hratio as [Hr|Hr].
  - apply (aspectRatio_below d Hh) in Hr. rewrite Hr. eexists; reflexivity.
  - apply (aspectRatio_above d Hh) in Hr. rewrite Hr, orb_true_r.
    eexists; reflexivity.
Qed.

(** A count other than zero that lies outside [1, 10] is refused, unless
    the prompt is refused first; either way the code is INVALID_REQUEST. *)
Lemma validateRequest_count_out_of_range
      (this : BaseImageProvider.t) (request : ImageGenerationRequest) (n : Z) :
  count request = Some n ->
  n <> 0 ->
  n < 1 \/ 10 < n ->
  exists message,
    BaseImageProvider.validateRequest this request
    = Threw (BaseImageProvider.createError this "INVALID_REQUEST" message None).
Proof.
  intros Hc Hnz Hout. unfold BaseImageProvider.validateRequest.
  destruct (_ || _); [eexists; reflexivity|].
  destruct (Js.length (prompt request) >? 4000); [eexists; reflexivity|].
  rewrite Hc.
  assert (Hz : (n =? 0) = false) by (apply Z.eqb_neq; exact Hnz).
  assert (Hr : (n <? 1) || (n >? 10) = true).
  { apply orb_true_iff. rewrite Z.gtb_ltb. rewrite !Z.ltb_lt. exact Hout. }
  rewrite Hz, Hr. simpl. eexists; reflexivity.
Qed.

(** C7, the failing input.  A request with count 0 and an otherwise valid
    content passes [validateRequest]: the guard [request.count && ...]
    takes 0 for an absent count. *)
Theorem validateRequest_accepts_count_zero :
  BaseImageProvider.validateRequest Sample.chatgptBase (Sample.redBicycle (Some 0) None)
  = Returned tt.
Proof. vm_compute. reflexivity. Qed.

(** C6.  A configured adapter refuses a request whose dimensions are out of
    bounds with an INVALID_REQUEST error before anything is sent: the
    wrapped backend operation is not started, no event is emitted and the
    world is untouched. *)
Theorem generateImage_rejects_bad_dimensions
        (W : Type) (this : ChatGPTProvider.t W) (request : ImageGenerationRequest)
        (d : ImageDimensions) (w : W) :
  ChatGPTProvider.hasClient this = true ->
  dimensions request = Some d ->
  dimensionsOutOfBounds d ->
  let run := ChatGPTProvider.generateImage this request w in
  (exists e, outcomeOf run = Threw e /\ errCode e = Some "INVALID_REQUEST"%string) /\
  invocations (eventsOf run) = 0%nat /\
  eventsOf run = [] /\
  worldOf run = w.
Proof.
  intros Hclient Hd Hbad run. subst run.
  unfold ChatGPTProvider.generateImage. rewrite Hclient. simpl negb. cbv iota.
  destruct (validateRequest_bad_dimensions (ChatGPTProvider.base this) request Hd Hbad)
    as [message Hv].
  rewrite Hv. unfold throw, outcomeOf, worldOf, eventsOf. simpl.
  repeat split. eexists. split; reflexivity.
Qed.

(** The ChatGPT adapter keeps the probe contract: [isAvailable] catches
    whatever the connectivity test throws. *)
Lemma ChatGPTProvider_probe_never_throws (W : Type) (this : ChatGPTProvider.t W) :
  probeNeverThrows (ChatGPTProvider.asImageProvider this).
Proof.
  intros w. simpl. unfold ChatGPTProvider.isAvailable.
  destruct (negb (ChatGPTProvider.enabled this) || negb (ChatGPTProvider.hasApiKey this)
            || negb (ChatGPTProvider.hasClient this)).
  - exists false. reflexivity.
  - unfold tryCatch, bind, ret.
    destruct (ChatGPTProvider.listModels this w) as [[[[]|e] w1] t1].
    + exists true. reflexivity.
    + exists false. reflexivity.
Qed.

(** An adapter that reports itself available is configured. *)
Lemma ChatGPTProvider_available_configured (W : Type) (this : ChatGPTProvider.t W) (w : W) :
  outcomeOf (ChatGPTProvider.isAvailable this w) = Returned true ->
  ChatGPTProvider.hasClient this = true.
Proof.
  unfold ChatGPTProvider.isAvailable.
  destruct (ChatGPTProvider.hasClient this); [reflexivity|].
  rewrite !orb_true_r. simpl. discriminate.
Qed.

Lemma generateImage_rejects_bad_dimensions_witness :
  let request := Sample.redBicycle (Some 1) (Some {| width := 4000; height := 512 |}) in
  let run := ChatGPTProvider.generateImage Sample.chatgpt request 0%nat in
  (exists e, outcomeOf run = Threw e /\ errCode e = Some "INVALID_REQUEST"%string) /\
  invocations (eventsOf run) = 0%nat /\
  eventsOf run = [] /\
  worldOf run = 0%nat.
Proof.
  apply (generateImage_rejects_bad_dimensions Sample.chatgpt
           (Sample.redBicycle (Some 1) (Some {| width := 4000; height := 512 |}))
           (d := {| width := 4000; height := 512 |}) 0%nat).
  - reflexivity.
  - reflexivity.
  - right. left. reflexivity.
Defined.

(* ================================================================== *)
(** * Properties of the provider manager *)
(* ================================================================== *)

Lemma generateCalls_app (t1 t2 : list Event) :
  generateCalls (t1 ++ t2) = generateCalls t1 ++ generateCalls t2.
Proof.
  induction t1 as [|ev t1 IH]; simpl; [reflexivity|].
  destruct ev; simpl; rewrite IH; reflexivity.
Qed.

Lemma find_firstSuchThat {A} (f : A -> bool) (l : list A) (x : A) :
  find f l = Some x -> firstSuchThat (fun y => f y = true) l x.
Proof.
  induction l as [|a l IH]; simpl; [discriminate|].
  destruct (f a) eqn:Hfa.
  - intros [= <-]. exists [], l. repeat split; [exact Hfa|]. intros y [].
  - intros Hfind. destruct (IH Hfind) as [before [after [Hl [Hx Hbefore]]]].
    exists (a :: before), after. subst l. repeat split; [exact Hx|].
    intros y [<-|Hy]; [congruence | apply Hbefore; exact Hy].
Qed.

Section ManagerFacts.
Variable W : Type.
Local Abbreviation Provider := (ImageProvider.t W).

Import ProviderManager.

(** The probe pass never throws; it returns the providers that answered
    [true], in registry order, and emits one probe event per provider. *)
Lemma probeAll_reports (providers : list Provider) : forall w,
  probeAll providers w
  = (Returned (reportedAvailable (probeReports providers w)),
     worldAfterProbes providers w,
     probeEvents (probeReports providers w)).
Proof.
  induction providers as [|p rest IH]; intros w; [reflexivity|].
  simpl probeAll. unfold bind, tryCatch, probe, ret.
  simpl probeReports. simpl worldAfterProbes.
  destruct (ImageProvider.isAvailable p w) as [r w1]. simpl fst. simpl snd.
  destruct r as [[|]|e]; rewrite IH; simpl; rewrite app_nil_r; reflexivity.
Qed.

Lemma getAvailableProviders_reports (this : ProviderManager.t W) (w : W) :
  getAvailableProviders this w
  = (Returned (reportedAvailable (probeReports (getProviders this) w)),
     worldAfterProbes (getProviders this) w,
     probeEvents (probeReports (getProviders this) w)).
Proof. apply probeAll_reports. Qed.

Lemma generateCalls_probeEvents (reports : list (Provider * Outcome bool)) :
  generateCalls (probeEvents reports) = [].
Proof. induction reports as [|r reports IH]; simpl; [reflexivity | exact IH]. Qed.

Lemma reportedAvailable_In (reports : list (Provider * Outcome bool)) (p : Provider) :
  In p (reportedAvailable reports) -> In (p, Returned true) reports.
Proof.
  unfold reportedAvailable. rewrite in_map_iff.
  intros [[q r] [Hq Hin]]. simpl in Hq. subst q.
  apply filter_In in Hin. destruct Hin as [Hin Hsaid].
  unfold saidAvailable in Hsaid. simpl in Hsaid.
  destruct r as [[|]|e]; try discriminate. exact Hin.
Qed.

Lemma probeReports_providers (providers : list Provider) : forall w,
  map fst (probeReports providers w) = providers.
Proof.
  induction providers as [|p rest IH]; intros w; simpl; [reflexivity|].
  rewrite IH. reflexivity.
Qed.

Lemma pickByPriority_some (order : list string) (candidates : list Provider)
      (p : Provider) :
  pickByPriority order candidates = Some p ->
  pickedByPriority order candidates p.
Proof.
  induction order as [|n order IH]; simpl; [discriminate|].
  destruct (find (fun q => (ImageProvider.name q =? n)%string) candidates)
    as [q|] eqn:Hfind.
  - intros [= <-].
    pose proof (find_some _ _ Hfind) as [_ Hname]. apply String.eqb_eq in Hname.
    split.
    + exists [], order. rewrite Hname. split; [reflexivity|]. intros n' [].
    + apply find_firstSuchThat in Hfind.
      destruct Hfind as [before [after [Hl [Hq Hbefore]]]].
      exists before, after. split; [exact Hl|]. split; [reflexivity|].
      intros y Hy Heq. apply (Hbefore y Hy).
      apply String.eqb_eq. congruence.
  - intros Hpick. destruct (IH Hpick) as [[before [after [Horder Hun]]] Hfirst].
    split; [|exact Hfirst].
    exists (n :: before), after. split; [simpl; congruence|].
    intros n' [<-|Hn'].
    + intros q Hq Heq.
      pose proof (find_none _ _ Hfind q Hq) as Hne. simpl in Hne.
      apply String.eqb_neq in Hne. contradiction.
    + apply Hun. exact Hn'.
Qed.

Lemma pickByPriority_none (order : list string) (candidates : list Provider) :
  pickByPriority order candidates = None ->
  forall n, In n order -> unmatched candidates n.
Proof.
  induction order as [|n order IH]; simpl; [intros _ n' []|].
  destruct (find (fun q => (ImageProvider.name q =? n)%string) candidates)
    as [q|] eqn:Hfind; [discriminate|].
  intros Hpick n' [<-|Hn'].
  - intros q Hq Heq. pose proof (find_none _ _ Hfind q Hq) as Hne. simpl in Hne.
    apply String.eqb_neq in Hne. contradiction.
  - apply IH; assumption.
Qed.

End ManagerFacts.

Section ManagerSelection.
Variable W : Type.
Local Abbreviation Provider := (ImageProvider.t W).

Import ProviderManager.

Lemma In_reportedAvailable (reports : list (Provider * Outcome bool)) (p : Provider) :
  In (p, Returned true) reports -> In p (reportedAvailable reports).
Proof.
  intros Hin. unfold reportedAvailable. apply in_map_iff.
  exists (p, Returned true). split; [reflexivity|].
  apply filter_In. split; [exact Hin | reflexivity].
Qed.

Lemma getBestProvider_reports (this : ProviderManager.t W) (feature : Feature) (w : W) :
  getBestProvider this feature w
  = (Returned (chooseBest feature (reportedAvailable (probeReports (getProviders this) w))),
     worldAfterProbes (getProviders this) w,
     probeEvents (probeReports (getProviders this) w)).
Proof.
  unfold getBestProvider, bind. rewrite getAvailableProviders_reports.
  unfold ret. rewrite app_nil_r. reflexivity.
Qed.

Lemma getFallbackProvider_reports (this : ProviderManager.t W) (failed : string)
      (feature : Feature) (w : W) :
  getFallbackProvider this failed feature w
  = (Returned (find (fun p => negb (String.eqb (ImageProvider.name p) failed)
                              && ImageProvider.supportsFeature p feature)
                    (reportedAvailable (probeReports (getProviders this) w))),
     worldAfterProbes (getProviders this) w,
     probeEvents (probeReports (getProviders this) w)).
Proof.
  unfold getFallbackProvider, bind. rewrite getAvailableProviders_reports.
  unfold ret. rewrite app_nil_r. reflexivity.
Qed.

(** C5.  [getBestProvider feature] never throws.  A provider it returns
    answered [true] to the probe made during this very call and supports
    the feature; it is the one picked by the priority table of the feature
    among the available providers that support it or, when no name of the
    table is borne by any of them, the first of them in registry order.  It
    returns null exactly when no provider that answered [true] supports the
    feature. *)
Theorem getBestProvider_spec (this : ProviderManager.t W) (feature : Feature) (w : W) :
  let reports := probeReports (getProviders this) w in
  let candidates := filter (fun p => ImageProvider.supportsFeature p feature)
                           (reportedAvailable reports) in
  exists best w' t,
    getBestProvider this feature w = (Returned best, w', t) /\
    match best with
    | Some p =>
        In (p, Returned true) reports /\
        ImageProvider.supportsFeature p feature = true /\
        (pickedByPriority (priorityOrder feature) candidates p \/
         ((forall n, In n (priorityOrder feature) -> unmatched candidates n) /\
          hd_error candidates = Some p))
    | None =>
        forall p, In (p, Returned true) reports ->
                  ImageProvider.supportsFeature p feature = false
    end.
Proof.
  intros reports candidates.
  rewrite getBestProvider_reports. fold reports.
  eexists. eexists. eexists. split; [reflexivity|].
  unfold chooseBest. fold candidates.
  assert (Hcand : forall p, In p candidates ->
            In (p, Returned true) reports /\
            ImageProvider.supportsFeature p feature = true).
  { intros p Hp. apply filter_In in Hp. destruct Hp as [Hp Hs].
    split; [apply reportedAvailable_In; exact Hp | exact Hs]. }
  destruct candidates as [|first others] eqn:Hc.
  - intros p Hp.
    destruct (ImageProvider.supportsFeature p feature) eqn:Hs; [|reflexivity].
    exfalso.
    assert (Hin : In p candidates).
    { apply filter_In. split; [apply In_reportedAvailable; exact Hp | exact Hs]. }
    rewrite Hc in Hin. exact Hin.
  - destruct (pickByPriority (priorityOrder feature) (first :: others)) as [p|] eqn:Hpick.
    + pose proof (pickByPriority_some _ _ Hpick) as Hpicked.
      assert (Hin : In p (first :: others)).
      { destruct Hpicked as [_ [before [after [Hl _]]]]. rewrite Hl.
        apply in_or_app. right. left. reflexivity. }
      destruct (Hcand p Hin) as [Ha Hs].
      split; [exact Ha|]. split; [exact Hs|]. left. exact Hpicked.
    + destruct (Hcand first (or_introl eq_refl)) as [Ha Hs].
      split; [exact Ha|]. split; [exact Hs|]. right.
      split; [apply pickByPriority_none; exact Hpick | reflexivity].
Qed.

End ManagerSelection.

(** One provider unavailable, one available: the available one is used. *)
Example getBestProvider_skips_unavailable :
  exists p w t,
    ProviderManager.getBestProvider SampleProviders.chatgptUnavailable generation 0%nat
    = (Returned (Some p), w, t) /\
    ImageProvider.name p = "huggingface"%string /\
    t = [EvProbe "chatgpt" (Returned false); EvProbe "huggingface" (Returned true)].
Proof. do 3 eexists. repeat split. Qed.

(** The HuggingFace adapter keeps the probe contract as well: [isAvailable]
    catches whatever the [fetch] throws. *)
Lemma HuggingFaceProvider_probe_never_throws (W : Type) (this : HuggingFaceProvider.t W) :
  probeNeverThrows (HuggingFaceProvider.asImageProvider this).
Proof.
  intros w. simpl. unfold HuggingFaceProvider.isAvailable.
  destruct (negb (HuggingFaceProvider.enabled this)
            || negb (HuggingFaceProvider.hasApiKey this)
            || negb (HuggingFaceProvider.hasClient this)).
  - exists false. reflexivity.
  - unfold tryCatch, ret.
    destruct (HuggingFaceProvider.fetchModel this w) as [[[ok|e] w1] t1].
    + exists ok. reflexivity.
    + exists false. reflexivity.
Qed.

(** ** What holds of every provider the registry can hold *)

Lemma registered_probeNeverThrows (W : Type) (p : ImageProvider.t W) :
  ProviderRegistry.registered p -> probeNeverThrows p.
Proof.
  intros [[this ->]|[this ->]].
  - apply ChatGPTProvider_probe_never_throws.
  - apply HuggingFaceProvider_probe_never_throws.
Qed.

(** Both classes support generation and logo, so a registered provider
    supports the capability of every request. *)
Lemma registered_supports_generation (W : Type) (p : ImageProvider.t W) :
  ProviderRegistry.registered p -> ImageProvider.supportsFeature p generation = true.
Proof. intros [[this ->]|[this ->]]; reflexivity. Qed.

Lemma registered_supports_capability (W : Type) (p : ImageProvider.t W)
      (request : ImageGenerationRequest) :
  ProviderRegistry.registered p ->
  ImageProvider.supportsFeature p (ProviderManager.featureOf request) = true.
Proof.
  unfold ProviderManager.featureOf.
  intros [[this ->]|[this ->]]; destruct (transparent request); reflexivity.
Qed.

(** The registry as [initializeProviders] fills it holds providers of the
    two classes only. *)
Lemma initializeProviders_registered (W : Type)
      (loaded : Outcome (ProviderRegistry.Adapters W)) (p : ImageProvider.t W) :
  In p (ProviderManager.getProviders (ProviderRegistry.initializeProviders loaded)) ->
  ProviderRegistry.registered p.
Proof.
  unfold ProviderManager.getProviders, ProviderRegistry.initializeProviders.
  destruct loaded as [adapters|e]; [|intros []].
  rewrite map_app, in_app_iff.
  destruct (ChatGPTProvider.enabled (ProviderRegistry.chatgpt adapters));
    destruct (HuggingFaceProvider.enabled (ProviderRegistry.huggingface adapters));
    simpl; intros H; repeat destruct H as [H|H]; try contradiction; subst p.
  all: first [ left; eexists; reflexivity | right; eexists; reflexivity ].
Qed.

(** Among registered providers the fallback rule, which the code writes
    with generation, picks the same provider as the rule written with the
    capability of the request. *)
Lemma fallback_by_capability (W : Type) (request : ImageGenerationRequest)
      (failed : string) (available : list (ImageProvider.t W)) :
  (forall q, In q available -> ProviderRegistry.registered q) ->
  find (fun p => negb (String.eqb (ImageProvider.name p) failed)
                 && ImageProvider.supportsFeature p generation) available
  = find (fun p => negb (String.eqb (ImageProvider.name p) failed)
                   && ImageProvider.supportsFeature p (ProviderManager.featureOf request))
         available.
Proof.
  induction available as [|q rest IH]; intros Hreg; [reflexivity|].
  simpl.
  rewrite (registered_supports_generation (Hreg q (or_introl eq_refl))).
  rewrite (registered_supports_capability request (Hreg q (or_introl eq_refl))).
  rewrite IH; [reflexivity|]. intros y Hy. apply Hreg. right. exact Hy.
Qed.

Section ManagerPreferred.
Variable W : Type.
Local Abbreviation Provider := (ImageProvider.t W).

Import ProviderManager.

Lemma selectProvider_none (this : ProviderManager.t W)
      (request : ImageGenerationRequest) (w : W) :
  selectProvider this request None w = getBestProvider this (featureOf request) w.
Proof.
  unfold selectProvider, selectPreferred, bind, ret.
  destruct (getBestProvider this (featureOf request) w) as [[r w'] t]. reflexivity.
Qed.

(** What [generateImage] does once a provider is selected. *)
Lemma generateImage_selected (this : ProviderManager.t W)
      (request : ImageGenerationRequest) (preferred : option string)
      (w w1 : W) (t1 : list Event) (p : Provider) :
  selectProvider this request preferred w = (Returned (Some p), w1, t1) ->
  exists rest,
    generateCalls (eventsOf (generateImage this request preferred w))
    = generateCalls t1
      ++ (ImageProvider.name p,
          returned (fst (ImageProvider.generateImage p request w1))) :: rest.
Proof.
  intros Hsel. unfold generateImage, bind. rewrite Hsel.
  unfold generateWith, tryCatch, invoke.
  destruct (ImageProvider.generateImage p request w1) as [[r|e] w2]; simpl fst.
  - eexists. unfold eventsOf. simpl snd. rewrite generateCalls_app. reflexivity.
  - destruct (tryFallback this request p e w2) as [[r3 w3] t3].
    eexists. unfold eventsOf. simpl snd.
    rewrite generateCalls_app. reflexivity.
Qed.

Lemma getProvider_In (this : ProviderManager.t W) (n : string) (p : Provider) :
  getProvider this n = Some p -> In p (getProviders this).
Proof.
  unfold getProvider, getProviders.
  destruct (find (fun kv => (fst kv =? n)%string) this) as [kv|] eqn:Hfind;
    [|discriminate].
  intros [= <-]. apply in_map. apply (find_some _ _ Hfind).
Qed.

(** C4.  The registry holds providers of the two classes that
    [initializeProviders] registers.  A call of [generateImage] that names
    a preferred provider then selects that provider, and invokes it first,
    only when it is registered under the name and answers [true] to the
    probe, and such a provider supports the capability of the request
    (logo for a transparent request, generation otherwise).  In every
    other case, no provider under that name or the answer [false], the
    selection is the priority-based choice for the capability of the
    request, and the call goes on as a call without preference; the probe
    does not throw. *)
Theorem generateImage_preferred (this : ProviderManager.t W)
        (request : ImageGenerationRequest) (providerName : string) (w : W) :
  providerName <> ""%string ->
  (forall p, In p (getProviders this) -> ProviderRegistry.registered p) ->
  match getProvider this providerName with
  | Some p =>
      let w1 := snd (ImageProvider.isAvailable p w) in
      match fst (ImageProvider.isAvailable p w) with
      | Returned true =>
          ImageProvider.supportsFeature p (featureOf request) = true /\
          selectProvider this request (Some providerName) w
          = (Returned (Some p), w1, [EvProbe (ImageProvider.name p) (Returned true)]) /\
          exists rest,
            generateCalls (eventsOf (generateImage this request (Some providerName) w))
            = (ImageProvider.name p,
               returned (fst (ImageProvider.generateImage p request w1))) :: rest
      | Returned false =>
          selectProvider this request (Some providerName) w
          = after [EvProbe (ImageProvider.name p) (Returned false)]
                  (getBestProvider this (featureOf request) w1) /\
          generateImage this request (Some providerName) w
          = after [EvProbe (ImageProvider.name p) (Returned false)]
                  (generateImage this request None w1)
      | Threw _ => False
      end
  | None =>
      selectProvider this request (Some providerName) w
      = getBestProvider this (featureOf request) w /\
      generateImage this request (Some providerName) w
      = generateImage this request None w
  end /\
  (forall w0, selectProvider this request None w0
              = getBestProvider this (featureOf request) w0).
Proof.
  intros Hname Hregistered. split; [|intros w0; apply selectProvider_none].
  assert (Hne : String.eqb providerName "" = false)
    by (apply String.eqb_neq; exact Hname).
  destruct (getProvider this providerName) as [p|] eqn:Hget.
  - pose proof (Hregistered p (getProvider_In _ _ Hget)) as Hp.
    destruct (registered_probeNeverThrows Hp w) as [answer Hanswer].
    destruct (ImageProvider.isAvailable p w) as [r w1] eqn:Hprobe.
    simpl in Hanswer. subst r. simpl fst; simpl snd; cbv zeta.
    destruct answer.
    + assert (Hsel : selectProvider this request (Some providerName) w
                     = (Returned (Some p), w1,
                        [EvProbe (ImageProvider.name p) (Returned true)])).
      { unfold selectProvider, selectPreferred. rewrite Hne, Hget.
        unfold bind, probe, ret. rewrite Hprobe. reflexivity. }
      split; [exact (registered_supports_capability request Hp)|].
      split; [exact Hsel|].
      apply generateImage_selected in Hsel. destruct Hsel as [rest Hrest].
      exists rest. rewrite Hrest. reflexivity.
    + split.
      * unfold after, selectProvider, selectPreferred. rewrite Hne, Hget.
        unfold bind, probe, ret. rewrite Hprobe.
        destruct (getBestProvider this (featureOf request) w1) as [[[sel|e] w2] t2];
          reflexivity.
      * unfold after, generateImage, bind. rewrite selectProvider_none.
        unfold selectProvider, selectPreferred. rewrite Hne, Hget.
        unfold bind, probe, ret. rewrite Hprobe.
        destruct (getBestProvider this (featureOf request) w1) as [[[sel|e] w2] t2].
        -- destruct (generateWith this request sel w2) as [[r3 w3] t3]. reflexivity.
        -- reflexivity.
  - split.
    + unfold selectProvider, selectPreferred. rewrite Hne, Hget.
      unfold bind, ret.
      destruct (getBestProvider this (featureOf request) w) as [[r1 w1] t1].
      reflexivity.
    + unfold generateImage, selectProvider, selectPreferred.
      rewrite Hne, Hget. reflexivity.
Qed.

End ManagerPreferred.

Lemma generateImage_preferred_witness :
  (ImageProvider.supportsFeature
     (HuggingFaceProvider.asImageProvider SampleAdapters.huggingface) logo = true /\
   ProviderManager.selectProvider SampleAdapters.registry SampleProviders.logoRequest
     (Some "huggingface"%string) 0%nat
   = (Returned (Some (HuggingFaceProvider.asImageProvider SampleAdapters.huggingface)),
      0%nat, [EvProbe "huggingface" (Returned true)]) /\
   exists rest,
     generateCalls (eventsOf (ProviderManager.generateImage SampleAdapters.registry
                                SampleProviders.logoRequest (Some "huggingface"%string)
                                0%nat))
     = ("huggingface"%string, true) :: rest) /\
  (forall w0,
      ProviderManager.selectProvider SampleAdapters.registry SampleProviders.logoRequest
        None w0
      = ProviderManager.getBestProvider SampleAdapters.registry logo w0).
Proof.
  apply (@generateImage_preferred nat SampleAdapters.registry SampleProviders.logoRequest
           "huggingface"%string 0%nat).
  - discriminate.
  - intros p. apply initializeProviders_registered.
Defined.

(** The assumption on the registry is used: a provider of another kind
    that answers the probe with [true] but lacks logo would be invoked for
    a transparent request all the same, although the priority-based choice
    for logo is another provider. *)
Example preferred_outside_the_registry :
  ProviderManager.featureOf SampleProviders.logoRequest = logo /\
  ImageProvider.supportsFeature SampleProviders.jpegOnly logo = false /\
  generateCalls (eventsOf (ProviderManager.generateImage SampleProviders.withJpegOnly
                             SampleProviders.logoRequest (Some "jpegonly"%string) 0%nat))
  = [("jpegonly"%string, true)] /\
  (exists p w t,
      ProviderManager.getBestProvider SampleProviders.withJpegOnly logo 0%nat
      = (Returned (Some p), w, t) /\ ImageProvider.name p = "chatgpt"%string).
Proof.
  repeat split.
  eexists. eexists. eexists. split; reflexivity.
Qed.

Lemma failedResult_describesFailure (W : Type) (p : ImageProvider.t W) (e : JsError) :
  describesFailure (ProviderManager.failedResult p e).
Proof.
  split; [reflexivity|]. unfold ProviderManager.failedResult. simpl.
  destruct (String.eqb (errMessage e) "") eqn:He.
  - eexists. split; [reflexivity | discriminate].
  - eexists. split; [reflexivity|]. apply String.eqb_neq. exact He.
Qed.

Lemma noProviderResult_describesFailure :
  describesFailure ProviderManager.noProviderResult.
Proof.
  split; [reflexivity|]. eexists. split; [reflexivity | discriminate].
Qed.

Section ManagerFallback.
Variable W : Type.
Local Abbreviation Provider := (ImageProvider.t W).

Import ProviderManager.

(** Only providers of the registry are reported available. *)
Lemma reportedAvailable_registered (providers : list Provider) (w : W) (p : Provider) :
  In p (reportedAvailable (probeReports providers w)) -> In p providers.
Proof.
  intros Hin. apply reportedAvailable_In in Hin.
  rewrite <- (probeReports_providers providers w).
  apply in_map_iff. exists (p, Returned true). split; [reflexivity | exact Hin].
Qed.

(** Under the adapter contract the selection never throws, and it calls no
    provider's [generateImage]. *)
Lemma selectProvider_returns (this : ProviderManager.t W)
      (request : ImageGenerationRequest) (preferred : option string) (w : W) :
  (forall p, In p (getProviders this) -> probeNeverThrows p) ->
  exists selected w1 t1,
    selectProvider this request preferred w = (Returned selected, w1, t1) /\
    generateCalls t1 = [].
Proof.
  intros Hcontract.
  assert (Hbest : forall w0, exists selected w1 t1,
            getBestProvider this (featureOf request) w0 = (Returned selected, w1, t1) /\
            generateCalls t1 = []).
  { intros w0. rewrite getBestProvider_reports.
    eexists. eexists. eexists. split; [reflexivity|]. apply generateCalls_probeEvents. }
  unfold selectProvider, selectPreferred.
  destruct preferred as [n|].
  - destruct (String.eqb n "").
    + unfold bind, ret. destruct (Hbest w) as [sel [w1 [t1 [H Hg]]]].
      rewrite H. eexists. eexists. eexists. split; [reflexivity | exact Hg].
    + destruct (getProvider this n) as [p|] eqn:Hget.
      * destruct (Hcontract p (getProvider_In _ _ Hget) w) as [answer Hanswer].
        unfold bind, probe, ret.
        destruct (ImageProvider.isAvailable p w) as [r w0]. simpl in Hanswer. subst r.
        destruct answer.
        -- eexists. eexists. eexists. split; reflexivity.
        -- destruct (Hbest w0) as [sel [w1 [t1 [H Hg]]]]. rewrite H.
           eexists. eexists. eexists. split; [reflexivity|]. simpl. exact Hg.
      * unfold bind, ret. destruct (Hbest w) as [sel [w1 [t1 [H Hg]]]].
        rewrite H. eexists. eexists. eexists. split; [reflexivity | exact Hg].
  - unfold bind, ret. destruct (Hbest w) as [sel [w1 [t1 [H Hg]]]].
    rewrite H. eexists. eexists. eexists. split; [reflexivity | exact Hg].
Qed.

(** C3.  The registry holds providers of the two classes that
    [initializeProviders] registers.  [generateImage] of the manager then
    never throws.  When no provider can be selected it returns a failed
    result that says so.  When the selected provider throws, the providers
    are probed again and the first of those answering [true] whose name
    differs from the failed one's and that supports the capability of the
    request (logo for a transparent request, generation otherwise) is
    tried, once; if there is none, or if it throws as well, the result is
    a failed result that carries the primary provider's name and a
    non-empty error text.  No other provider is called. *)
Theorem generateImage_never_throws_one_fallback
        (this : ProviderManager.t W) (request : ImageGenerationRequest)
        (preferred : option string) (w : W) :
  (forall p, In p (getProviders this) -> ProviderRegistry.registered p) ->
  exists result w' t selected w1 t1,
    generateImage this request preferred w = (Returned result, w', t) /\
    selectProvider this request preferred w = (Returned selected, w1, t1) /\
    match selected with
    | None =>
        generateCalls t = [] /\ result = noProviderResult /\ describesFailure result
    | Some p =>
        match ImageProvider.generateImage p request w1 with
        | (Returned r, _) =>
            generateCalls t = [(ImageProvider.name p, true)] /\ result = r
        | (Threw e, w2) =>
            let available := reportedAvailable (probeReports (getProviders this) w2) in
            let eligible q := ImageProvider.name q <> ImageProvider.name p /\
                              ImageProvider.supportsFeature q (featureOf request) = true in
            ((forall q, In q available -> ~ eligible q) /\
             generateCalls t = [(ImageProvider.name p, false)] /\
             describesFailure result /\ provider result = ImageProvider.name p)
            \/
            (exists q,
                firstSuchThat eligible available q /\
                match ImageProvider.generateImage q request
                        (worldAfterProbes (getProviders this) w2) with
                | (Returned r, _) =>
                    generateCalls t = [(ImageProvider.name p, false);
                                       (ImageProvider.name q, true)] /\
                    result = r
                | (Threw _, _) =>
                    generateCalls t = [(ImageProvider.name p, false);
                                       (ImageProvider.name q, false)] /\
                    describesFailure result /\ provider result = ImageProvider.name p
                end)
        end
    end.
Proof.
  intros Hregistered.
  assert (Hcontract : forall p, In p (getProviders this) -> probeNeverThrows p)
    by (intros p Hp; apply registered_probeNeverThrows, Hregistered, Hp).
  destruct (selectProvider_returns this request preferred w Hcontract)
    as [selected [w1 [t1 [Hsel Hg1]]]].
  unfold generateImage, bind. rewrite Hsel.
  destruct selected as [p|].
  - unfold generateWith, tryCatch, invoke.
    destruct (ImageProvider.generateImage p request w1) as [[r|e] w2] eqn:Hprimary.
    + do 3 eexists. exists (Some p), w1, t1.
      split; [reflexivity|]. split; [reflexivity|].
      rewrite Hprimary. rewrite generateCalls_app, Hg1. split; reflexivity.
    + unfold tryFallback, bind. rewrite getFallbackProvider_reports.
      set (reports := probeReports (getProviders this) w2).
      rewrite (@fallback_by_capability W request (ImageProvider.name p)
                 (reportedAvailable reports)
                 (fun q Hq => Hregistered q (reportedAvailable_registered _ _ _ Hq))).
      destruct (find _ (reportedAvailable reports)) as [q|] eqn:Hfind.
      * unfold tryCatch, invoke.
        destruct (ImageProvider.generateImage q request
                    (worldAfterProbes (getProviders this) w2)) as [[r|e'] w4] eqn:Hfallback.
        -- do 3 eexists. exists (Some p), w1, t1.
           split; [reflexivity|]. split; [reflexivity|].
           rewrite Hprimary. right. exists q. split.
           ++ apply find_firstSuchThat in Hfind.
              destruct Hfind as [before [after [Hl [Hq Hbefore]]]].
              exists before, after. split; [exact Hl|]. split.
              ** apply andb_prop in Hq. destruct Hq as [Hn Hs].
                 apply negb_true_iff, String.eqb_neq in Hn. split; assumption.
              ** intros y Hy [Hn Hs]. apply (Hbefore y Hy).
                 apply andb_true_intro. split; [|exact Hs].
                 apply negb_true_iff, String.eqb_neq. exact Hn.
           ++ rewrite Hfallback. split; [|reflexivity].
              rewrite !generateCalls_app, Hg1. simpl.
              rewrite ?generateCalls_app, generateCalls_probeEvents. reflexivity.
        -- do 3 eexists. exists (Some p), w1, t1.
           split; [reflexivity|]. split; [reflexivity|].
           rewrite Hprimary. right. exists q. split.
           ++ apply find_firstSuchThat in Hfind.
              destruct Hfind as [before [after [Hl [Hq Hbefore]]]].
              exists before, after. split; [exact Hl|]. split.
              ** apply andb_prop in Hq. destruct Hq as [Hn Hs].
                 apply negb_true_iff, String.eqb_neq in Hn. split; assumption.
              ** intros y Hy [Hn Hs]. apply (Hbefore y Hy).
                 apply andb_true_intro. split; [|exact Hs].
                 apply negb_true_iff, String.eqb_neq. exact Hn.
           ++ rewrite Hfallback. split; [|split].
              ** rewrite !generateCalls_app, Hg1. simpl.
                 rewrite ?generateCalls_app, generateCalls_probeEvents. reflexivity.
              ** apply failedResult_describesFailure.
              ** reflexivity.
      * do 3 eexists. exists (Some p), w1, t1.
        split; [reflexivity|]. split; [reflexivity|].
        rewrite Hprimary. left. split; [|split; [|split]].
        -- intros q Hq [Hn Hs].
           pose proof (find_none _ _ Hfind q Hq) as Hno. simpl in Hno.
           rewrite Hs, andb_true_r in Hno.
           apply negb_false_iff, String.eqb_eq in Hno. contradiction.
        -- rewrite !generateCalls_app, Hg1. simpl.
           rewrite ?generateCalls_app, generateCalls_probeEvents. reflexivity.
        -- apply failedResult_describesFailure.
        -- reflexivity.
  - unfold generateWith, ret.
    do 3 eexists. exists None, w1, t1.
    split; [reflexivity|]. split; [reflexivity|].
    split; [rewrite app_nil_r; exact Hg1|].
    split; [reflexivity | apply noProviderResult_describesFailure].
Qed.

End ManagerFallback.

Lemma generateImage_never_throws_one_fallback_witness :
  exists w' t,
    ProviderManager.generateImage SampleAdapters.registry
      SampleProviders.logoRequest None 0%nat
    = (Returned (SampleProviders.okResult "huggingface"), w', t) /\
    generateCalls t = [("chatgpt", false); ("huggingface", true)]%string.
Proof.
  assert (Hregistered : forall p,
            In p (ProviderManager.getProviders SampleAdapters.registry) ->
            ProviderRegistry.registered p)
    by (intros p; apply initializeProviders_registered).
  destruct (generateImage_never_throws_one_fallback SampleAdapters.registry
              SampleProviders.logoRequest None 0%nat Hregistered)
    as [result [w' [t [selected [w1 [t1 [Hrun _]]]]]]].
  exists w', t. vm_compute in Hrun. injection Hrun as <- <- <-.
  split; reflexivity.
Defined.

(* ================================================================== *)
(** * Properties of the result cache *)
(* ================================================================== *)

Section CacheFacts.
Variable Key : Type.
Variable key_eqb : Key -> Key -> bool.
Variable fingerprint : ImageGenerationRequest -> Key.
Hypothesis key_eqb_refl : forall k, key_eqb k k = true.

Import ImageCache.

Local Abbreviation Entry := (CacheEntry Key).

Lemma fold_min_le (l : list Entry) : forall a,
  fold_left (fun m x => Z.min m (createdAt x)) l a <= a /\
  forall x, In x l -> fold_left (fun m x => Z.min m (createdAt x)) l a <= createdAt x.
Proof.
  induction l as [|y l IH]; intros a; simpl.
  - split; [lia | intros x []].
  - destruct (IH (Z.min a (createdAt y))) as [Ha Hl]. split; [lia|].
    intros x [<-|Hx]; [lia | apply Hl; exact Hx].
Qed.

Lemma fold_min_attained (l : list Entry) : forall a,
  fold_left (fun m x => Z.min m (createdAt x)) l a = a \/
  exists x, In x l /\ fold_left (fun m x => Z.min m (createdAt x)) l a = createdAt x.
Proof.
  induction l as [|y l IH]; intros a; simpl; [left; reflexivity|].
  destruct (IH (Z.min a (createdAt y))) as [H|[x [Hx H]]].
  - destruct (Z.min_spec a (createdAt y)) as [[_ Hm]|[_ Hm]].
    + left. rewrite H. exact Hm.
    + right. exists y. split; [left; reflexivity | rewrite H; exact Hm].
  - right. exists x. split; [right; exact Hx | exact H].
Qed.

Lemma removeFirst_app (p : Entry -> bool) (l1 l2 : list Entry) :
  (exists x, In x l1 /\ p x = true) ->
  removeFirst p (l1 ++ l2) = removeFirst p l1 ++ l2.
Proof.
  induction l1 as [|y l1 IH]; simpl; intros [x [Hx Hp]]; [destruct Hx|].
  destruct (p y) eqn:Hy; [reflexivity|].
  destruct Hx as [<-|Hx]; [congruence|].
  rewrite IH; [reflexivity | exists x; split; assumption].
Qed.

Lemma removeFirst_incl (p : Entry -> bool) (l : list Entry) :
  incl (removeFirst p l) l.
Proof.
  induction l as [|y l IH]; simpl; [apply incl_refl|].
  destruct (p y); [apply incl_tl, incl_refl|].
  intros x [<-|Hx]; [left; reflexivity | right; apply IH; exact Hx].
Qed.

Lemma removeFirst_length (p : Entry -> bool) (l : list Entry) :
  (exists x, In x l /\ p x = true) ->
  S (List.length (removeFirst p l)) = List.length l.
Proof.
  induction l as [|y l IH]; simpl; intros [x [Hx Hp]]; [destruct Hx|].
  destruct (p y) eqn:Hy; [reflexivity|].
  destruct Hx as [<-|Hx]; [congruence|].
  simpl. rewrite IH; [reflexivity | exists x; split; assumption].
Qed.

(** One eviction step spares a last entry that is not older than the
    others, as long as there are others. *)
Lemma evictOldest_spares_newest (others : list Entry) (fresh : Entry) :
  others <> [] ->
  (forall e, In e others -> createdAt e <= createdAt fresh) ->
  exists others',
    evictOldest (others ++ [fresh]) = others' ++ [fresh] /\
    incl others' others /\
    S (List.length others') = List.length others.
Proof.
  intros Hne Hold. destruct others as [|e0 rest]; [congruence|].
  unfold evictOldest. simpl app. simpl oldestCreated.
  set (m := fold_left (fun m x => Z.min m (createdAt x)) (rest ++ [fresh]) (createdAt e0)).
  assert (Hex : exists x, In x (e0 :: rest) /\ (createdAt x =? m) = true).
  { destruct (fold_min_le (rest ++ [fresh]) (createdAt e0)) as [Hle0 Hle].
    destruct (fold_min_attained (rest ++ [fresh]) (createdAt e0)) as [H|[x [Hx H]]].
    - exists e0. split; [left; reflexivity | apply Z.eqb_eq; symmetry; exact H].
    - apply in_app_or in Hx. destruct Hx as [Hx|[<-|[]]].
      + exists x. split; [right; exact Hx | apply Z.eqb_eq; symmetry; exact H].
      + exists e0. split; [left; reflexivity|]. apply Z.eqb_eq.
        fold m in Hle0, H. specialize (Hold e0 (or_introl eq_refl)). lia. }
  change (e0 :: rest ++ [fresh]) with ((e0 :: rest) ++ [fresh]).
  cbv iota beta. rewrite removeFirst_app; [|exact Hex].
  exists (removeFirst (fun e => createdAt e =? m) (e0 :: rest)).
  split; [reflexivity|]. split; [apply removeFirst_incl|].
  apply removeFirst_length. exact Hex.
Qed.

Lemma evict_spares_newest (excess : nat) : forall (others : list Entry) (fresh : Entry),
  (excess <= List.length others)%nat ->
  (forall e, In e others -> createdAt e <= createdAt fresh) ->
  exists others',
    evict excess (others ++ [fresh]) = others' ++ [fresh] /\ incl others' others.
Proof.
  induction excess as [|excess IH]; intros others fresh Hlen Hold; simpl.
  - exists others. split; [reflexivity | apply incl_refl].
  - assert (Hne : others <> []) by (destruct others; simpl in Hlen; [lia | discriminate]).
    destruct (evictOldest_spares_newest fresh Hne Hold) as [o1 [H1 [Hincl1 Hlen1]]].
    rewrite H1.
    destruct (IH o1 fresh) as [o2 [H2 Hincl2]].
    + lia.
    + intros e He. apply Hold, Hincl1, He.
    + exists o2. split; [exact H2|]. intros e He. apply Hincl1, Hincl2, He.
Qed.

Lemma find_app_none {A} (f : A -> bool) (l1 l2 : list A) :
  (forall x, In x l1 -> f x = false) -> find f (l1 ++ l2) = find f l2.
Proof.
  induction l1 as [|y l1 IH]; simpl; intros H; [reflexivity|].
  rewrite (H y (or_introl eq_refl)). apply IH. intros x Hx. apply H. right. exact Hx.
Qed.

(** C9.  In a cache with room for at least one entry, and with a clock that
    does not run backwards (no entry was created after [now]), storing a
    result for a request at time [now] makes [get] of that request return
    this result at every time up to the expiry [now + ttl], and absent at
    every time after it.  [get] is a total function: it has no way to
    throw. *)
Theorem cache_round_trip
        (this : ImageCache.t Key) (request : ImageGenerationRequest)
        (result : ImageGenerationResult) (now t : Z) :
  (1 <= maxSize this)%nat ->
  (forall e, In e (entries this) -> createdAt e <= now) ->
  let stored := set key_eqb fingerprint now this request result in
  (t <= now + ttl this -> get key_eqb fingerprint t stored request = Some result) /\
  (now + ttl this < t -> get key_eqb fingerprint t stored request = None).
Proof.
  intros Hroom Hclock stored.
  set (key := fingerprint request).
  set (fresh := {| entryKey := key; entryResult := result;
                   createdAt := now; expiresAt := now + ttl this |}).
  set (others := filter (fun e => negb (key_eqb (entryKey e) key) && live now e)
                        (entries this)).
  assert (Hothers : forall e, In e others ->
            key_eqb (entryKey e) key = false /\ createdAt e <= now).
  { intros e He. apply filter_In in He. destruct He as [Hin Hp].
    apply andb_prop in Hp. destruct Hp as [Hk _].
    apply negb_true_iff in Hk. split; [exact Hk | apply Hclock; exact Hin]. }
  destruct (@evict_spares_newest (List.length (others ++ [fresh]) - maxSize this)
              others fresh) as [kept [Hkept Hincl]].
  { rewrite length_app. simpl. lia. }
  { intros e He. simpl. apply Hothers. exact He. }
  assert (Hget : get key_eqb fingerprint t stored request
                 = if t <=? now + ttl this then Some result else None).
  { unfold get, stored, set. simpl entries. fold key fresh others.
    rewrite Hkept. rewrite find_app_none.
    - simpl. rewrite key_eqb_refl. unfold live. simpl.
      destruct (t <=? now + ttl this); reflexivity.
    - intros e He. apply Hincl, Hothers in He. destruct He as [Hk _].
      rewrite Hk. reflexivity. }
  rewrite Hget. split; intros Ht.
  - apply Z.leb_le in Ht. rewrite Ht. reflexivity.
  - apply Z.leb_gt in Ht. rewrite Ht. reflexivity.
Qed.

End CacheFacts.

(** Room for two, three fingerprints stored in a row: the first is evicted,
    the other two can be retrieved. *)
Example cache_evicts_oldest :
  let get := ImageCache.get SampleCache.key_eqb SampleCache.fingerprint in
  let stored := ImageCache.set SampleCache.key_eqb SampleCache.fingerprint 3000
                  SampleCache.full (Sample.redBicycle (Some 3) None)
                  (SampleProviders.okResult "huggingface") in
  get 4000 stored (Sample.redBicycle (Some 1) None) = None /\
  get 4000 stored (Sample.redBicycle (Some 2) None)
  = Some (SampleProviders.okResult "chatgpt") /\
  get 4000 stored (Sample.redBicycle (Some 3) None)
  = Some (SampleProviders.okResult "huggingface").
Proof. vm_compute. repeat split. Qed.

Lemma cache_round_trip_witness :
  let request := Sample.redBicycle (Some 3) None in
  let stored := ImageCache.set SampleCache.key_eqb SampleCache.fingerprint 3000
                  SampleCache.full request (SampleProviders.okResult "huggingface") in
  ImageCache.get SampleCache.key_eqb SampleCache.fingerprint 5000 stored request
  = Some (SampleProviders.okResult "huggingface") /\
  ImageCache.get SampleCache.key_eqb SampleCache.fingerprint 86403001 stored request
  = None.
Proof.
  assert (Hrefl : forall k, SampleCache.key_eqb k k = true).
  { intros [s c]. unfold SampleCache.key_eqb. simpl.
    destruct (list_eq_dec N.eq_dec s s) as [_|Hne]; [|exfalso; apply Hne; reflexivity].
    destruct c as [z|]; [apply Z.eqb_refl | reflexivity]. }
  assert (Hroom : (1 <= ImageCache.maxSize SampleCache.full)%nat)
    by (apply Nat.leb_le; reflexivity).
  assert (Hclock : forall e, In e (ImageCache.entries SampleCache.full) ->
                             ImageCache.createdAt e <= 3000).
  { intros e [<-|[<-|[]]]; apply Z.leb_le; reflexivity. }
  split.
  - apply (@cache_round_trip _ SampleCache.key_eqb SampleCache.fingerprint Hrefl
             SampleCache.full (Sample.redBicycle (Some 3) None)
             (SampleProviders.okResult "huggingface") 3000 5000 Hroom Hclock).
    apply Z.leb_le. reflexivity.
  - apply (@cache_round_trip _ SampleCache.key_eqb SampleCache.fingerprint Hrefl
             SampleCache.full (Sample.redBicycle (Some 3) None)
             (SampleProviders.okResult "huggingface") 3000 86403001 Hroom Hclock).
    apply Z.ltb_lt. reflexivity.
Defined.

(* ================================================================== *)
(** * Properties of prompt sanitization *)
(* ================================================================== *)

Section CharacterFacts.
Import Js.

Ltac to_props :=
  unfold isSpace, isWord, inRange, SPACE in *;
  repeat rewrite ?orb_true_iff, ?andb_true_iff, ?orb_false_iff, ?andb_false_iff,
    ?N.leb_le, ?N.leb_gt, ?N.eqb_eq, ?N.eqb_neq, ?N.ltb_lt, ?N.ltb_ge in *.

Lemma isSpace_not_isWord (c : char) : isSpace c = true -> isWord c = false.
Proof. to_props. lia. Qed.

Lemma isSpace_SPACE : isSpace SPACE = true.
Proof. reflexivity. Qed.

Lemma canonicalize_isWord (c : char) : isWord (canonicalize c) = isWord c.
Proof.
  unfold canonicalize. destruct (inRange 97 122 c) eqn:Hr; [|reflexivity].
  apply eq_true_iff_eq. to_props. lia.
Qed.

Lemma canonicalize_isSpace (c : char) : isSpace (canonicalize c) = isSpace c.
Proof.
  unfold canonicalize. destruct (inRange 97 122 c) eqn:Hr; [|reflexivity].
  apply eq_true_iff_eq. to_props. lia.
Qed.

Lemma matchChar_isWord (p c : char) : matchChar p c = true -> isWord c = isWord p.
Proof.
  unfold matchChar. intros H. apply andb_prop in H. destruct H as [_ H].
  apply N.eqb_eq in H.
  rewrite <- (canonicalize_isWord c), <- (canonicalize_isWord p), H. reflexivity.
Qed.

Lemma matchChar_isSpace (p c : char) : matchChar p c = true -> isSpace c = isSpace p.
Proof.
  unfold matchChar. intros H. apply andb_prop in H. destruct H as [_ H].
  apply N.eqb_eq in H.
  rewrite <- (canonicalize_isSpace c), <- (canonicalize_isSpace p), H. reflexivity.
Qed.

End CharacterFacts.

Section MatchFacts.
Import Js.

Lemma wordLike_inv (w : jsstring) :
  wordLike w = true ->
  exists x w', w = x :: w' /\ isWord x = true /\ tailOK (isWord x) w' = true /\
               forallb (fun c => negb (isSpace c)) w = true.
Proof.
  destruct w as [|x w']; simpl; [discriminate|].
  intros H. apply andb_prop in H. destruct H as [H Hs].
  apply andb_prop in H. destruct H as [Hx Ht].
  exists x, w'. repeat split; assumption.
Qed.

Lemma lastOr_app (pre1 pre2 : jsstring) : forall before,
  lastOr before (pre1 ++ pre2) = lastOr (lastOr before pre1) pre2.
Proof.
  induction pre1 as [|c pre1 IH]; intros before; simpl; [reflexivity | apply IH].
Qed.

(** A successful literal match splits the input. *)
Lemma matchLiteral_split (w : jsstring) : forall before s last rest,
  matchLiteral w before s = Some (last, rest) ->
  exists consumed,
    s = consumed ++ rest /\ last = lastOr before consumed /\
    List.length consumed = List.length w.
Proof.
  induction w as [|x w IH]; intros before s last rest; simpl.
  - intros [= <- <-]. exists []. repeat split.
  - destruct s as [|c s']; [discriminate|].
    destruct (matchChar x c); [|discriminate].
    intros H. destruct (IH _ _ _ _ H) as [consumed [Hs [Hl Hlen]]].
    exists (c :: consumed). simpl. subst s'. repeat split; [exact Hl | congruence].
Qed.

Lemma matchLiteral_last (w : jsstring) : forall d s last rest,
  matchLiteral w (Some d) s = Some (last, rest) ->
  tailOK (isWord d) w = true ->
  exists l, last = Some l /\ isWord l = true.
Proof.
  induction w as [|x w IH]; intros d s last rest; simpl.
  - intros [= <- <-] Hd. exists d. split; [reflexivity | exact Hd].
  - destruct s as [|c s']; [discriminate|].
    destruct (matchChar x c) eqn:Hm; [|discriminate].
    intros H Ht. apply andb_prop in Ht. destruct Ht as [_ Ht].
    apply (IH c s' last rest H). rewrite (matchChar_isWord _ _ Hm). exact Ht.
Qed.

(** What a match of a word-like literal between two [\b] looks like. *)
Lemma matchWord_inv (w : jsstring) (before : option char) (s : jsstring)
      (last : option char) (rest : jsstring) :
  wordLike w = true ->
  matchWord w before s = Some (last, rest) ->
  isWordAt before = false /\
  isWordAt (hd_error s) = true /\
  isWordAt last = true /\
  isWordAt (hd_error rest) = false /\
  (List.length rest < List.length s)%nat /\
  exists consumed, s = consumed ++ rest /\ last = lastOr before consumed.
Proof.
  intros Hw. destruct (wordLike_inv _ Hw) as [x [w' [-> [Hx [Ht _]]]]].
  unfold matchWord.
  destruct (wordBoundary before (hd_error s)) eqn:Hb1; [|discriminate].
  destruct (matchLiteral (x :: w') before s) as [[last' rest']|] eqn:Hlit; [|discriminate].
  destruct (wordBoundary last' (hd_error rest')) eqn:Hb2; [|discriminate].
  intros [= <- <-].
  destruct (matchLiteral_split _ _ _ Hlit) as [consumed [Hs [Hl Hlen]]].
  simpl in Hlit. destruct s as [|c s']; [discriminate|].
  destruct (matchChar x c) eqn:Hm; [|discriminate].
  assert (Hc : isWord c = true) by (rewrite (matchChar_isWord _ _ Hm); exact Hx).
  destruct (matchLiteral_last _ _ _ Hlit) as [l [-> Hlw]].
  { rewrite Hc. rewrite Hx in Ht. exact Ht. }
  unfold wordBoundary in Hb1, Hb2. simpl in Hb1, Hb2. rewrite Hc in Hb1.
  rewrite Hlw in Hb2.
  repeat split.
  - destruct (isWordAt before); [discriminate | reflexivity].
  - exact Hc.
  - exact Hlw.
  - destruct (isWordAt (hd_error rest')); [discriminate | reflexivity].
  - rewrite Hs, length_app. simpl in Hlen. lia.
  - exists consumed. split; assumption.
Qed.

Lemma matchAlternatives_inv (alts : list jsstring) (before : option char)
      (s : jsstring) (last : option char) (rest : jsstring) :
  forallb wordLike alts = true ->
  matchAlternatives alts before s = Some (last, rest) ->
  isWordAt before = false /\
  isWordAt (hd_error s) = true /\
  isWordAt last = true /\
  isWordAt (hd_error rest) = false /\
  (List.length rest < List.length s)%nat /\
  exists consumed, s = consumed ++ rest /\ last = lastOr before consumed.
Proof.
  induction alts as [|w alts IH]; simpl; [discriminate|].
  intros Hall. apply andb_prop in Hall. destruct Hall as [Hw Hall].
  destruct (matchWord w before s) as [[l r]|] eqn:Hm.
  - intros [= <- <-]. apply (matchWord_inv _ _ _ Hw Hm).
  - apply IH. exact Hall.
Qed.

(** A word-like literal does not match where the input does not start
    inside [\w]. *)
Lemma matchAlternatives_needs_word (alts : list jsstring) (before : option char)
      (s : jsstring) :
  forallb wordLike alts = true ->
  isWordAt (hd_error s) = false ->
  matchAlternatives alts before s = None.
Proof.
  intros Hall Hs.
  destruct (matchAlternatives alts before s) as [[l r]|] eqn:Hm; [|reflexivity].
  destruct (matchAlternatives_inv _ _ _ Hall Hm) as [_ [Hw _]]. congruence.
Qed.

(** Only whether the code unit before is in [\w] matters. *)
Lemma matchWord_before (w : jsstring) (b1 b2 : option char) (s : jsstring) :
  wordLike w = true ->
  isWordAt b1 = isWordAt b2 ->
  matchWord w b1 s = None -> matchWord w b2 s = None.
Proof.
  intros Hw Hb. destruct (wordLike_inv _ Hw) as [x [w' [-> _]]].
  unfold matchWord, wordBoundary. rewrite Hb.
  destruct (xorb (isWordAt b2) (isWordAt (hd_error s))); [|reflexivity].
  simpl. destruct s as [|c s']; [reflexivity|].
  destruct (matchChar x c); [|reflexivity]. intros H. exact H.
Qed.

Lemma matchAlternatives_before (alts : list jsstring) (b1 b2 : option char)
      (s : jsstring) :
  forallb wordLike alts = true ->
  isWordAt b1 = isWordAt b2 ->
  matchAlternatives alts b1 s = None -> matchAlternatives alts b2 s = None.
Proof.
  induction alts as [|w alts IH]; simpl; [reflexivity|].
  intros Hall Hb. apply andb_prop in Hall. destruct Hall as [Hw Hall].
  destruct (matchWord w b1 s) as [r|] eqn:Hm; [discriminate|].
  rewrite (matchWord_before _ _ _ _ Hw Hb Hm). apply IH; assumption.
Qed.

Lemma noMatchFrom_before (alts : list jsstring) (b1 b2 : option char) (s : jsstring) :
  forallb wordLike alts = true ->
  isWordAt b1 = isWordAt b2 ->
  noMatchFrom alts b1 s -> noMatchFrom alts b2 s.
Proof.
  intros Hall Hb. destruct s as [|c s']; simpl; [trivial|].
  intros [Hm Hrest]. split; [|exact Hrest].
  apply (matchAlternatives_before _ _ _ _ Hall Hb Hm).
Qed.

(** Where nothing matches, nothing is removed. *)
Lemma removeFrom_noMatch (alts : list jsstring) (steps : nat) :
  forall before s, noMatchFrom alts before s -> removeFrom alts steps before s = s.
Proof.
  induction steps as [|steps IH]; intros before s Hs; simpl; [reflexivity|].
  destruct s as [|c s']; [reflexivity|].
  destruct Hs as [Hm Hrest]. rewrite Hm. rewrite (IH _ _ Hrest). reflexivity.
Qed.

End MatchFacts.

Section RemovalFacts.
Import Js.

Variable removed : list jsstring.
Hypothesis removed_wordLike : forallb wordLike removed = true.

(** The scan keeps a code unit that is outside [\w], or that follows one
    inside [\w]. *)
Lemma removeFrom_keeps_head (steps : nat) (before : option char) (c : char)
      (s : jsstring) :
  isWord c = false \/ isWordAt before = true ->
  removeFrom removed (S steps) before (c :: s)
  = c :: removeFrom removed steps (Some c) s.
Proof.
  intros H. simpl.
  destruct (matchAlternatives removed before (c :: s)) as [[l r]|] eqn:Hm;
    [|reflexivity].
  destruct (matchAlternatives_inv _ _ _ removed_wordLike Hm) as [Hb [Hc _]].
  simpl in Hc. destruct H; congruence.
Qed.

(** A literal that matches in the output of the scan, right after a kept
    code unit [d], matches in the input at the same place. *)
Lemma matchLiteral_through_removal (w : jsstring) :
  forall d s steps last restOut,
    (List.length s <= steps)%nat ->
    tailOK (isWord d) w = true ->
    matchLiteral w (Some d) (removeFrom removed steps (Some d) s) = Some (last, restOut) ->
    wordBoundary last (hd_error restOut) = true ->
    exists restIn,
      matchLiteral w (Some d) s = Some (last, restIn) /\
      wordBoundary last (hd_error restIn) = true.
Proof.
  induction w as [|x w IH]; intros d s steps last restOut Hlen Ht Hlit Hb.
  - simpl in Hlit. injection Hlit as <- <-. simpl in Ht.
    exists s. split; [reflexivity|].
    unfold wordBoundary in *. simpl in *. rewrite Ht in *.
    destruct s as [|c s1]; [reflexivity|].
    destruct steps as [|steps]; [simpl in Hlen; lia|].
    rewrite removeFrom_keeps_head in Hb by (right; exact Ht).
    exact Hb.
  - simpl in Ht. apply andb_prop in Ht. destruct Ht as [Hadj Ht].
    destruct s as [|c s1].
    { destruct steps; simpl in Hlit; discriminate. }
    destruct steps as [|steps]; [simpl in Hlen; lia|].
    simpl in Hlen.
    cbn [removeFrom] in Hlit.
    destruct (matchAlternatives removed (Some d) (c :: s1)) as [[l r]|] eqn:Hm.
    + exfalso.
      destruct (matchAlternatives_inv _ _ _ removed_wordLike Hm)
        as [Hd [Hc [Hl [Hr [Hshort _]]]]].
      simpl in Hd. rewrite Hd in Hadj. simpl in Hadj.
      destruct r as [|c2 r'].
      * destruct steps; simpl in Hlit; discriminate.
      * simpl in Hr. simpl in Hshort.
        destruct steps as [|steps]; [lia|].
        rewrite removeFrom_keeps_head in Hlit by (left; exact Hr).
        simpl in Hlit. destruct (matchChar x c2) eqn:Hx; [|discriminate].
        apply matchChar_isWord in Hx. congruence.
    + simpl in Hlit. simpl.
      destruct (matchChar x c) eqn:Hx; [|discriminate].
      apply (IH c s1 steps last restOut); [lia | | exact Hlit | exact Hb].
      rewrite (matchChar_isWord _ _ Hx). exact Ht.
Qed.

Lemma matchWord_through_removal (w : jsstring) (before : option char) (c : char)
      (s : jsstring) (steps : nat) :
  wordLike w = true ->
  (List.length s <= steps)%nat ->
  matchWord w before (c :: s) = None ->
  matchWord w before (c :: removeFrom removed steps (Some c) s) = None.
Proof.
  intros Hw Hlen. destruct (wordLike_inv _ Hw) as [x [w' [-> [Hx [Ht _]]]]].
  unfold matchWord. simpl hd_error.
  destruct (wordBoundary before (Some c)); [|reflexivity].
  simpl matchLiteral.
  destruct (matchChar x c) eqn:Hm; [|reflexivity].
  destruct (matchLiteral w' (Some c) (removeFrom removed steps (Some c) s))
    as [[last restOut]|] eqn:Hout; [|reflexivity].
  destruct (wordBoundary last (hd_error restOut)) eqn:Hb; [|reflexivity].
  assert (Ht' : tailOK (isWord c) w' = true)
    by (rewrite (matchChar_isWord _ _ Hm); exact Ht).
  destruct (@matchLiteral_through_removal w' c s steps last restOut Hlen Ht' Hout Hb)
    as [restIn [Hin Hbin]].
  rewrite Hin, Hbin. discriminate.
Qed.

Lemma matchAlternatives_through_removal (alts : list jsstring) (before : option char)
      (c : char) (s : jsstring) (steps : nat) :
  forallb wordLike alts = true ->
  (List.length s <= steps)%nat ->
  matchAlternatives alts before (c :: s) = None ->
  matchAlternatives alts before (c :: removeFrom removed steps (Some c) s) = None.
Proof.
  induction alts as [|w alts IH]; intros Hall Hlen; [reflexivity|].
  simpl in Hall. apply andb_prop in Hall. destruct Hall as [Hw Hall].
  simpl. destruct (matchWord w before (c :: s)) eqn:Hm; [discriminate|].
  intros H. rewrite (@matchWord_through_removal w before c s steps Hw Hlen Hm).
  apply IH; assumption.
Qed.

Lemma quiet_suffix (other : list jsstring) (before : option char) (pre s : jsstring) :
  quiet removed other before (pre ++ s) ->
  quiet removed other (lastOr before pre) s.
Proof.
  intros Hq pre' post Hs Hm. rewrite <- lastOr_app in *.
  apply Hq; [rewrite Hs; apply app_assoc | exact Hm].
Qed.

(** After the scan the pattern [other] matches nowhere, if before the scan
    it matched at most where the removed pattern matches. *)
Lemma removeFrom_quiet (other : list jsstring) :
  forallb wordLike other = true ->
  forall steps s inBefore outBefore,
    (List.length s <= steps)%nat ->
    quiet removed other inBefore s ->
    outBefore = inBefore \/
    (isWordAt outBefore = false /\ isWordAt (hd_error s) = false) ->
    noMatchFrom other outBefore (removeFrom removed steps inBefore s).
Proof.
  intros Hother. induction steps as [|steps IH]; intros s inB outB Hlen Hq Hinv.
  - destruct s; [exact I | simpl in Hlen; lia].
  - destruct s as [|c s']; [exact I|]. simpl in Hlen. cbn [removeFrom].
    destruct (matchAlternatives removed inB (c :: s')) as [[l r]|] eqn:Hm.
    + destruct (matchAlternatives_inv _ _ _ removed_wordLike Hm)
        as [Hb [_ [_ [Hr [Hshort [consumed [Hs Hl]]]]]]].
      simpl in Hshort. apply IH.
      * lia.
      * subst l. apply quiet_suffix. rewrite <- Hs. exact Hq.
      * right. split; [|exact Hr].
        destruct Hinv as [->|[Ho _]]; assumption.
    + split.
      * destruct Hinv as [->|[Ho Hc]].
        -- apply matchAlternatives_through_removal; [exact Hother | lia |].
           apply (Hq [] (c :: s')); [reflexivity | exact Hm].
        -- apply matchAlternatives_needs_word; [exact Hother | exact Hc].
      * apply IH; [lia | | left; reflexivity].
        apply (@quiet_suffix other inB [c] s'). exact Hq.
Qed.

End RemovalFacts.

Section RemoveAllFacts.
Import Js.

Lemma noMatchFrom_at (alts : list jsstring) :
  forallb wordLike alts = true ->
  forall pre before post,
    noMatchFrom alts before (pre ++ post) ->
    matchAlternatives alts (lastOr before pre) post = None.
Proof.
  intros Hall. induction pre as [|a pre IH]; intros before post H; simpl in *.
  - destruct post as [|c post'].
    + apply matchAlternatives_needs_word; [exact Hall | reflexivity].
    + destruct H as [H _]. exact H.
  - destruct H as [_ H]. apply IH. exact H.
Qed.

Lemma noMatchFrom_quiet (kept other : list jsstring) (before : option char)
      (s : jsstring) :
  forallb wordLike other = true ->
  noMatchFrom other before s -> quiet kept other before s.
Proof.
  intros Hall H pre post -> _. apply noMatchFrom_at; assumption.
Qed.

(** After [removeAll] the removed pattern matches nowhere. *)
Lemma removeAll_noMatch_self (removed : list jsstring) (s : jsstring) :
  forallb wordLike removed = true ->
  noMatchFrom removed None (removeAll removed s).
Proof.
  intros Hall. unfold removeAll.
  apply (removeFrom_quiet Hall Hall); [apply Nat.le_refl | | left; reflexivity].
  intros pre post _ H. exact H.
Qed.

(** [removeAll] creates no match of another pattern. *)
Lemma removeAll_noMatch_other (removed other : list jsstring) (s : jsstring) :
  forallb wordLike removed = true ->
  forallb wordLike other = true ->
  noMatchFrom other None s ->
  noMatchFrom other None (removeAll removed s).
Proof.
  intros Hr Ho H. unfold removeAll.
  apply (removeFrom_quiet Hr Ho); [apply Nat.le_refl | | left; reflexivity].
  apply noMatchFrom_quiet; assumption.
Qed.

Lemma removeAll_noMatch (alts : list jsstring) (s : jsstring) :
  noMatchFrom alts None s -> removeAll alts s = s.
Proof. intros H. unfold removeAll. apply removeFrom_noMatch. exact H. Qed.

Local Abbreviation removeEach patterns s :=
  (fold_left (fun s pattern => removeAll pattern s) patterns s).

Lemma removeEach_keeps (patterns : list (list jsstring)) (other : list jsstring) :
  forallb (forallb wordLike) patterns = true ->
  forallb wordLike other = true ->
  forall s, noMatchFrom other None s -> noMatchFrom other None (removeEach patterns s).
Proof.
  intros Hall Ho. induction patterns as [|p patterns IH]; intros s H; [exact H|].
  simpl in Hall. apply andb_prop in Hall. destruct Hall as [Hp Hall].
  simpl. apply (IH Hall).
  apply removeAll_noMatch_other; assumption.
Qed.

(** After all the passes none of the patterns matches. *)
Lemma removeEach_noMatch (patterns : list (list jsstring)) :
  forallb (forallb wordLike) patterns = true ->
  forall s q, In q patterns -> noMatchFrom q None (removeEach patterns s).
Proof.
  induction patterns as [|p patterns IH]; intros Hall s q Hq; [destruct Hq|].
  simpl in Hall. apply andb_prop in Hall. destruct Hall as [Hp Hall].
  simpl. destruct Hq as [<-|Hq].
  - apply removeEach_keeps; [exact Hall | exact Hp |].
    apply removeAll_noMatch_self. exact Hp.
  - apply (IH Hall). exact Hq.
Qed.

Lemma removeEach_fixed (patterns : list (list jsstring)) (s : jsstring) :
  (forall q, In q patterns -> noMatchFrom q None s) ->
  removeEach patterns s = s.
Proof.
  induction patterns as [|p patterns IH]; intros H; [reflexivity|].
  simpl. rewrite removeAll_noMatch by (apply H; left; reflexivity).
  apply IH. intros q Hq. apply H. right. exact Hq.
Qed.

End RemoveAllFacts.

Section WhitespaceFacts.
Import Js.

Lemma hd_collapseRuns (s : jsstring) :
  isWordAt (hd_error (collapseRuns false s)) = isWordAt (hd_error s).
Proof.
  destruct s as [|c s']; [reflexivity|]. simpl.
  destruct (isSpace c) eqn:Hc; [|reflexivity].
  simpl. rewrite (isSpace_not_isWord _ Hc). reflexivity.
Qed.

(** A literal without whitespace that matches in the collapsed string
    matches in the original one. *)
Lemma matchLiteral_through_collapse (w : jsstring) :
  forall d s last restOut,
    forallb (fun c => negb (isSpace c)) w = true ->
    matchLiteral w (Some d) (collapseRuns false s) = Some (last, restOut) ->
    exists restIn,
      matchLiteral w (Some d) s = Some (last, restIn) /\
      isWordAt (hd_error restIn) = isWordAt (hd_error restOut).
Proof.
  induction w as [|x w IH]; intros d s last restOut Hns Hlit.
  - simpl in Hlit. injection Hlit as <- <-. exists s.
    split; [reflexivity | symmetry; apply hd_collapseRuns].
  - simpl in Hns. apply andb_prop in Hns. destruct Hns as [Hx Hns].
    apply negb_true_iff in Hx.
    destruct s as [|c s1]; [discriminate Hlit|].
    simpl in Hlit. simpl. destruct (isSpace c) eqn:Hc.
    + simpl in Hlit. destruct (matchChar x SPACE) eqn:Hm; [|discriminate].
      apply matchChar_isSpace in Hm. rewrite isSpace_SPACE in Hm. congruence.
    + simpl in Hlit. destruct (matchChar x c); [|discriminate].
      apply IH; assumption.
Qed.

Lemma matchAlternatives_through_collapse (alts : list jsstring)
      (before : option char) (c : char) (s : jsstring) :
  forallb wordLike alts = true ->
  matchAlternatives alts before (c :: s) = None ->
  matchAlternatives alts before (c :: collapseRuns false s) = None.
Proof.
  induction alts as [|w alts IH]; intros Hall; [reflexivity|].
  simpl in Hall. apply andb_prop in Hall. destruct Hall as [Hw Hall].
  simpl. destruct (matchWord w before (c :: s)) eqn:Hm; [discriminate|].
  intros H. rewrite (IH Hall H).
  destruct (wordLike_inv _ Hw) as [x [w' [-> [_ [_ Hns]]]]].
  simpl in Hns. apply andb_prop in Hns. destruct Hns as [_ Hns].
  unfold matchWord in *. simpl hd_error in *.
  destruct (wordBoundary before (Some c)); [|reflexivity].
  simpl matchLiteral in *.
  destruct (matchChar x c); [|reflexivity].
  destruct (matchLiteral w' (Some c) (collapseRuns false s))
    as [[last restOut]|] eqn:Hout; [|reflexivity].
  destruct (matchLiteral_through_collapse w' c s Hns Hout) as [restIn [Hin Hhd]].
  rewrite Hin in Hm. unfold wordBoundary in *. rewrite Hhd in Hm.
  destruct (xorb (isWordAt last) (isWordAt (hd_error restOut)));
    [discriminate | reflexivity].
Qed.

(** Collapsing whitespace creates no match. *)
Lemma collapseRuns_noMatch (alts : list jsstring) :
  forallb wordLike alts = true ->
  forall s inRun inBefore outBefore,
    isWordAt inBefore = isWordAt outBefore ->
    (inRun = true -> isWordAt outBefore = false) ->
    noMatchFrom alts inBefore s ->
    noMatchFrom alts outBefore (collapseRuns inRun s).
Proof.
  intros Hall. induction s as [|c s IH]; intros inRun inB outB Hb Hrun H; [exact I|].
  destruct H as [Hm Hrest]. simpl. destruct (isSpace c) eqn:Hc.
  - pose proof (isSpace_not_isWord _ Hc) as Hnw. destruct inRun.
    + apply (IH true (Some c) outB); [|trivial|exact Hrest].
      simpl. rewrite Hnw. symmetry. apply Hrun. reflexivity.
    + split.
      * apply matchAlternatives_needs_word; [exact Hall | reflexivity].
      * apply (IH true (Some c) (Some SPACE)); [|reflexivity|exact Hrest].
        simpl. rewrite Hnw. reflexivity.
  - split.
    + apply matchAlternatives_through_collapse; [exact Hall|].
      apply (matchAlternatives_before _ _ _ _ Hall Hb Hm).
    + apply (IH false (Some c) (Some c)); [reflexivity | discriminate | exact Hrest].
Qed.

Lemma trimStart_noMatch (alts : list jsstring) :
  forallb wordLike alts = true ->
  forall s, noMatchFrom alts None s -> noMatchFrom alts None (trimStart s).
Proof.
  intros Hall. induction s as [|c s IH]; intros H; [exact I|].
  simpl. destruct (isSpace c) eqn:Hc; [|exact H].
  apply IH. destruct H as [_ H].
  apply (noMatchFrom_before _ (Some c) None _ Hall); [|exact H].
  simpl. apply isSpace_not_isWord. exact Hc.
Qed.

Lemma trimStart_split (s : jsstring) :
  exists ws, s = ws ++ trimStart s /\ forallb isSpace ws = true.
Proof.
  induction s as [|c s [ws [Hs Hws]]]; [exists []; split; reflexivity|].
  simpl. destruct (isSpace c) eqn:Hc.
  - exists (c :: ws). simpl. rewrite Hc, Hws. split; [congruence | reflexivity].
  - exists []. split; reflexivity.
Qed.

Lemma trimEnd_split (s : jsstring) :
  exists ws, s = trimEnd s ++ ws /\ forallb isSpace ws = true.
Proof.
  unfold trimEnd. destruct (trimStart_split (rev s)) as [ws [Hs Hws]].
  exists (rev ws). split.
  - rewrite <- rev_app_distr, <- Hs, rev_involutive. reflexivity.
  - apply forallb_forall. intros c Hc. apply in_rev in Hc.
    apply (proj1 (forallb_forall _ _) Hws c Hc).
Qed.

Lemma matchLiteral_app (w : jsstring) : forall before s u last rest,
  matchLiteral w before s = Some (last, rest) ->
  matchLiteral w before (s ++ u) = Some (last, rest ++ u).
Proof.
  induction w as [|x w IH]; intros before s u last rest; simpl.
  - intros [= <- <-]. reflexivity.
  - destruct s as [|c s']; [discriminate|]. simpl.
    destruct (matchChar x c); [|discriminate]. apply IH.
Qed.

Lemma hd_app_spaces (r ws : jsstring) :
  forallb isSpace ws = true ->
  isWordAt (hd_error (r ++ ws)) = isWordAt (hd_error r).
Proof.
  intros Hws. destruct r as [|c r]; [|reflexivity]. simpl.
  destruct ws as [|a ws]; [reflexivity|]. simpl in *.
  apply andb_prop in Hws. destruct Hws as [Ha _].
  apply isSpace_not_isWord. exact Ha.
Qed.

Lemma matchAlternatives_app_spaces (alts : list jsstring) (before : option char)
      (c : char) (s ws : jsstring) :
  forallb isSpace ws = true ->
  matchAlternatives alts before ((c :: s) ++ ws) = None ->
  matchAlternatives alts before (c :: s) = None.
Proof.
  intros Hws. induction alts as [|w alts IH]; [reflexivity|].
  simpl. destruct (matchWord w before (c :: s ++ ws)) eqn:Hm; [discriminate|].
  intros H. rewrite (IH H).
  unfold matchWord in *. simpl hd_error in *.
  destruct (wordBoundary before (Some c)); [|reflexivity].
  destruct (matchLiteral w before (c :: s)) as [[last rest]|] eqn:Hlit; [|reflexivity].
  apply (matchLiteral_app _ _ _ ws) in Hlit. simpl app in Hlit.
  rewrite Hlit in Hm. unfold wordBoundary in *.
  rewrite (hd_app_spaces _ _ Hws) in Hm.
  destruct (xorb (isWordAt last) (isWordAt (hd_error rest)));
    [discriminate | reflexivity].
Qed.

Lemma noMatchFrom_without_spaces (alts : list jsstring) (ws : jsstring) :
  forallb isSpace ws = true ->
  forall s before, noMatchFrom alts before (s ++ ws) -> noMatchFrom alts before s.
Proof.
  intros Hws. induction s as [|c s IH]; intros before H; [exact I|].
  destruct H as [Hm Hrest]. split.
  - apply (matchAlternatives_app_spaces _ _ _ _ _ Hws Hm).
  - apply IH. exact Hrest.
Qed.

Lemma trimEnd_noMatch (alts : list jsstring) (s : jsstring) :
  noMatchFrom alts None s -> noMatchFrom alts None (trimEnd s).
Proof.
  intros H. destruct (trimEnd_split s) as [ws [Hs Hws]].
  apply (noMatchFrom_without_spaces _ _ Hws). rewrite <- Hs. exact H.
Qed.

End WhitespaceFacts.

Section TidyFacts.
Import Js.

Lemma tidy_head (b : bool) (c : char) (s : jsstring) :
  isSpace c = false -> (tidy b (c :: s) <-> tidy false s).
Proof. intros Hc. simpl. rewrite Hc. reflexivity. Qed.

Lemma collapseRuns_tidy (s : jsstring) : forall inRun, tidy inRun (collapseRuns inRun s).
Proof.
  induction s as [|c s IH]; intros inRun; [exact I|].
  simpl. destruct (isSpace c) eqn:Hc.
  - destruct inRun; [apply IH|].
    change (tidy false (SPACE :: collapseRuns true s))
      with (false = false /\ SPACE = SPACE /\ tidy true (collapseRuns true s)).
    repeat split. apply IH.
  - simpl. rewrite Hc. apply IH.
Qed.

Lemma tidy_collapseRuns (s : jsstring) : forall b, tidy b s -> collapseRuns b s = s.
Proof.
  induction s as [|c s IH]; intros b H; [reflexivity|].
  simpl in *. destruct (isSpace c) eqn:Hc.
  - destruct H as [-> [-> H]]. rewrite (IH true H). reflexivity.
  - rewrite (IH false H). reflexivity.
Qed.

Lemma tidy_trimStart (s : jsstring) : forall b, tidy b s -> tidy false (trimStart s).
Proof.
  induction s as [|c s IH]; intros b H; [exact I|].
  simpl in *. destruct (isSpace c) eqn:Hc.
  - destruct H as [_ [_ H]]. apply (IH true H).
  - simpl. rewrite Hc. exact H.
Qed.

Lemma tidy_app_l (s u : jsstring) : forall b, tidy b (s ++ u) -> tidy b s.
Proof.
  induction s as [|c s IH]; intros b H; [exact I|].
  simpl in *. destruct (isSpace c).
  - destruct H as [Hb [Hc H]]. repeat split; [exact Hb | exact Hc | apply IH; exact H].
  - apply IH. exact H.
Qed.

Lemma tidy_trimEnd (s : jsstring) (b : bool) : tidy b s -> tidy b (trimEnd s).
Proof.
  intros H. destruct (trimEnd_split s) as [ws [Hs _]].
  apply (tidy_app_l _ ws). rewrite <- Hs. exact H.
Qed.

(** No whitespace in front. *)
Lemma trimStart_fixed (s : jsstring) :
  isSpace (hd SPACE s) = false \/ s = [] -> trimStart s = s.
Proof.
  destruct s as [|c s]; [reflexivity|]. simpl.
  intros [H|H]; [rewrite H; reflexivity | discriminate].
Qed.

Lemma trimStart_head (s : jsstring) :
  isSpace (hd SPACE (trimStart s)) = false \/ trimStart s = [].
Proof.
  induction s as [|c s IH]; [right; reflexivity|].
  simpl. destruct (isSpace c) eqn:Hc; [exact IH | left; exact Hc].
Qed.

Lemma trimStart_idempotent (s : jsstring) : trimStart (trimStart s) = trimStart s.
Proof. apply trimStart_fixed, trimStart_head. Qed.

Lemma trimEnd_idempotent (s : jsstring) : trimEnd (trimEnd s) = trimEnd s.
Proof.
  unfold trimEnd. rewrite rev_involutive, trimStart_idempotent. reflexivity.
Qed.

Lemma trimEnd_head (s : jsstring) :
  isSpace (hd SPACE s) = false \/ s = [] ->
  isSpace (hd SPACE (trimEnd s)) = false \/ trimEnd s = [].
Proof.
  intros H. destruct (trimEnd_split s) as [ws [Hs _]].
  destruct (trimEnd s) as [|c t]; [right; reflexivity|].
  left. rewrite Hs in H. simpl in H. destruct H as [H|H]; [exact H | discriminate].
Qed.

Lemma trim_idempotent (s : jsstring) : trim (trim s) = trim s.
Proof.
  unfold trim.
  rewrite (@trimStart_fixed (trimEnd (trimStart s)))
    by (apply trimEnd_head, trimStart_head).
  apply trimEnd_idempotent.
Qed.

End TidyFacts.

(** The scan never runs short of steps: with word-like alternatives every
    match consumes input, and any number of steps from the length of the
    input on gives the same result. *)
Lemma removeFrom_enough_steps (alts : list Js.jsstring) :
  forallb wordLike alts = true ->
  forall n m s before,
    (List.length s <= n)%nat -> (List.length s <= m)%nat ->
    Js.removeFrom alts n before s = Js.removeFrom alts m before s.
Proof.
  intros Hall. induction n as [|n IH]; intros m s before Hn Hm.
  - destruct s; [destruct m; reflexivity | simpl in Hn; lia].
  - destruct s as [|c s']; [destruct m; reflexivity|].
    destruct m as [|m]; [simpl in Hm; lia|].
    simpl in Hn, Hm. cbn [Js.removeFrom].
    destruct (Js.matchAlternatives alts before (c :: s')) as [[l r]|] eqn:Hmatch.
    + destruct (matchAlternatives_inv _ _ _ Hall Hmatch) as [_ [_ [_ [_ [Hshort _]]]]].
      simpl in Hshort. apply IH; lia.
    + f_equal. apply IH; lia.
Qed.

Example sanitizePrompt_example :
  BaseImageProvider.sanitizePrompt
    (Js.codes "  a   Hack  of self-harm and   exploits, NSFW-free ")
  = Js.codes "a of and exploits, -free".
Proof. vm_compute. reflexivity. Qed.

Lemma harmfulPatterns_wordLike :
  forallb (forallb wordLike) BaseImageProvider.harmfulPatterns = true.
Proof. vm_compute. reflexivity. Qed.

(** C10.  [sanitizePrompt] is idempotent: sanitizing a sanitized prompt
    changes nothing. *)
Theorem sanitizePrompt_idempotent (prompt : Js.jsstring) :
  BaseImageProvider.sanitizePrompt (BaseImageProvider.sanitizePrompt prompt)
  = BaseImageProvider.sanitizePrompt prompt.
Proof.
  pose proof harmfulPatterns_wordLike as Hall.
  unfold BaseImageProvider.sanitizePrompt at 2.
  set (patterns := BaseImageProvider.harmfulPatterns) in *.
  set (removed := fold_left (fun s pattern => Js.removeAll pattern s) patterns
                            (Js.collapseSpaces (Js.trim prompt))).
  set (collapsed := Js.collapseSpaces removed).
  set (clean := Js.trim collapsed).
  assert (Hq : forall q, In q patterns -> forallb wordLike q = true)
    by (apply forallb_forall; exact Hall).
  assert (Hno : forall q, In q patterns -> noMatchFrom q None clean).
  { intros q Hin. unfold clean, Js.trim.
    apply trimEnd_noMatch. apply trimStart_noMatch; [exact (Hq q Hin)|].
    unfold collapsed, Js.collapseSpaces.
    apply (@collapseRuns_noMatch q (Hq q Hin) removed false None None);
      [reflexivity | discriminate |].
    apply removeEach_noMatch; [exact Hall | exact Hin]. }
  assert (Htidy : tidy false clean).
  { unfold clean, Js.trim. apply tidy_trimEnd.
    apply (@tidy_trimStart collapsed false). apply collapseRuns_tidy. }
  assert (Htrim : Js.trim clean = clean) by apply trim_idempotent.
  assert (Hcollapse : Js.collapseSpaces clean = clean)
    by (apply tidy_collapseRuns; exact Htidy).
  unfold BaseImageProvider.sanitizePrompt. fold patterns.
  rewrite Htrim, Hcollapse.
  rewrite (@removeEach_fixed patterns clean Hno).
  rewrite Hcollapse. exact Htrim.
Qed.

(* ================================================================== *)
(** * Further properties of the base provider *)
(* ================================================================== *)

Lemma trim_nil_of_nil (s : Js.jsstring) : s = [] -> Js.trim s = [].
Proof. intros ->. reflexivity. Qed.

(** The requests on which [validateRequest] returns. *)
Lemma validateRequest_acceptable
      (this : BaseImageProvider.t) (request : ImageGenerationRequest) :
  BaseImageProvider.validateRequest this request = Returned tt <-> acceptable request.
Proof.
  unfold BaseImageProvider.validateRequest, acceptable.
  assert (Hblank : (match prompt request with [] => true | _ => false end
                    || (Js.length (Js.trim (prompt request)) =? 0)) = true
                   <-> Js.trim (prompt request) = []).
  { split.
    - intros H. apply orb_prop in H. destruct H as [H|H].
      + destruct (prompt request); [reflexivity | discriminate].
      + apply Z.eqb_eq in H. unfold Js.length in H.
        destruct (Js.trim (prompt request)); [reflexivity | simpl in H; lia].
    - intros H. rewrite H. simpl. apply orb_true_r. }
  destruct (match prompt request with [] => true | _ => false end
            || (Js.length (Js.trim (prompt request)) =? 0)) eqn:Hb.
  { split; [discriminate|]. intros [Hp _]. exfalso. apply Hp, Hblank. reflexivity. }
  assert (Hp : Js.trim (prompt request) <> []).
  { intros H. apply Hblank in H. discriminate. }
  destruct (Js.length (prompt request) >? 4000) eqn:Hlen.
  { split; [discriminate|]. intros [_ [Hl _]].
    rewrite Z.gtb_ltb in Hlen. apply Z.ltb_lt in Hlen. lia. }
  rewrite Z.gtb_ltb in Hlen. apply Z.ltb_ge in Hlen.
  destruct (count request) as [n|].
  + destruct (negb (n =? 0) && ((n <? 1) || (n >? 10))) eqn:Hc.
    { split; [discriminate|]. intros [_ [_ [Hn _]]].
      apply andb_prop in Hc. destruct Hc as [Hz Hr].
      apply negb_true_iff, Z.eqb_neq in Hz.
      rewrite Z.gtb_ltb in Hr. apply orb_prop in Hr.
      rewrite !Z.ltb_lt in Hr. lia. }
    assert (Hn : n = 0 \/ 1 <= n <= 10).
    { apply andb_false_iff in Hc. destruct Hc as [Hz|Hr].
      - apply negb_false_iff, Z.eqb_eq in Hz. left. exact Hz.
      - rewrite Z.gtb_ltb in Hr. apply orb_false_elim in Hr.
        rewrite !Z.ltb_ge in Hr. right. lia. }
    destruct (dimensions request) as [d|]; [|tauto].
    destruct ((width d <? 64) || (width d >? 2048) || (height d <? 64)
              || (height d >? 2048)) eqn:Hrange.
    { split; [discriminate|]. intros [_ [_ [_ Hd]]].
      rewrite !Z.gtb_ltb in Hrange.
      repeat (apply orb_prop in Hrange; destruct Hrange as [Hrange|Hrange]);
        apply Z.ltb_lt in Hrange; lia. }
    rewrite !Z.gtb_ltb in Hrange.
    repeat (apply orb_false_elim in Hrange; destruct Hrange as [Hrange ?]).
    repeat match goal with H : (_ <? _) = false |- _ => apply Z.ltb_ge in H end.
    assert (Hh : 0 < height d) by lia.
    destruct (BaseImageProvider.Qltb (BaseImageProvider.aspectRatio d) (1 # 4)) eqn:Hlo.
    { apply (aspectRatio_below d Hh) in Hlo. split; [discriminate|]. lia. }
    destruct (BaseImageProvider.Qltb (4 # 1) (BaseImageProvider.aspectRatio d)) eqn:Hhi.
    { apply (aspectRatio_above d Hh) in Hhi. split; [discriminate|]. lia. }
    assert (Hlo' : ~ 4 * width d < height d).
    { intros Hlt. apply (aspectRatio_below d Hh) in Hlt. congruence. }
    assert (Hhi' : ~ 4 * height d < width d).
    { intros Hlt. apply (aspectRatio_above d Hh) in Hlt. congruence. }
    cbv iota. split; [intros _|reflexivity]. repeat split; try assumption; lia.
  + destruct (dimensions request) as [d|]; [|tauto].
    destruct ((width d <? 64) || (width d >? 2048) || (height d <? 64)
              || (height d >? 2048)) eqn:Hrange.
    { split; [discriminate|]. intros [_ [_ [_ Hd]]].
      rewrite !Z.gtb_ltb in Hrange.
      repeat (apply orb_prop in Hrange; destruct Hrange as [Hrange|Hrange]);
        apply Z.ltb_lt in Hrange; lia. }
    rewrite !Z.gtb_ltb in Hrange.
    repeat (apply orb_false_elim in Hrange; destruct Hrange as [Hrange ?]).
    repeat match goal with H : (_ <? _) = false |- _ => apply Z.ltb_ge in H end.
    assert (Hh : 0 < height d) by lia.
    destruct (BaseImageProvider.Qltb (BaseImageProvider.aspectRatio d) (1 # 4)) eqn:Hlo.
    { apply (aspectRatio_below d Hh) in Hlo. split; [discriminate|]. lia. }
    destruct (BaseImageProvider.Qltb (4 # 1) (BaseImageProvider.aspectRatio d)) eqn:Hhi.
    { apply (aspectRatio_above d Hh) in Hhi. split; [discriminate|]. lia. }
    assert (Hlo' : ~ 4 * width d < height d).
    { intros Hlt. apply (aspectRatio_below d Hh) in Hlt. congruence. }
    assert (Hhi' : ~ 4 * height d < width d).
    { intros Hlt. apply (aspectRatio_above d Hh) in Hlt. congruence. }
    cbv iota. split; [intros _|reflexivity]. repeat split; try assumption; lia.
Qed.

(** X1.  [validateRequest] returns normally exactly on the acceptable
    requests: the prompt is not blank and has at most 4000 code units, a
    count is 0 or between 1 and 10, and dimensions lie between 64 and 2048
    with a ratio between 1 : 4 and 4 : 1.  On every other request it throws
    a [ProviderError] of this provider whose code is INVALID_REQUEST and
    that carries no HTTP status. *)
Theorem validateRequest_accepts_iff
        (this : BaseImageProvider.t) (request : ImageGenerationRequest) :
  (BaseImageProvider.validateRequest this request = Returned tt <-> acceptable request) /\
  (forall e, BaseImageProvider.validateRequest this request = Threw e ->
             errCode e = Some "INVALID_REQUEST"%string /\
             errProvider e = Some (BaseImageProvider.name this) /\
             errStatus e = None).
Proof.
  split; [apply validateRequest_acceptable|].
  intros e. unfold BaseImageProvider.validateRequest.
  repeat match goal with
         | |- context [if ?b then _ else _] => destruct b
         | |- context [match dimensions request with Some _ => _ | None => _ end] =>
             destruct (dimensions request)
         end;
    intros H; try discriminate H; injection H as <-; repeat split.
Qed.

Section RetryOutcomes.
Variables W T : Type.
Variable this : BaseImageProvider.t.
Variable operation : BaseImageProvider.Operation W T.
Variable operationName : string.

Import BaseImageProvider.

Lemma attemptError_none (a : Attempt T) :
  attemptError this operationName a = None -> exists v, a = Resolves v.
Proof. destruct a as [v| |]; simpl; try discriminate. intros _. exists v. reflexivity. Qed.

(** The loop from any iteration on: the operation is started at most once
    per iteration left, and the sleeps are the backoff delays of the failed
    attempts that were followed by another attempt. *)
Lemma retryLoop_schedule (remaining : nat) : forall attempt lastError w,
  (attempt + remaining = S (retryAttempts this))%nat ->
  let run := retryLoop this operation operationName remaining attempt lastError w in
  (invocations (eventsOf run) <= remaining)%nat /\
  sleeps (eventsOf run)
  = map (backoff this) (seq attempt (invocations (eventsOf run) - 1)).
Proof.
  induction remaining as [|remaining IH]; intros attempt lastError w Hsum run.
  - subst run. simpl. split; [lia | reflexivity].
  - subst run.
    destruct (attemptError this operationName (fst (operation w))) as [e|] eqn:He.
    + destruct (isClientError e) eqn:Hc.
      * rewrite (retryLoop_client_error _ _ _ _ _ _ _ He Hc). simpl.
        split; [lia | reflexivity].
      * rewrite (retryLoop_other_error _ _ _ _ _ _ _ He Hc).
        destruct (IH (S attempt) (Some e) (snd (operation w))) as [Hle Hs]; [lia|].
        assert (Hinv : remaining <> O ->
                  (1 <= invocations (eventsOf (retryLoop this operation operationName
                          remaining (S attempt) (Some e) (snd (operation w)))))%nat).
        { destruct remaining as [|remaining']; [congruence|]. intros _.
          apply retryLoop_invokes. }
        remember (retryLoop this operation operationName remaining (S attempt) (Some e)
                            (snd (operation w))) as next eqn:Hnext.
        clear Hnext. unfold eventsOf in *. cbn [snd].
        cbn [invocations sleeps]. rewrite invocations_app, sleeps_app, Hs.
        destruct (attempt <? retryAttempts this)%nat eqn:Hlt.
        -- apply Nat.ltb_lt in Hlt. assert (Hr : remaining <> O) by lia.
           specialize (Hinv Hr). cbn [invocations sleeps app Nat.add].
           split; [lia|].
           destruct (invocations (snd next)) as [|k]; [lia|].
           simpl. rewrite Nat.sub_0_r. reflexivity.
        -- apply Nat.ltb_ge in Hlt. assert (Hr : remaining = O) by lia.
           cbn [invocations sleeps app Nat.add].
           assert (Hz : invocations (snd next) = O) by lia.
           rewrite Hz. simpl. split; [lia | reflexivity].
    + destruct (attemptError_none _ He) as [v Hv].
      rewrite (retryLoop_resolves _ _ _ _ _ _ _ Hv). simpl.
      split; [lia | reflexivity].
Qed.

(** How the loop can end, and after which attempt. *)
Lemma retryLoop_outcomes (remaining : nat) : forall attempt lastError w,
  let run := retryLoop this operation operationName remaining attempt lastError w in
  match outcomeOf run with
  | Returned v =>
      exists k, (k < remaining)%nat /\ invocations (eventsOf run) = S k /\
                fst (operation (worldAfter operation k w)) = Resolves v /\
                worldOf run = worldAfter operation (S k) w
  | Threw e =>
      (exists k, (k < remaining)%nat /\ invocations (eventsOf run) = S k /\
                 attemptError this operationName
                   (fst (operation (worldAfter operation k w))) = Some e /\
                 isClientError e = true) \/
      (invocations (eventsOf run) = remaining /\
       exists last, e = exhausted this operationName last /\
                    (remaining = O -> last = lastError) /\
                    (forall k, remaining = S k ->
                               last = attemptError this operationName
                                        (fst (operation (worldAfter operation k w)))))
  end.
Proof.
  induction remaining as [|remaining IH]; intros attempt lastError w run.
  - subst run. simpl. right. split; [reflexivity|].
    exists lastError. repeat split. intros k Hk. discriminate.
  - subst run.
    destruct (attemptError this operationName (fst (operation w))) as [e|] eqn:He.
    + destruct (isClientError e) eqn:Hc.
      * rewrite (retryLoop_client_error _ _ _ _ _ _ _ He Hc). simpl.
        left. exists 0%nat. repeat split; [lia | exact He | exact Hc].
      * rewrite (retryLoop_other_error _ _ _ _ _ _ _ He Hc).
        unfold outcomeOf at 1, eventsOf at 1 2 3, worldOf at 1. simpl fst. simpl snd.
        specialize (IH (S attempt) (Some e) (snd (operation w))).
        cbv zeta in IH.
        assert (Hinv : forall t,
                  invocations (EvOperation (name this) operationName
                               :: (if (attempt <? retryAttempts this)%nat
                                   then [EvSleep (backoff this attempt)] else []) ++ t)
                  = S (invocations t)).
        { intros t. simpl. rewrite invocations_app.
          destruct (attempt <? retryAttempts this)%nat; reflexivity. }
        rewrite !Hinv.
        destruct (outcomeOf (retryLoop this operation operationName remaining
                               (S attempt) (Some e) (snd (operation w)))) as [v|e'].
        -- destruct IH as [k [Hk [Hi [Hv Hw]]]].
           exists (S k). repeat split; [lia | (unfold eventsOf, worldOf in *; simpl in *; congruence) | exact Hv | (unfold eventsOf, worldOf in *; simpl in *; congruence)].
        -- destruct IH as [[k [Hk [Hi [He' Hc']]]] | [Hi [last [Hlast [H0 HS]]]]].
           ++ left. exists (S k). repeat split; [lia | (unfold eventsOf, worldOf in *; simpl in *; congruence) | exact He' | exact Hc'].
           ++ right. split; [(unfold eventsOf, worldOf in *; simpl in *; congruence)|]. exists last. split; [exact Hlast|].
              split; [discriminate|]. intros k [= ->].
              destruct k as [|k'].
              ** rewrite (H0 eq_refl). simpl. symmetry. exact He.
              ** apply (HS k' eq_refl).
    + destruct (attemptError_none _ He) as [v Hv].
      rewrite (retryLoop_resolves _ _ _ _ _ _ _ Hv). simpl.
      exists 0%nat. repeat split; [lia | exact Hv].
Qed.

End RetryOutcomes.


(** X3.  [executeWithRetry] ends in one of three ways.  It returns [v]:
    then the last attempt started resolved with [v].  It throws a client
    error: then that is the error of the last attempt started, thrown as it
    is.  Or it throws OPERATION_FAILED after exactly [retryAttempts]
    attempts, with the error of the last attempt in its details.  In
    particular an attempt's TIMEOUT, or any other error that is not a
    client error, never reaches the caller as such. *)
Theorem executeWithRetry_outcomes
        (W T : Type) (this : BaseImageProvider.t)
        (operation : BaseImageProvider.Operation W T) (operationName : string) (w : W) :
  let maxAttempts := BaseImageProvider.retryAttempts this in
  let run := BaseImageProvider.executeWithRetry this operation operationName w in
  match outcomeOf run with
  | Returned v =>
      exists k, (k < maxAttempts)%nat /\ invocations (eventsOf run) = S k /\
                fst (operation (worldAfter operation k w)) = BaseImageProvider.Resolves v
  | Threw e =>
      (exists k, (k < maxAttempts)%nat /\ invocations (eventsOf run) = S k /\
                 attemptError this operationName
                   (fst (operation (worldAfter operation k w))) = Some e /\
                 clientError e) \/
      (invocations (eventsOf run) = maxAttempts /\
       errCode e = Some "OPERATION_FAILED"%string /\
       errStatus e = None /\
       errDetails e
       = match maxAttempts with
         | O => None
         | S k => attemptError this operationName
                    (fst (operation (worldAfter operation k w)))
         end)
  end.
Proof.
  intros maxAttempts run. subst run maxAttempts.
  unfold BaseImageProvider.executeWithRetry.
  pose proof (retryLoop_outcomes this operation operationName
                (BaseImageProvider.retryAttempts this) 1%nat None w) as H.
  cbv zeta in H.
  destruct (outcomeOf (BaseImageProvider.retryLoop this operation operationName
                         (BaseImageProvider.retryAttempts this) 1 None w)) as [v|e].
  - destruct H as [k [Hk [Hi [Hv _]]]]. exists k. repeat split; assumption.
  - destruct H as [[k [Hk [Hi [He Hc]]]] | [Hi [last [-> [H0 HS]]]]].
    + left. exists k. repeat split; try assumption. apply isClientError_spec. exact Hc.
    + right. split; [exact Hi|]. repeat split.
      destruct (BaseImageProvider.retryAttempts this) as [|k].
      * simpl. apply H0. reflexivity.
      * simpl. apply (HS k). reflexivity.
Qed.

Section RetryRecovery.
Variables W T : Type.
Variable this : BaseImageProvider.t.
Variable operation : BaseImageProvider.Operation W T.
Variable operationName : string.

Import BaseImageProvider.

Lemma retryLoop_recovers (k : nat) : forall remaining attempt lastError w v,
  (k < remaining)%nat ->
  (forall i, (i < k)%nat ->
     exists e, attemptError this operationName
                 (fst (operation (worldAfter operation i w))) = Some e /\
               isClientError e = false) ->
  fst (operation (worldAfter operation k w)) = Resolves v ->
  let run := retryLoop this operation operationName remaining attempt lastError w in
  outcomeOf run = Returned v /\ invocations (eventsOf run) = S k.
Proof.
  induction k as [|k IH]; intros remaining attempt lastError w v Hk Hfail Hok run;
    subst run; (destruct remaining as [|remaining]; [lia|]).
  - simpl in Hok. rewrite (retryLoop_resolves _ _ _ _ _ _ _ Hok). split; reflexivity.
  - destruct (Hfail 0%nat) as [e [He Hc]]; [lia|]. simpl in He.
    rewrite (retryLoop_other_error _ _ _ _ _ _ _ He Hc).
    destruct (IH remaining (S attempt) (Some e) (snd (operation w)) v) as [Ho Hi].
    + lia.
    + intros i Hi. apply (Hfail (S i)). lia.
    + exact Hok.
    + split; [exact Ho|].
      unfold eventsOf in *. cbn [snd].
      destruct (attempt <? retryAttempts this)%nat; cbn [invocations app];
        rewrite Hi; reflexivity.
Qed.

End RetryRecovery.

(** X4.  When the first [k] attempts fail with errors that are not client
    errors and the next attempt resolves with [v], with [k] below
    [retryAttempts], [executeWithRetry] returns [v] after [k + 1] starts
    of the operation and [k] backoff sleeps. *)
Theorem executeWithRetry_recovers
        (W T : Type) (this : BaseImageProvider.t)
        (operation : BaseImageProvider.Operation W T) (operationName : string)
        (w : W) (k : nat) (v : T) :
  (k < BaseImageProvider.retryAttempts this)%nat ->
  (forall i, (i < k)%nat ->
     exists e, attemptError this operationName
                 (fst (operation (worldAfter operation i w))) = Some e /\
               ~ clientError e) ->
  fst (operation (worldAfter operation k w)) = BaseImageProvider.Resolves v ->
  let run := BaseImageProvider.executeWithRetry this operation operationName w in
  outcomeOf run = Returned v /\
  invocations (eventsOf run) = S k /\
  sleeps (eventsOf run)
  = map (fun n => BaseImageProvider.retryDelay this * 2 ^ (Z.of_nat n - 1)) (seq 1 k).
Proof.
  intros Hk Hfail Hok run. subst run. unfold BaseImageProvider.executeWithRetry.
  destruct (@retryLoop_recovers W T this operation operationName k
              (BaseImageProvider.retryAttempts this) 1%nat None w v Hk) as [Ho Hi].
  - intros i Hi. destruct (Hfail i Hi) as [e [He Hc]]. exists e. split; [exact He|].
    destruct (BaseImageProvider.isClientError e) eqn:Hce; [|reflexivity].
    exfalso. apply Hc, isClientError_spec. exact Hce.
  - exact Hok.
  - split; [exact Ho|]. split; [exact Hi|].
    destruct (retryLoop_schedule this operation operationName
                (BaseImageProvider.retryAttempts this) 1%nat None w) as [_ Hs]; [lia|].
    rewrite Hs, Hi. simpl Nat.sub. rewrite Nat.sub_0_r.
    apply map_ext_in. intros n Hn. apply in_seq in Hn.
    unfold BaseImageProvider.backoff. f_equal. f_equal. lia.
Qed.

Lemma executeWithRetry_recovers_witness :
  let run := BaseImageProvider.executeWithRetry Sample.chatgptBase
               SampleOperations.flaky "generate image" 0%nat in
  outcomeOf run = Returned (SampleProviders.okResult "chatgpt") /\
  invocations (eventsOf run) = 3%nat /\
  sleeps (eventsOf run) = [1000; 2000].
Proof.
  apply (@executeWithRetry_recovers nat ImageGenerationResult Sample.chatgptBase
           SampleOperations.flaky "generate image"%string 0%nat 2%nat
           (SampleProviders.okResult "chatgpt")).
  - apply Nat.ltb_lt. reflexivity.
  - intros i Hi. exists (BaseImageProvider.createError Sample.chatgptBase
                           "RATE_LIMIT_EXCEEDED" "API rate limit exceeded" None).
    split.
    + destruct i as [|[|i]]; [reflexivity | reflexivity |].
      exfalso. apply Nat.ltb_lt in Hi. vm_compute in Hi. discriminate Hi.
    + intros [[status [Hs _]] | [code [Hc Hin]]].
      * discriminate Hs.
      * injection Hc as <-. simpl in Hin.
        repeat (destruct Hin as [Hin|Hin]; [discriminate Hin|]). exact Hin.
  - reflexivity.
Defined.

(* ================================================================== *)
(** * Properties of the parameters sent to DALL-E *)
(* ================================================================== *)

Lemma string_of_uint_no_x (d : Decimal.uint) :
  occursIn "x" (NilEmpty.string_of_uint d) = false.
Proof. induction d; simpl; try reflexivity; exact IHd. Qed.

Lemma showZ_no_x (z : Z) : occursIn "x" (Js.showZ z) = false.
Proof.
  unfold Js.showZ, Js.showNat. destruct (z <? 0); simpl; apply string_of_uint_no_x.
Qed.

Lemma showNat_inj (a b : nat) : Js.showNat a = Js.showNat b -> a = b.
Proof.
  unfold Js.showNat. intros H. apply DecimalNat.Unsigned.to_uint_inj.
  pose proof (NilEmpty.usu (Nat.to_uint a)) as Ha.
  pose proof (NilEmpty.usu (Nat.to_uint b)) as Hb.
  rewrite H in Ha. congruence.
Qed.

Lemma showNat_not_minus (a : nat) (s : string) : Js.showNat a <> String "-" s.
Proof. unfold Js.showNat. destruct (Nat.to_uint a); simpl; discriminate. Qed.

Lemma showZ_inj (a b : Z) : Js.showZ a = Js.showZ b -> a = b.
Proof.
  unfold Js.showZ.
  destruct (a <? 0) eqn:Ha; destruct (b <? 0) eqn:Hb; intros H.
  - injection H as H. apply showNat_inj in H.
    apply Z.ltb_lt in Ha, Hb. lia.
  - symmetry in H. apply showNat_not_minus in H. destruct H.
  - apply showNat_not_minus in H. destruct H.
  - apply showNat_inj in H. apply Z.ltb_ge in Ha, Hb. lia.
Qed.

Lemma append_x_inj (a a' b b' : string) :
  occursIn "x" a = false -> occursIn "x" a' = false ->
  (a ++ String "x" b = a' ++ String "x" b')%string ->
  a = a' /\ b = b'.
Proof.
  revert a'. induction a as [|c a IH]; intros [|c' a'] Ha Ha' H; simpl in *.
  - injection H as H. split; [reflexivity | exact H].
  - injection H as Hc _. subst c'. simpl in Ha'. discriminate.
  - injection H as Hc _. subst c. simpl in Ha. discriminate.
  - injection H as Hc H. subst c'.
    apply orb_false_elim in Ha. apply orb_false_elim in Ha'.
    destruct (IH a' (proj2 Ha) (proj2 Ha') H) as [-> ->]. split; reflexivity.
Qed.

Lemma requestedSize_inj (d d' : ImageDimensions) :
  ChatGPTParams.requestedSize d = ChatGPTParams.requestedSize d' ->
  width d = width d' /\ height d = height d'.
Proof.
  unfold ChatGPTParams.requestedSize. intros H.
  apply append_x_inj in H; [|apply showZ_no_x|apply showZ_no_x].
  destruct H as [Hw Hh]. split; apply showZ_inj; assumption.
Qed.

(** The size only depends on the orientation. *)
Lemma mapDimensionsToSize_orientation (d : ImageDimensions) :
  ChatGPTParams.mapDimensionsToSize d
  = if width d =? height d then "1024x1024"%string
    else if height d <? width d then "1792x1024"%string
    else "1024x1792"%string.
Proof.
  unfold ChatGPTParams.mapDimensionsToSize. rewrite Z.gtb_ltb.
  destruct (existsb (String.eqb (ChatGPTParams.requestedSize d))
                    ChatGPTParams.supportedSizes) eqn:Hin; [|reflexivity].
  apply existsb_eqb_In in Hin.
  assert (Hd : exists d', In d' ChatGPTParams.getSupportedDimensions /\
                          ChatGPTParams.requestedSize d = ChatGPTParams.requestedSize d').
  { simpl in Hin. destruct Hin as [H|[H|[H|[]]]]; rewrite <- H.
    - exists {| width := 1024; height := 1024 |}. split; [simpl; tauto | reflexivity].
    - exists {| width := 1024; height := 1792 |}. split; [simpl; tauto | reflexivity].
    - exists {| width := 1792; height := 1024 |}. split; [simpl; tauto | reflexivity]. }
  destruct Hd as [d' [Hd' Heq]]. rewrite Heq.
  apply requestedSize_inj in Heq. destruct Heq as [Hw Hh]. rewrite Hw, Hh.
  simpl in Hd'. destruct Hd' as [<-|[<-|[<-|[]]]]; reflexivity.
Qed.

(** X5.  [mapDimensionsToSize] only looks at the orientation: a square goes
    to 1024x1024, a landscape format to 1792x1024 and a portrait format to
    1024x1792, also when the requested size is itself a supported one.  The
    result is therefore always one of the three supported sizes. *)
Theorem mapDimensionsToSize_supported (d : ImageDimensions) :
  In (ChatGPTParams.mapDimensionsToSize d) ChatGPTParams.supportedSizes /\
  (width d = height d -> ChatGPTParams.mapDimensionsToSize d = "1024x1024"%string) /\
  (height d < width d -> ChatGPTParams.mapDimensionsToSize d = "1792x1024"%string) /\
  (width d < height d -> ChatGPTParams.mapDimensionsToSize d = "1024x1792"%string).
Proof.
  rewrite mapDimensionsToSize_orientation.
  destruct (width d =? height d) eqn:He.
  - apply Z.eqb_eq in He. repeat split; try (intros; lia). simpl. tauto.
  - apply Z.eqb_neq in He. destruct (height d <? width d) eqn:Hl.
    + apply Z.ltb_lt in Hl. repeat split; try (intros; lia). simpl. tauto.
    + apply Z.ltb_ge in Hl. repeat split; try (intros; lia). simpl. tauto.
Qed.

(** X6.  For a request that [validateRequest] lets through, the number of
    images asked of DALL-E is the smaller of the requested count and the
    maximum that goes with [config.model] (1 when [config.model] is
    dall-e-3, 10 otherwise); an absent count and a count of 0 stand for 1,
    and ask for one image.  The number lies between 1 and that maximum and
    never above a requested count other than 0.  The size is a supported
    one.  The style parameter is sent exactly when [config.model] is
    dall-e-3.  The model sent is [config.model], and dall-e-3 when
    [config.model] is absent or empty: in that case the maximum is 10 and
    no style parameter is sent, although the model sent is dall-e-3. *)
Theorem dalleParams_within_limits
        (this : BaseImageProvider.t) (config : ChatGPTParams.ChatGPTConfig)
        (request : ImageGenerationRequest) (styledPrompt : Js.jsstring)
        (requestId : string) :
  BaseImageProvider.validateRequest this request = Returned tt ->
  let params := ChatGPTParams.dalleParams config request styledPrompt requestId in
  1 <= ChatGPTParams.n params <= ChatGPTParams.getMaxImageCount config /\
  ChatGPTParams.getMaxImageCount config <= 10 /\
  (forall c, count request = Some c -> c <> 0 -> ChatGPTParams.n params <= c) /\
  (count request = Some 0 -> ChatGPTParams.n params = 1) /\
  In (ChatGPTParams.size params) ChatGPTParams.supportedSizes /\
  (ChatGPTParams.paramStyle params <> None <->
   ChatGPTParams.model config = Some "dall-e-3"%string) /\
  (count request = None -> ChatGPTParams.n params = 1) /\
  (forall c, count request = Some c -> c <> 0 ->
             ChatGPTParams.n params = Z.min c (ChatGPTParams.getMaxImageCount config)) /\
  (ChatGPTParams.model config = Some "dall-e-3"%string ->
   ChatGPTParams.getMaxImageCount config = 1) /\
  (ChatGPTParams.model config <> Some "dall-e-3"%string ->
   ChatGPTParams.getMaxImageCount config = 10) /\
  (forall m, ChatGPTParams.model config = Some m -> m <> ""%string ->
             ChatGPTParams.paramModel params = m) /\
  (ChatGPTParams.model config = None \/ ChatGPTParams.model config = Some ""%string ->
   ChatGPTParams.paramModel params = "dall-e-3"%string /\
   ChatGPTParams.paramStyle params = None /\
   ChatGPTParams.getMaxImageCount config = 10).
Proof.
  intros Hvalid params. subst params.
  assert (Hcount : match count request with
                   | None => True
                   | Some c => c = 0 \/ 1 <= c <= 10
                   end).
  { unfold BaseImageProvider.validateRequest in Hvalid.
    destruct (_ || _); [discriminate|].
    destruct (Js.length (prompt request) >? 4000); [discriminate|].
    destruct (count request) as [c|]; [|exact I].
    destruct (negb (c =? 0) && ((c <? 1) || (c >? 10))) eqn:Hc; [discriminate|].
    apply andb_false_iff in Hc. destruct Hc as [Hz|Hr].
    - apply negb_false_iff, Z.eqb_eq in Hz. left. exact Hz.
    - rewrite Z.gtb_ltb in Hr. apply orb_false_elim in Hr.
      rewrite !Z.ltb_ge in Hr. right. lia. }
  assert (Hmax : ChatGPTParams.getMaxImageCount config = 1
                 \/ ChatGPTParams.getMaxImageCount config = 10).
  { unfold ChatGPTParams.getMaxImageCount.
    destruct (ChatGPTParams.model config) as [m|]; [destruct (String.eqb m "dall-e-3")|];
      tauto. }
  unfold ChatGPTParams.dalleParams. cbn [ChatGPTParams.n ChatGPTParams.size
                                          ChatGPTParams.paramStyle
                                          ChatGPTParams.paramModel].
  unfold ChatGPTParams.countOrOne.
  split; [split|]; [| |split; [|split; [|split; [|split; [|split; [|split; [|split;
    [|split; [|split; [|split]]]]]]]]]].
  - destruct (count request) as [c|]; [destruct (c =? 0) eqn:Hz|]; lia.
  - apply Z.le_min_r.
  - lia.
  - intros c Hc Hnz. rewrite Hc.
    assert (Hz : (c =? 0) = false) by (apply Z.eqb_neq; exact Hnz).
    rewrite Hz. apply Z.le_min_l.
  - intros Hc. rewrite Hc. simpl. lia.
  - destruct (dimensions request) as [d|]; [|simpl; tauto].
    rewrite mapDimensionsToSize_orientation.
    destruct (width d =? height d); [simpl; tauto|].
    destruct (height d <? width d); simpl; tauto.
  - split.
    + destruct (ChatGPTParams.model config) as [m|]; [|congruence].
      destruct (String.eqb m "dall-e-3") eqn:Hm; [|congruence].
      intros _. apply String.eqb_eq in Hm. congruence.
    + intros Hm. rewrite Hm. simpl. discriminate.
  - intros Hc. rewrite Hc. lia.
  - intros c Hc Hnz. rewrite Hc.
    assert (Hz : (c =? 0) = false) by (apply Z.eqb_neq; exact Hnz).
    rewrite Hz. reflexivity.
  - intros Hm. unfold ChatGPTParams.getMaxImageCount. rewrite Hm. reflexivity.
  - intros Hm. unfold ChatGPTParams.getMaxImageCount.
    destruct (ChatGPTParams.model config) as [m|]; [|reflexivity].
    destruct (String.eqb_spec m "dall-e-3") as [->|Hne]; [congruence | reflexivity].
  - intros m Hm Hne. rewrite Hm. unfold ChatGPTParams.orString.
    apply String.eqb_neq in Hne. rewrite Hne. reflexivity.
  - unfold ChatGPTParams.getMaxImageCount.
    intros [Hm|Hm]; rewrite Hm; repeat split.
Qed.

Lemma dalleParams_within_limits_witness :
  let params := ChatGPTParams.dalleParams
                  {| ChatGPTParams.model := Some "dall-e-3"%string |}
                  (Sample.redBicycle (Some 0) (Some {| width := 512; height := 768 |}))
                  (Js.codes "a red bicycle") "req-1" in
  ChatGPTParams.n params = 1 /\
  In (ChatGPTParams.size params) ChatGPTParams.supportedSizes.
Proof.
  destruct (dalleParams_within_limits Sample.chatgptBase
              {| ChatGPTParams.model := Some "dall-e-3"%string |}
              (Sample.redBicycle (Some 0) (Some {| width := 512; height := 768 |}))
              (Js.codes "a red bicycle") "req-1")
    as [_ [_ [_ [Hzero [Hsize _]]]]].
  - vm_compute. reflexivity.
  - split; [apply Hzero; reflexivity | exact Hsize].
Defined.

(* ================================================================== *)
(** * Properties of the error handler *)
(* ================================================================== *)

Lemma orElse_default (a : option string) (d : string) :
  d <> ""%string ->
  exists m, ErrorHandler.orElse a (Some d) = Some m /\ m <> ""%string.
Proof.
  intros Hd. destruct a as [s|]; simpl.
  - destruct (String.eqb_spec s "") as [->|Hs]; eauto.
  - eauto.
Qed.

Lemma isCode_true (x : option string) (s : string) :
  ErrorHandler.isCode x s = true <-> x = Some s.
Proof.
  destruct x as [c|]; simpl; [|split; discriminate].
  rewrite String.eqb_eq. split; congruence.
Qed.

Lemma isStatus_true (x : option Z) (n : Z) :
  ErrorHandler.isStatus x n = true <-> x = Some n.
Proof.
  destruct x as [c|]; simpl; [|split; discriminate].
  rewrite Z.eqb_eq. split; congruence.
Qed.

(** X7. Whatever is thrown and whichever provider it is attributed to,
    the error that [handle] builds from a foreign exception is flagged
    retryable exactly when its code is one of the retryable codes
    (TIMEOUT, SERVICE_UNAVAILABLE, NETWORK_ERROR, RATE_LIMIT_EXCEEDED): the
    flags written out in the handlers never disagree with the default of
    the constructor, and the tool response carries the same flag and code. *)
Theorem handle_retryable_by_code
        (now : Z) (error : ErrorHandler.RawError) (prov : string)
        (reqId : option string) :
  let e := ErrorHandler.handle now (ErrorHandler.Other error) prov reqId in
  ErrorHandler.retryable e
    = ImageGenerationError.isRetryableByCode (ErrorHandler.codeString (ErrorHandler.code e)) /\
  ErrorHandler.responseRetryable (ErrorHandler.toToolResponse e)
    = ImageGenerationError.isRetryableByCode
        (ErrorHandler.responseCode (ErrorHandler.toToolResponse e)) /\
  ErrorHandler.responseSuccess (ErrorHandler.toToolResponse e) = false.
Proof.
  cbv zeta.
  assert (H : ErrorHandler.retryable
                (ErrorHandler.handle now (ErrorHandler.Other error) prov reqId)
              = ImageGenerationError.isRetryableByCode
                  (ErrorHandler.codeString
                     (ErrorHandler.code
                        (ErrorHandler.handle now (ErrorHandler.Other error) prov reqId)))).
  { unfold ErrorHandler.handle, ErrorHandler.handleOpenAIError,
      ErrorHandler.handleHuggingFaceError.
    repeat match goal with
           | |- context [if ?b then _ else _] => destruct b
           end; reflexivity. }
  split; [exact H|]. split; [exact H|reflexivity].
Qed.

(** X8. The message shown to the user is never missing or empty, and it
    repeats text of the foreign exception only under the code
    OPERATION_FAILED: under any other code it is fixed by the code and
    the provider alone. *)
Theorem handle_userFriendly
        (now : Z) (error : ErrorHandler.RawError) (prov : string)
        (reqId : option string) :
  let e := ErrorHandler.handle now (ErrorHandler.Other error) prov reqId in
  (exists m, ErrorHandler.userFriendly e = Some m /\ m <> ""%string) /\
  (ErrorHandler.code e <> ErrorHandler.OPERATION_FAILED ->
   forall (now' : Z) (error' : ErrorHandler.RawError) (reqId' : option string),
     let e' := ErrorHandler.handle now' (ErrorHandler.Other error') prov reqId' in
     ErrorHandler.code e' = ErrorHandler.code e ->
     ErrorHandler.userFriendly e' = ErrorHandler.userFriendly e).
Proof.
  cbv zeta. split.
  - unfold ErrorHandler.handle, ErrorHandler.handleOpenAIError,
      ErrorHandler.handleHuggingFaceError.
    repeat match goal with
           | |- context [if ?b then _ else _] => destruct b
           end; cbn;
      try (eexists; split; [reflexivity|discriminate]);
      apply orElse_default; discriminate.
  - unfold ErrorHandler.handle, ErrorHandler.handleOpenAIError,
      ErrorHandler.handleHuggingFaceError.
    destruct (String.eqb prov "chatgpt"); [|destruct (String.eqb prov "huggingface")];
      repeat match goal with
             | |- context [if ?b then _ else _] => destruct b
             end; cbn; intros Hcode now' error' reqId';
        try (exfalso; apply Hcode; reflexivity);
        repeat match goal with
               | |- context [if ?b then _ else _] => destruct b
               end; cbn; intros Heq; try discriminate Heq; reflexivity.
Qed.

(** X9. Which failures the handler lets a caller retry.  For the provider
    "chatgpt" the API's error code is read before the HTTP status: the
    error is retryable exactly for the code rate_limit_exceeded, or for
    status 503 when the code is none of the four known ones.  For
    "huggingface" it is retryable exactly for status 429 or 503.  For any
    other provider it is retryable exactly for the socket codes ENOTFOUND,
    ECONNREFUSED and ETIMEDOUT, which the two named providers never
    consult. *)
Theorem handle_retryable_iff
        (now : Z) (error : ErrorHandler.RawError) (prov : string)
        (reqId : option string) :
  ErrorHandler.retryable
    (ErrorHandler.handle now (ErrorHandler.Other error) prov reqId) = true <->
  if String.eqb prov "chatgpt" then
    ErrorHandler.apiCode error = Some "rate_limit_exceeded"%string \/
    (ErrorHandler.httpStatus error = Some 503 /\
     ErrorHandler.apiCode error <> Some "content_policy_violation"%string /\
     ErrorHandler.apiCode error <> Some "invalid_request_error"%string /\
     ErrorHandler.apiCode error <> Some "insufficient_quota"%string)
  else if String.eqb prov "huggingface" then
    ErrorHandler.httpStatus error = Some 429 \/ ErrorHandler.httpStatus error = Some 503
  else
    ErrorHandler.rawCode error = Some "ENOTFOUND"%string \/
    ErrorHandler.rawCode error = Some "ECONNREFUSED"%string \/
    ErrorHandler.rawCode error = Some "ETIMEDOUT"%string.
Proof.
  unfold ErrorHandler.handle, ErrorHandler.handleOpenAIError,
    ErrorHandler.handleHuggingFaceError.
  destruct (String.eqb prov "chatgpt"); [|destruct (String.eqb prov "huggingface")].
  - destruct (ErrorHandler.isCode (ErrorHandler.apiCode error) "content_policy_violation") eqn:H1;
      [apply isCode_true in H1; rewrite H1; cbn; split;
       [discriminate|intros [H|(_ & H & _)]; [discriminate|congruence]]|].
    destruct (ErrorHandler.isCode (ErrorHandler.apiCode error) "invalid_request_error") eqn:H2;
      [apply isCode_true in H2; rewrite H2; cbn; split;
       [discriminate|intros [H|(_ & _ & H & _)]; [discriminate|congruence]]|].
    destruct (ErrorHandler.isCode (ErrorHandler.apiCode error) "rate_limit_exceeded") eqn:H3;
      [apply isCode_true in H3; cbn; tauto|].
    destruct (ErrorHandler.isCode (ErrorHandler.apiCode error) "insufficient_quota") eqn:H4;
      [apply isCode_true in H4; rewrite H4; cbn; split;
       [discriminate|intros [H|(_ & _ & _ & H)]; [discriminate|congruence]]|].
    assert (N1 : ErrorHandler.apiCode error <> Some "content_policy_violation"%string)
      by (intros E; apply isCode_true in E; congruence).
    assert (N2 : ErrorHandler.apiCode error <> Some "invalid_request_error"%string)
      by (intros E; apply isCode_true in E; congruence).
    assert (N3 : ErrorHandler.apiCode error <> Some "rate_limit_exceeded"%string)
      by (intros E; apply isCode_true in E; congruence).
    assert (N4 : ErrorHandler.apiCode error <> Some "insufficient_quota"%string)
      by (intros E; apply isCode_true in E; congruence).
    destruct (ErrorHandler.isStatus (ErrorHandler.httpStatus error) 401) eqn:S1;
      [apply isStatus_true in S1; rewrite S1; cbn; split;
       [discriminate|intros [H|(H & _)]; [contradiction|discriminate]]|].
    destruct (ErrorHandler.isStatus (ErrorHandler.httpStatus error) 403) eqn:S2;
      [apply isStatus_true in S2; rewrite S2; cbn; split;
       [discriminate|intros [H|(H & _)]; [contradiction|discriminate]]|].
    destruct (ErrorHandler.isStatus (ErrorHandler.httpStatus error) 503) eqn:S3;
      [apply isStatus_true in S3; cbn; tauto|].
    cbn. split; [discriminate|].
    intros [H|(H & _)]; [contradiction|].
    apply isStatus_true in H. congruence.
  - destruct (ErrorHandler.isStatus (ErrorHandler.httpStatus error) 401) eqn:S1;
      [apply isStatus_true in S1; rewrite S1; cbn; split;
       [discriminate|intros [H|H]; discriminate]|].
    destruct (ErrorHandler.isStatus (ErrorHandler.httpStatus error) 403) eqn:S2;
      [apply isStatus_true in S2; rewrite S2; cbn; split;
       [discriminate|intros [H|H]; discriminate]|].
    destruct (ErrorHandler.isStatus (ErrorHandler.httpStatus error) 429) eqn:S3;
      [apply isStatus_true in S3; cbn; tauto|].
    destruct (ErrorHandler.isStatus (ErrorHandler.httpStatus error) 503) eqn:S4;
      [apply isStatus_true in S4; cbn; tauto|].
    cbn. split; [discriminate|].
    intros [H|H]; apply isStatus_true in H; congruence.
  - destruct (ErrorHandler.isCode (ErrorHandler.rawCode error) "ENOTFOUND") eqn:H1;
      [apply isCode_true in H1; cbn; tauto|].
    destruct (ErrorHandler.isCode (ErrorHandler.rawCode error) "ECONNREFUSED") eqn:H2;
      [apply isCode_true in H2; cbn; tauto|].
    destruct (ErrorHandler.isCode (ErrorHandler.rawCode error) "ETIMEDOUT") eqn:H3;
      [apply isCode_true in H3; cbn; tauto|].
    cbn. split; [discriminate|].
    intros [H|[H|H]]; apply isCode_true in H; congruence.
Qed.

(* ================================================================== *)
(** * Further properties of prompt sanitization *)
(* ================================================================== *)

Lemma sanitizePrompt_noMatch (prompt : Js.jsstring) (q : list Js.jsstring) :
  In q BaseImageProvider.harmfulPatterns ->
  noMatchFrom q None (BaseImageProvider.sanitizePrompt prompt).
Proof.
  intros Hin. pose proof harmfulPatterns_wordLike as Hall.
  assert (Hq : forallb wordLike q = true).
  { revert q Hin. apply forallb_forall. exact Hall. }
  unfold BaseImageProvider.sanitizePrompt, Js.trim.
  apply trimEnd_noMatch. apply trimStart_noMatch; [exact Hq|].
  unfold Js.collapseSpaces at 1.
  apply (@collapseRuns_noMatch q Hq _ false None None); [reflexivity | discriminate |].
  apply removeEach_noMatch; [exact Hall | exact Hin].
Qed.

Lemma sanitizePrompt_tidy (prompt : Js.jsstring) :
  tidy false (BaseImageProvider.sanitizePrompt prompt).
Proof.
  unfold BaseImageProvider.sanitizePrompt, Js.trim.
  apply tidy_trimEnd.
  apply (@tidy_trimStart _ false). apply collapseRuns_tidy.
Qed.

Lemma trimStart_length (s : Js.jsstring) :
  (List.length (Js.trimStart s) <= List.length s)%nat.
Proof.
  induction s as [|c s IH]; simpl; [lia|].
  destruct (Js.isSpace c); simpl; lia.
Qed.

Lemma trim_length (s : Js.jsstring) :
  (List.length (Js.trim s) <= List.length s)%nat.
Proof.
  unfold Js.trim, Js.trimEnd. rewrite length_rev.
  pose proof (trimStart_length (rev (Js.trimStart s))) as H1.
  rewrite length_rev in H1.
  pose proof (trimStart_length s). lia.
Qed.

Lemma collapseRuns_length (s : Js.jsstring) : forall inRun,
  (List.length (Js.collapseRuns inRun s) <= List.length s)%nat.
Proof.
  induction s as [|c s IH]; intros inRun; simpl; [lia|].
  destruct (Js.isSpace c); [destruct inRun|]; simpl;
    [pose proof (IH true) | pose proof (IH true) | pose proof (IH false)]; lia.
Qed.

Lemma removeFrom_length (alts : list Js.jsstring) :
  forallb wordLike alts = true ->
  forall steps before s,
    (List.length (Js.removeFrom alts steps before s) <= List.length s)%nat.
Proof.
  intros Hall. induction steps as [|steps IH]; intros before s; simpl; [lia|].
  destruct s as [|c s']; [simpl; lia|].
  destruct (Js.matchAlternatives alts before (c :: s')) as [[l r]|] eqn:Hm.
  - destruct (matchAlternatives_inv _ _ _ Hall Hm) as (_ & _ & _ & _ & Hshort & _).
    pose proof (IH l r). lia.
  - simpl. pose proof (IH (Some c) s'). lia.
Qed.

Lemma removeEach_length (patterns : list (list Js.jsstring)) :
  forallb (forallb wordLike) patterns = true ->
  forall s,
    (List.length (fold_left (fun s pattern => Js.removeAll pattern s) patterns s)
     <= List.length s)%nat.
Proof.
  induction patterns as [|p patterns IH]; intros Hall s; simpl; [lia|].
  simpl in Hall. apply andb_prop in Hall. destruct Hall as [Hp Hall].
  pose proof (IH Hall (Js.removeAll p s)).
  pose proof (@removeFrom_length p Hp (List.length s) None s).
  unfold Js.removeAll in *. lia.
Qed.

(** X10. What [sanitizePrompt] guarantees of its result, whatever the
    prompt: none of the four patterns matches anywhere in it (no listed
    word is left as a whole word, in any letter case, also where removing
    one word could have uncovered another); its only whitespace is single
    spaces between other characters, with none at either end; and it is
    never longer than the prompt. *)
Theorem sanitizePrompt_clean (prompt : Js.jsstring) :
  let sanitized := BaseImageProvider.sanitizePrompt prompt in
  (forall q, In q BaseImageProvider.harmfulPatterns -> noMatchFrom q None sanitized) /\
  tidy false sanitized /\
  Js.trim sanitized = sanitized /\
  (List.length sanitized <= List.length prompt)%nat.
Proof.
  cbv zeta. split; [|split; [|split]].
  - intros q Hq. apply sanitizePrompt_noMatch. exact Hq.
  - apply sanitizePrompt_tidy.
  - unfold BaseImageProvider.sanitizePrompt. apply trim_idempotent.
  - unfold BaseImageProvider.sanitizePrompt.
    set (first := Js.collapseSpaces (Js.trim prompt)).
    set (removed := fold_left _ _ first).
    pose proof (trim_length (Js.collapseSpaces removed)) as H1.
    pose proof (collapseRuns_length removed false) as H2.
    pose proof (@removeEach_length _ harmfulPatterns_wordLike first) as H3.
    pose proof (collapseRuns_length (Js.trim prompt) false) as H4.
    pose proof (trim_length prompt) as H5.
    fold removed in H3. unfold Js.collapseSpaces in *. unfold first in *. lia.
Qed.

(** X11. The prompts that [sanitizePrompt] returns unchanged are exactly
    those in which no pattern matches and whose whitespace is single
    spaces between other characters. *)
Theorem sanitizePrompt_fixed_iff (prompt : Js.jsstring) :
  BaseImageProvider.sanitizePrompt prompt = prompt <->
  (forall q, In q BaseImageProvider.harmfulPatterns -> noMatchFrom q None prompt) /\
  tidy false prompt /\
  Js.trim prompt = prompt.
Proof.
  split.
  - intros H. split; [|split].
    + intros q Hq. rewrite <- H. apply sanitizePrompt_noMatch. exact Hq.
    + rewrite <- H. apply sanitizePrompt_tidy.
    + rewrite <- H. unfold BaseImageProvider.sanitizePrompt. apply trim_idempotent.
  - intros (Hno & Htidy & Htrim).
    assert (Hcollapse : Js.collapseSpaces prompt = prompt)
      by (apply tidy_collapseRuns; exact Htidy).
    unfold BaseImageProvider.sanitizePrompt.
    rewrite Htrim, Hcollapse.
    rewrite (@removeEach_fixed BaseImageProvider.harmfulPatterns prompt Hno).
    rewrite Hcollapse. exact Htrim.
Qed.

(* ================================================================== *)
(** * Properties of the size shown to the user *)
(* ================================================================== *)

Lemma Qle_bool_1024 (a : Z) (d : positive) :
  Qle_bool (inject_Z 1024) (Qmake a d) = (1024 * Z.pos d <=? a).
Proof.
  unfold Qle_bool, inject_Z. cbn [Qnum Qden].
  rewrite Z.mul_1_r. reflexivity.
Qed.

Lemma Qdiv_1024 (a : Z) (d : positive) :
  (Qmake a d / inject_Z 1024)%Q = Qmake (a * 1) (d * 1024).
Proof. reflexivity. Qed.

Lemma hundredths_make (a : Z) (d : positive) :
  GenerateImageTool.hundredths (Qmake a d) = (200 * a + Z.pos d) / (2 * Z.pos d).
Proof.
  unfold GenerateImageTool.hundredths, Qfloor, Qplus, Qmult, inject_Z.
  cbn [Qnum Qden].
  rewrite !Pos2Z.inj_mul. f_equal; ring.
Qed.

Lemma scale_step (fuel : nat) (a : Z) (d : positive) (k : nat) :
  GenerateImageTool.scale (S fuel) (Qmake a d) k
  = if (1024 * Z.pos d <=? a) && (k <? 3)%nat
    then GenerateImageTool.scale fuel (Qmake (a * 1) (d * 1024)) (S k)
    else (Qmake a d, k).
Proof.
  cbn [GenerateImageTool.scale]. rewrite Qle_bool_1024, Qdiv_1024. reflexivity.
Qed.

Example formatFileSize_examples :
  GenerateImageTool.formatFileSize 0 = "0.00 B"%string /\
  GenerateImageTool.formatFileSize 1023 = "1023.00 B"%string /\
  GenerateImageTool.formatFileSize 1536 = "1.50 KB"%string /\
  GenerateImageTool.formatFileSize 1048575 = "1024.00 KB"%string /\
  GenerateImageTool.formatFileSize 1048576 = "1.00 MB"%string /\
  GenerateImageTool.formatFileSize 5368709120 = "5.00 GB"%string.
Proof. vm_compute. repeat split. Qed.

(** X12. For a size of [bytes] >= 0 the unit is B below 1024, KB below
    1024^2, MB below 1024^3 and GB from there on, and the number printed
    before it, counted in hundredths, is the integer nearest to
    [100 * bytes / 1024^k] (the larger of two): it differs from the exact
    quotient by at most 0.005, is exact for the unit B, and below GB never
    exceeds 1024.00, which it does reach, the loop comparing the size
    before it is rounded. *)
Theorem formatFileSize_spec (bytes : Z) :
  0 <= bytes ->
  let k := if bytes <? 1024 then 0%nat else if bytes <? 1024 ^ 2 then 1%nat
           else if bytes <? 1024 ^ 3 then 2%nat else 3%nat in
  let n := (200 * bytes + 1024 ^ Z.of_nat k) / (2 * 1024 ^ Z.of_nat k) in
  GenerateImageTool.formatFileSize bytes
    = (GenerateImageTool.fixed2 n ++ " " ++ nth k GenerateImageTool.units "")%string /\
  2 * Z.abs (100 * bytes - n * 1024 ^ Z.of_nat k) <= 1024 ^ Z.of_nat k /\
  (k = 0%nat -> n = 100 * bytes) /\
  (bytes < 1024 ^ 3 -> n <= 102400) /\
  (1048571 <= bytes < 1024 ^ 2 -> n = 102400 /\ k = 1%nat).
Proof.
  intros Hb. cbv zeta.
  unfold GenerateImageTool.formatFileSize.
  change (List.length GenerateImageTool.units) with 4%nat.
  change (inject_Z bytes) with (Qmake bytes 1).
  rewrite scale_step.
  change (1024 * Z.pos 1) with 1024.
  destruct (Z.ltb_spec bytes 1024) as [H0|H0].
  { rewrite (proj2 (Z.leb_gt 1024 bytes) H0). cbv beta iota.
    unfold andb, GenerateImageTool.toFixed2. rewrite hundredths_make.
    change (1024 ^ Z.of_nat 0) with 1. change (Z.pos 1) with 1.
    split; [reflexivity|].
    split; [Z.to_euclidean_division_equations; lia|].
    split; [intros _; Z.to_euclidean_division_equations; lia|].
    split; [intros _; Z.to_euclidean_division_equations; lia|].
    change (1024 ^ 2) with 1048576. lia. }
  rewrite (proj2 (Z.leb_le 1024 bytes) H0).
  change (true && (0 <? 3)%nat) with true. cbv iota.
  rewrite scale_step. change (1024 * Z.pos (1 * 1024)) with 1048576.
  change (1024 ^ 2) with 1048576.
  destruct (Z.ltb_spec bytes 1048576) as [H1|H1].
  { assert (E : (1048576 <=? bytes * 1) = false) by (apply Z.leb_gt; lia).
    rewrite E. cbv beta iota.
    unfold andb, GenerateImageTool.toFixed2. rewrite hundredths_make.
    change (1024 ^ Z.of_nat 1) with 1024. change (Z.pos (1 * 1024)) with 1024.
    replace (200 * (bytes * 1)) with (200 * bytes) by ring.
    split; [reflexivity|].
    split; [Z.to_euclidean_division_equations; lia|].
    split; [intros [=]|].
    split; [intros _; Z.to_euclidean_division_equations; lia|].
    intros Hr. split; [Z.to_euclidean_division_equations; lia | reflexivity]. }
  assert (E1 : (1048576 <=? bytes * 1) = true) by (apply Z.leb_le; lia).
  rewrite E1. change (true && (1 <? 3)%nat) with true. cbv iota.
  rewrite scale_step. change (1024 * Z.pos (1 * 1024 * 1024)) with 1073741824.
  change (1024 ^ 3) with 1073741824.
  destruct (Z.ltb_spec bytes 1073741824) as [H2|H2].
  { assert (E : (1073741824 <=? bytes * 1 * 1) = false) by (apply Z.leb_gt; lia).
    rewrite E. cbv beta iota.
    unfold andb, GenerateImageTool.toFixed2. rewrite hundredths_make.
    change (1024 ^ Z.of_nat 2) with 1048576.
    change (Z.pos (1 * 1024 * 1024)) with 1048576.
    replace (200 * (bytes * 1 * 1)) with (200 * bytes) by ring.
    split; [reflexivity|].
    split; [Z.to_euclidean_division_equations; lia|].
    split; [intros [=]|].
    split; [intros _; Z.to_euclidean_division_equations; lia|].
    lia. }
  assert (E2 : (1073741824 <=? bytes * 1 * 1) = true) by (apply Z.leb_le; lia).
  rewrite E2. change (true && (2 <? 3)%nat) with true. cbv iota.
  rewrite scale_step.
  change (3 <? 3)%nat with false. rewrite andb_false_r. cbv beta iota.
  unfold GenerateImageTool.toFixed2. rewrite hundredths_make.
  change (1024 ^ Z.of_nat 3) with 1073741824.
  change (Z.pos (1 * 1024 * 1024 * 1024)) with 1073741824.
  replace (200 * (bytes * 1 * 1 * 1)) with (200 * bytes) by ring.
  split; [reflexivity|].
  split; [Z.to_euclidean_division_equations; lia|].
  split; [intros [=]|].
  split; lia.
Qed.

Lemma formatFileSize_spec_witness :
  GenerateImageTool.formatFileSize 1048575 = "1024.00 KB"%string.
Proof.
  destruct (@formatFileSize_spec 1048575) as [H _]; [lia|].
  rewrite H. vm_compute. reflexivity.
Defined.

(* ================================================================== *)
(** * Properties of description, tagging and the capability summary *)
(* ================================================================== *)

Lemma distinct_In (xs : list string) : forall seen x,
  In x (FullProviderManager.distinct seen xs) <-> In x xs /\ ~ In x seen.
Proof.
  induction xs as [|y xs IH]; intros seen x; simpl; [tauto|].
  destruct (existsb (String.eqb y) seen) eqn:Hy.
  - rewrite IH. apply existsb_exists in Hy. destruct Hy as [z [Hz Hyz]].
    apply String.eqb_eq in Hyz. subst z.
    split; [tauto|]. intros [[<-|Hx] Hn]; [contradiction | tauto].
  - assert (Hnot : ~ In y seen).
    { intros Hin. apply Bool.not_true_iff_false in Hy. apply Hy.
      apply existsb_exists. exists y. split; [exact Hin | apply String.eqb_refl]. }
    simpl. rewrite IH. simpl. split.
    + intros [<-|[Hx Hn]]; [tauto|]. split; [tauto|]. intros Hs. apply Hn. tauto.
    + intros [[<-|Hx] Hn]; [tauto|].
      destruct (string_dec y x) as [->|Hne]; [tauto|].
      right. split; [exact Hx|]. intros [Heq|Hs]; [contradiction | contradiction].
Qed.

Lemma distinct_NoDup (xs : list string) : forall seen,
  NoDup (FullProviderManager.distinct seen xs).
Proof.
  induction xs as [|y xs IH]; intros seen; simpl; [constructor|].
  destruct (existsb (String.eqb y) seen); [apply IH|].
  constructor; [|apply IH].
  rewrite distinct_In. simpl. tauto.
Qed.

Lemma maxOf_spec (others : list Z) : forall first,
  In (FullProviderManager.maxOf first others) (first :: others) /\
  forall x, In x (first :: others) -> x <= FullProviderManager.maxOf first others.
Proof.
  unfold FullProviderManager.maxOf.
  induction others as [|y others IH]; intros first; simpl.
  - split; [left; reflexivity|]. intros x [<-|[]]. lia.
  - destruct (IH (Z.max first y)) as [Hin Hle]. split.
    + destruct Hin as [Hm|Hm]; [|right; right; exact Hm].
      rewrite <- Hm.
      destruct (Z.max_spec first y) as [[_ E]|[_ E]]; rewrite E; auto.
    + intros x [<-|[<-|Hx]].
      * pose proof (Hle (Z.max first y) (or_introl eq_refl)). lia.
      * pose proof (Hle (Z.max first y) (or_introl eq_refl)). lia.
      * apply Hle. right. exact Hx.
Qed.

Section FullManagerFacts.
Variable W : Type.
Local Abbreviation Provider := (FullImageProvider.t W).

(** The probe pass over full providers: it never throws, returns the
    providers that answered [true] and leaves the world and the events of
    the pass over their cores. *)
Lemma full_probeAll_reports (providers : list Provider) : forall w,
  FullProviderManager.probeAll providers w
  = (Returned (fullAvailable (fullReports providers w)),
     worldAfterProbes (map FullImageProvider.core providers) w,
     probeEvents (probeReports (map FullImageProvider.core providers) w)).
Proof.
  induction providers as [|p rest IH]; intros w; [reflexivity|].
  simpl FullProviderManager.probeAll.
  unfold bind, tryCatch, FullProviderManager.probe, ProviderManager.probe, ret.
  simpl fullReports. simpl map. simpl probeReports. simpl worldAfterProbes.
  destruct (ImageProvider.isAvailable (FullImageProvider.core p) w) as [r w1].
  simpl fst. simpl snd.
  destruct r as [[|]|e]; rewrite IH; simpl; rewrite app_nil_r; reflexivity.
Qed.

Lemma fullAvailable_In (reports : list (Provider * Outcome bool)) (p : Provider) :
  In p (fullAvailable reports) <-> In (p, Returned true) reports.
Proof.
  unfold fullAvailable. rewrite in_map_iff. split.
  - intros [[q r] [Hq Hin]]. simpl in Hq. subst q.
    apply filter_In in Hin. destruct Hin as [Hin Hsaid].
    unfold answeredTrue in Hsaid. simpl in Hsaid.
    destruct r as [[|]|e]; try discriminate. exact Hin.
  - intros Hin. exists (p, Returned true). split; [reflexivity|].
    apply filter_In. split; [exact Hin | reflexivity].
Qed.

Lemma fullReports_In (providers : list Provider) : forall w p r,
  In (p, r) (fullReports providers w) -> In p providers.
Proof.
  induction providers as [|q rest IH]; intros w p r; simpl; [tauto|].
  intros [[= <- _]|Hin]; [left; reflexivity | right; exact (IH _ _ _ Hin)].
Qed.

(** X13. [getCapabilities] and [hasAvailableProviders] never throw, a
    probe that throws counting as the answer "unavailable".  The summary is
    taken over the providers that answered [true] in this very call: each
    flag says whether one of them supports the feature, the formats are
    exactly theirs without repetition, and the maximal count is the largest
    of theirs (0, with no format and every flag false, when there is none).
    [hasAvailableProviders] says whether there is one. *)
Theorem getCapabilities_spec (this : FullProviderManager.t W) (w : W) :
  let reports := fullReports (FullProviderManager.getProviders this) w in
  let available := fullAvailable reports in
  let supported feature :=
    exists p, In (p, Returned true) reports /\
              FullImageProvider.supportsFeature p feature = true in
  exists c w' t,
    FullProviderManager.getCapabilities this w = (Returned c, w', t) /\
    FullProviderManager.hasAvailableProviders this w
      = (Returned (negb (Nat.eqb (List.length available) 0)), w', t) /\
    (FullProviderManager.canGenerate c = true <-> supported generation) /\
    (FullProviderManager.canDescribe c = true <-> supported description) /\
    (FullProviderManager.canTag c = true <-> supported tagging) /\
    (FullProviderManager.canGenerateLogos c = true <-> supported logo) /\
    (forall f, In f (FullProviderManager.supportedFormats c) <->
               exists p, In (p, Returned true) reports /\
                         In f (FullImageProvider.getSupportedFormats p)) /\
    NoDup (FullProviderManager.supportedFormats c) /\
    (forall p, In (p, Returned true) reports ->
               FullImageProvider.getMaxImageCount p <= FullProviderManager.maxImageCount c) /\
    match available with
    | [] => c = FullProviderManager.noCapabilities
    | _ => exists p, In (p, Returned true) reports /\
                     FullImageProvider.getMaxImageCount p
                     = FullProviderManager.maxImageCount c
    end.
Proof.
  cbv zeta.
  unfold FullProviderManager.getCapabilities, FullProviderManager.hasAvailableProviders,
    FullProviderManager.getAvailableProviders, bind.
  rewrite full_probeAll_reports. unfold ret. rewrite !app_nil_r.
  set (reports := fullReports (FullProviderManager.getProviders this) w).
  assert (Hav : forall p, In p (fullAvailable reports) <-> In (p, Returned true) reports)
    by (intros p; apply fullAvailable_In).
  destruct (fullAvailable reports) as [|first others] eqn:Havail.
  - do 3 eexists. split; [reflexivity|]. split; [reflexivity|].
    assert (Hnone : forall p, ~ In (p, Returned true) reports)
      by (intros p Hin; apply Hav in Hin; exact Hin).
    assert (Hflag : forall feature,
               false = true <->
               exists p, In (p, Returned true) reports /\
                         FullImageProvider.supportsFeature p feature = true).
    { intros feature. split; [discriminate|].
      intros [p [Hin _]]. exfalso. exact (Hnone p Hin). }
    cbn [FullProviderManager.noCapabilities
         FullProviderManager.canGenerate FullProviderManager.canDescribe
         FullProviderManager.canTag FullProviderManager.canGenerateLogos
         FullProviderManager.supportedFormats FullProviderManager.maxImageCount].
    split; [apply Hflag|]. split; [apply Hflag|]. split; [apply Hflag|].
    split; [apply Hflag|].
    split.
    { intros f. split; [intros []|].
      intros [p [Hin _]]. exfalso. exact (Hnone p Hin). }
    split; [constructor|].
    split; [|reflexivity].
    intros p Hin. exfalso. exact (Hnone p Hin).
  - do 3 eexists. split; [reflexivity|]. split; [reflexivity|].
    assert (Hflag : forall feature,
               existsb (fun p => FullImageProvider.supportsFeature p feature)
                       (first :: others) = true <->
               exists p, In (p, Returned true) reports /\
                         FullImageProvider.supportsFeature p feature = true).
    { intros feature. rewrite existsb_exists.
      split; intros [p [Hin Hs]]; exists p; (split; [apply Hav; exact Hin | exact Hs]). }
    cbn [FullProviderManager.canGenerate FullProviderManager.canDescribe
         FullProviderManager.canTag FullProviderManager.canGenerateLogos
         FullProviderManager.supportedFormats FullProviderManager.maxImageCount].
    split; [apply Hflag|]. split; [apply Hflag|]. split; [apply Hflag|].
    split; [apply Hflag|].
    split.
    { intros f. rewrite distinct_In, in_flat_map. split.
      - intros [[p [Hin Hf]] _]. exists p. split; [apply Hav; exact Hin | exact Hf].
      - intros [p [Hin Hf]]. split; [|intros []].
        exists p. split; [apply Hav; exact Hin | exact Hf]. }
    split; [apply distinct_NoDup|].
    destruct (maxOf_spec (map FullImageProvider.getMaxImageCount others)
                         (FullImageProvider.getMaxImageCount first)) as [Hin Hle].
    split.
    { intros p Hp. apply Hle. apply Hav in Hp.
      change (In (FullImageProvider.getMaxImageCount p)
                 (map FullImageProvider.getMaxImageCount (first :: others))).
      apply in_map. exact Hp. }
    change (In (FullProviderManager.maxOf (FullImageProvider.getMaxImageCount first)
                  (map FullImageProvider.getMaxImageCount others))
               (map FullImageProvider.getMaxImageCount (first :: others))) in Hin.
    apply in_map_iff in Hin. destruct Hin as [p [Hp Hin]].
    exists p. split; [apply Hav; exact Hin | exact Hp].
Qed.

End FullManagerFacts.

Lemma operationCalls_app (t1 t2 : list Event) :
  operationCalls (t1 ++ t2) = operationCalls t1 ++ operationCalls t2.
Proof.
  induction t1 as [|ev t1 IH]; simpl; [reflexivity|].
  destruct ev; simpl; rewrite IH; reflexivity.
Qed.

Section OperationFacts.
Variable W : Type.
Local Abbreviation Provider := (FullImageProvider.t W).

Lemma operationCalls_probeEvents (reports : list (ImageProvider.t W * Outcome bool)) :
  operationCalls (probeEvents reports) = [].
Proof. induction reports as [|r reports IH]; simpl; [reflexivity | exact IH]. Qed.

Lemma full_getProvider_In (this : FullProviderManager.t W) (n : string) (p : Provider) :
  FullProviderManager.getProvider this n = Some p ->
  In p (FullProviderManager.getProviders this).
Proof.
  unfold FullProviderManager.getProvider, FullProviderManager.getProviders.
  destruct (find (fun kv => String.eqb (fst kv) n) this) as [kv|] eqn:Hfind; [|discriminate].
  intros [= <-]. apply in_map. exact (proj1 (find_some _ _ Hfind)).
Qed.

Lemma full_pickByPriority_In (order : list string) (candidates : list Provider)
      (p : Provider) :
  FullProviderManager.pickByPriority order candidates = Some p -> In p candidates.
Proof.
  induction order as [|n order IH]; simpl; [discriminate|].
  destruct (find (fun q => String.eqb (FullImageProvider.name q) n) candidates)
    as [q|] eqn:Hfind.
  - intros [= <-]. exact (proj1 (find_some _ _ Hfind)).
  - exact IH.
Qed.

Lemma full_chooseBest_In (feature : Feature) (available : list Provider) (p : Provider) :
  FullProviderManager.chooseBest feature available = Some p ->
  In p available /\ FullImageProvider.supportsFeature p feature = true.
Proof.
  unfold FullProviderManager.chooseBest.
  destruct (filter (fun q => FullImageProvider.supportsFeature q feature) available)
    as [|first rest] eqn:Hfilter; [discriminate|].
  destruct (FullProviderManager.pickByPriority
              (ProviderManager.priorityOrder feature) (first :: rest)) as [q|] eqn:Hpick.
  - intros [= <-]. apply full_pickByPriority_In in Hpick.
    rewrite <- Hfilter in Hpick. apply filter_In in Hpick. exact Hpick.
  - intros [= <-].
    assert (Hin : In first (first :: rest)) by (left; reflexivity).
    rewrite <- Hfilter in Hin. apply filter_In in Hin. exact Hin.
Qed.

Lemma full_available_registered (this : FullProviderManager.t W) (w : W) (p : Provider) :
  In p (fullAvailable (fullReports (FullProviderManager.getProviders this) w)) ->
  In p (FullProviderManager.getProviders this).
Proof.
  intros Hin. apply fullAvailable_In in Hin. exact (fullReports_In _ _ _ _ Hin).
Qed.

Section Generic.
Variable R : Type.
Variable feature : Feature.
Variable operationName : string.
Variable method : Provider -> option (string -> W -> Outcome R * W).
Variable noProvider : R.
Variable failed : Provider -> JsError -> R.

Local Abbreviation operate :=
  (FullProviderManager.operate feature operationName method noProvider failed).

(** What a run of [describeImage] or [tagImage] can be. *)
Local Abbreviation wellBehaved this imageUrl preferred w calls outcome :=
  ((calls%list = [] \/
    (exists a, calls%list = [(a, operationName)]) \/
    (exists a b, a <> b /\ calls%list = [(a, operationName); (b, operationName)])) /\
   match outcome with
   | Threw e =>
       calls%list = [] /\
       exists providerName p,
         preferred = Some providerName /\
         FullProviderManager.getProvider this providerName = Some p /\
         fst (ImageProvider.isAvailable (FullImageProvider.core p) w) = Threw e
   | Returned r =>
       (r = noProvider /\ calls%list = []) \/
       (exists p f w0,
           In p (FullProviderManager.getProviders this) /\ method p = Some f /\
           fst (f imageUrl w0) = Returned r /\
           last calls (""%string, ""%string) = (FullImageProvider.name p, operationName)) \/
       (exists p f w0 e,
           In p (FullProviderManager.getProviders this) /\ method p = Some f /\
           fst (f imageUrl w0) = Threw e /\ r = failed p e /\
           hd_error calls = Some (FullImageProvider.name p, operationName))
   end).

Local Abbreviation finish this imageUrl provider :=
  (match provider with
   | None => ret noProvider
   | Some p =>
       match method p with
       | None => ret noProvider
       | Some f =>
           tryCatch (FullProviderManager.call operationName p f imageUrl)
                    (FullProviderManager.tryFallback feature operationName method failed
                       this imageUrl p)
       end
   end).

Lemma full_getFallbackProvider_reports (this : FullProviderManager.t W) (failedName : string)
      (w : W) :
  exists t,
    FullProviderManager.getFallbackProvider this failedName feature w
    = (Returned (find (fun p => negb (String.eqb (FullImageProvider.name p) failedName)
                                && FullImageProvider.supportsFeature p feature)
                      (fullAvailable (fullReports (FullProviderManager.getProviders this) w))),
       worldAfterProbes (map FullImageProvider.core (FullProviderManager.getProviders this)) w,
       t) /\
    operationCalls t = [].
Proof.
  unfold FullProviderManager.getFallbackProvider, FullProviderManager.getAvailableProviders,
    bind.
  rewrite full_probeAll_reports. unfold ret. eexists. split; [reflexivity|].
  rewrite app_nil_r. apply operationCalls_probeEvents.
Qed.

Lemma full_getBestProvider_reports (this : FullProviderManager.t W) (w : W) :
  exists t,
    FullProviderManager.getBestProvider this feature w
    = (Returned (FullProviderManager.chooseBest feature
                   (fullAvailable (fullReports (FullProviderManager.getProviders this) w))),
       worldAfterProbes (map FullImageProvider.core (FullProviderManager.getProviders this)) w,
       t) /\
    operationCalls t = [].
Proof.
  unfold FullProviderManager.getBestProvider, FullProviderManager.getAvailableProviders,
    bind.
  rewrite full_probeAll_reports. unfold ret. eexists. split; [reflexivity|].
  rewrite app_nil_r. apply operationCalls_probeEvents.
Qed.

Lemma finish_wellBehaved (this : FullProviderManager.t W) (imageUrl : string)
      (preferred : option string) (w : W) (provider : option Provider) (w1 : W) :
  (forall p, provider = Some p -> In p (FullProviderManager.getProviders this)) ->
  exists r w2 t,
    finish this imageUrl provider w1 = (Returned r, w2, t) /\
    wellBehaved this imageUrl preferred w (operationCalls t) (Returned r).
Proof.
  intros Hreg. destruct provider as [p|].
  2:{ do 3 eexists. split; [reflexivity|]. simpl. split; [left; reflexivity|].
      left. split; reflexivity. }
  specialize (Hreg p eq_refl).
  destruct (method p) as [f|] eqn:Hf.
  2:{ do 3 eexists. split; [reflexivity|]. simpl. split; [left; reflexivity|].
      left. split; reflexivity. }
  unfold tryCatch, FullProviderManager.call.
  destruct (f imageUrl w1) as [[r|e] w2] eqn:Hcall.
  { do 3 eexists. split; [reflexivity|]. simpl. split.
    - right. left. eexists. reflexivity.
    - right. left. exists p, f, w1. rewrite Hcall. repeat split; assumption. }
  unfold FullProviderManager.tryFallback, bind.
  destruct (full_getFallbackProvider_reports this (FullImageProvider.name p) w2)
    as [tp [Hfb Htp]].
  rewrite Hfb.
  set (w3 := worldAfterProbes _ w2).
  destruct (find _ _) as [q|] eqn:Hfind.
  2:{ unfold ret. do 3 eexists. split; [reflexivity|].
      simpl. rewrite operationCalls_app, Htp. simpl. split.
      - right. left. eexists. reflexivity.
      - right. right. exists p, f, w1, e. rewrite Hcall. repeat split; assumption. }
  destruct (find_some _ _ Hfind) as [Hq Hok].
  apply andb_prop in Hok. destruct Hok as [Hne _].
  apply negb_true_iff in Hne. apply String.eqb_neq in Hne.
  apply full_available_registered in Hq.
  destruct (method q) as [g|] eqn:Hg.
  2:{ unfold ret. do 3 eexists. split; [reflexivity|].
      simpl. rewrite operationCalls_app, Htp. simpl. split.
      - right. left. eexists. reflexivity.
      - right. right. exists p, f, w1, e. rewrite Hcall. repeat split; assumption. }
  unfold tryCatch, FullProviderManager.call.
  destruct (g imageUrl w3) as [[r|e'] w4] eqn:Hcall2.
  - do 3 eexists. split; [reflexivity|].
    simpl. rewrite operationCalls_app, Htp. simpl. split.
    + right. right. exists (FullImageProvider.name p), (FullImageProvider.name q).
      split; [congruence | reflexivity].
    + right. left. exists q, g, w3. rewrite Hcall2. repeat split; assumption.
  - unfold ret. do 3 eexists. split; [reflexivity|].
    simpl. rewrite operationCalls_app, Htp. simpl. split.
    + right. right. exists (FullImageProvider.name p), (FullImageProvider.name q).
      split; [congruence | reflexivity].
    + right. right. exists p, f, w1, e. rewrite Hcall. repeat split; assumption.
Qed.

Lemma operate_wellBehaved (this : FullProviderManager.t W) (imageUrl : string)
      (preferred : option string) (w : W) :
  exists outcome w' t,
    operate this imageUrl preferred w = (outcome, w', t) /\
    wellBehaved this imageUrl preferred w (operationCalls t) outcome.
Proof.
  assert (Hbest : forall w0 t0,
            operationCalls t0 = [] ->
            exists r w2 t,
              (let '(r, w2, t2) :=
                 (provider <- FullProviderManager.getBestProvider this feature ;;
                  finish this imageUrl provider)%js w0 in (r, w2, t0 ++ t2))
              = (Returned r, w2, t) /\
              wellBehaved this imageUrl preferred w (operationCalls t) (Returned r)).
  { intros w0 t0 Ht0. unfold bind.
    destruct (full_getBestProvider_reports this w0) as [tb [Hb Htb]].
    rewrite Hb.
    set (best := FullProviderManager.chooseBest feature _).
    destruct (@finish_wellBehaved this imageUrl preferred w best
                (worldAfterProbes
                   (map FullImageProvider.core (FullProviderManager.getProviders this)) w0))
      as [r [w2 [t [Hrun Hgood]]]].
    { intros p Hp. apply full_chooseBest_In in Hp.
      exact (full_available_registered _ _ _ (proj1 Hp)). }
    rewrite Hrun. do 3 eexists. split; [reflexivity|].
    rewrite !operationCalls_app, Ht0, Htb. exact Hgood. }
  assert (Hsome : forall p w0 t0,
            In p (FullProviderManager.getProviders this) ->
            operationCalls t0 = [] ->
            exists r w2 t,
              (let '(r, w2, t2) :=
                 (provider <- ret (Some p) ;; finish this imageUrl provider)%js w0
               in (r, w2, t0 ++ t2))
              = (Returned r, w2, t) /\
              wellBehaved this imageUrl preferred w (operationCalls t) (Returned r)).
  { intros p w0 t0 Hp Ht0. unfold bind at 1. unfold ret at 1.
    destruct (@finish_wellBehaved this imageUrl preferred w (Some p) w0)
      as [r [w2 [t [Hrun Hgood]]]].
    { intros p' [= <-]. exact Hp. }
    rewrite Hrun. do 3 eexists. split; [reflexivity|].
    rewrite !operationCalls_app, Ht0. exact Hgood. }
  assert (Hnone : forall (m : M W (option Provider)),
            m w = (Returned None, w, []) ->
            exists outcome w' t,
              (preferred' <- m ;;
               provider <- match preferred' with
                           | Some p => ret (Some p)
                           | None => FullProviderManager.getBestProvider this feature
                           end ;;
               finish this imageUrl provider)%js w = (outcome, w', t) /\
              wellBehaved this imageUrl preferred w (operationCalls t) outcome).
  { intros m Hm. unfold bind at 1. rewrite Hm.
    destruct (Hbest w [] eq_refl) as [r [w2 [t [Hrun Hgood]]]].
    exists (Returned r), w2, t. split; [exact Hrun | exact Hgood]. }
  unfold FullProviderManager.operate.
  destruct preferred as [providerName|] eqn:Hpref.
  2:{ apply Hnone. reflexivity. }
  destruct (String.eqb providerName "") eqn:Hempty.
  { apply Hnone. unfold FullProviderManager.selectPreferred. rewrite Hempty. reflexivity. }
  destruct (FullProviderManager.getProvider this providerName) as [p|] eqn:Hget.
  2:{ apply Hnone. unfold FullProviderManager.selectPreferred.
      rewrite Hempty, Hget. reflexivity. }
  assert (Hsel : FullProviderManager.selectPreferred this (Some providerName) w
                 = match ImageProvider.isAvailable (FullImageProvider.core p) w with
                   | (Returned b, w') =>
                       (Returned (if b then Some p else None), w',
                        [EvProbe (FullImageProvider.name p) (Returned b)] ++ [])
                   | (Threw e, w') =>
                       (Threw e, w', [EvProbe (FullImageProvider.name p) (Threw e)])
                   end).
  { unfold FullProviderManager.selectPreferred. rewrite Hempty, Hget.
    unfold bind, FullProviderManager.probe, ProviderManager.probe, ret.
    destruct (ImageProvider.isAvailable (FullImageProvider.core p) w) as [[b|e] w'];
      reflexivity. }
  pose proof (full_getProvider_In _ _ Hget) as Hp.
  unfold bind at 1. rewrite Hsel.
  destruct (ImageProvider.isAvailable (FullImageProvider.core p) w)
    as [[[|]|e] w'] eqn:Hprobe.
  - destruct (Hsome p w' ([EvProbe (FullImageProvider.name p) (Returned true)] ++ [])
                Hp eq_refl) as [r [w2 [t [Hrun Hgood]]]].
    exists (Returned r), w2, t. split; [exact Hrun | exact Hgood].
  - destruct (Hbest w' ([EvProbe (FullImageProvider.name p) (Returned false)] ++ [])
                eq_refl) as [r [w2 [t [Hrun Hgood]]]].
    exists (Returned r), w2, t. split; [exact Hrun | exact Hgood].
  - do 3 eexists. split; [reflexivity|]. simpl.
    split; [left; reflexivity|]. split; [reflexivity|].
    exists providerName, p. rewrite Hprobe. repeat split. exact Hget.
Qed.

End Generic.

(** X14. [describeImage] of the manager throws in one case only: the
    preferred provider is registered and its own [isAvailable] throws;
    nothing has been called then.  Otherwise it returns, having called
    [describeImage] of at most two providers, of different names.  The
    result is the "none" failure, with no call made (also when the
    provider selected has no [describeImage] method: no other one is looked
    for); or what the last provider called returned; or the failure built
    from the error of the first provider called, whatever the fallback
    threw. *)
Theorem describeImage_spec (this : FullProviderManager.t W) (imageUrl : string)
        (preferred : option string) (w : W) :
  let run := FullProviderManager.describeImage this imageUrl preferred w in
  let calls := operationCalls (eventsOf run) in
  (calls = [] \/
   (exists a, calls = [(a, "describeImage"%string)]) \/
   (exists a b, a <> b /\
                calls = [(a, "describeImage"%string); (b, "describeImage"%string)])) /\
  match outcomeOf run with
  | Threw e =>
      calls = [] /\
      exists providerName p,
        preferred = Some providerName /\
        FullProviderManager.getProvider this providerName = Some p /\
        fst (ImageProvider.isAvailable (FullImageProvider.core p) w) = Threw e
  | Returned r =>
      (r = FullProviderManager.noDescription /\ calls = []) \/
      (exists p f w0,
          In p (FullProviderManager.getProviders this) /\
          FullImageProvider.describeImage p = Some f /\
          fst (f imageUrl w0) = Returned r /\
          last calls (""%string, ""%string)
          = (FullImageProvider.name p, "describeImage"%string)) \/
      (exists p f w0 e,
          In p (FullProviderManager.getProviders this) /\
          FullImageProvider.describeImage p = Some f /\
          fst (f imageUrl w0) = Threw e /\
          r = FullProviderManager.failedDescription p e /\
          hd_error calls = Some (FullImageProvider.name p, "describeImage"%string))
  end.
Proof.
  cbv zeta. unfold FullProviderManager.describeImage.
  destruct (operate_wellBehaved description "describeImage"
              FullImageProvider.describeImage (FullProviderManager.noDescription)
              (@FullProviderManager.failedDescription W) this imageUrl preferred w)
    as [outcome [w' [t [Hrun Hgood]]]].
  rewrite Hrun. exact Hgood.
Qed.

(** X15. The same for [tagImage], with the feature [tagging] and its own
    failure results. *)
Theorem tagImage_spec (this : FullProviderManager.t W) (imageUrl : string)
        (preferred : option string) (w : W) :
  let run := FullProviderManager.tagImage this imageUrl preferred w in
  let calls := operationCalls (eventsOf run) in
  (calls = [] \/
   (exists a, calls = [(a, "tagImage"%string)]) \/
   (exists a b, a <> b /\ calls = [(a, "tagImage"%string); (b, "tagImage"%string)])) /\
  match outcomeOf run with
  | Threw e =>
      calls = [] /\
      exists providerName p,
        preferred = Some providerName /\
        FullProviderManager.getProvider this providerName = Some p /\
        fst (ImageProvider.isAvailable (FullImageProvider.core p) w) = Threw e
  | Returned r =>
      (r = FullProviderManager.noTagging /\ calls = []) \/
      (exists p f w0,
          In p (FullProviderManager.getProviders this) /\
          FullImageProvider.tagImage p = Some f /\
          fst (f imageUrl w0) = Returned r /\
          last calls (""%string, ""%string)
          = (FullImageProvider.name p, "tagImage"%string)) \/
      (exists p f w0 e,
          In p (FullProviderManager.getProviders this) /\
          FullImageProvider.tagImage p = Some f /\
          fst (f imageUrl w0) = Threw e /\
          r = FullProviderManager.failedTagging p e /\
          hd_error calls = Some (FullImageProvider.name p, "tagImage"%string))
  end.
Proof.
  cbv zeta. unfold FullProviderManager.tagImage.
  destruct (operate_wellBehaved tagging "tagImage"
              FullImageProvider.tagImage (FullProviderManager.noTagging)
              (@FullProviderManager.failedTagging W) this imageUrl preferred w)
    as [outcome [w' [t [Hrun Hgood]]]].
  rewrite Hrun. exact Hgood.
Qed.

End OperationFacts.

(* ================================================================== *)
(** * Properties of the errors of the ChatGPT operations *)
(* ================================================================== *)

Local Ltac settle_policy :=
  cbn; repeat split;
  try tauto; try discriminate; try congruence;
  try (let H := fresh in intros [H|[H|[H|[]]]]; congruence);
  try (let H := fresh in intros [H|H]; congruence);
  try (let H := fresh in intros H; exfalso; apply H; reflexivity).

(** X16. What the operation of [generateImage] can throw, and what the
    retry wrapper does with it.  The error always is a [ProviderError] of
    the provider with one of six codes and without an HTTP status: the
    status of the failure caught, if it had one, is not passed on.  It
    stops the retries exactly when the API's error code is
    content_policy_violation, invalid_request_error or insufficient_quota;
    every other failure is retried, also one that [isClientError] would
    have recognised by its status.  The failure caught is kept as [details]
    exactly under the code GENERATION_FAILED, which is given when the API
    sent no error code. *)
Theorem generationError_policy (this : BaseImageProvider.t)
        (error : ChatGPTOperations.Caught) :
  let e := ChatGPTOperations.generationError this error in
  errName e = "ProviderError"%string /\
  errProvider e = Some (BaseImageProvider.name this) /\
  errStatus e = None /\
  In (errCode e)
     (map Some ["CONTENT_POLICY_VIOLATION"; "INVALID_REQUEST"; "RATE_LIMIT_EXCEEDED";
                "QUOTA_EXCEEDED"; "API_ERROR"; "GENERATION_FAILED"]%string) /\
  (BaseImageProvider.isClientError e = true <->
   In (ChatGPTOperations.apiCode error)
      (map Some ["content_policy_violation"; "invalid_request_error";
                 "insufficient_quota"]%string)) /\
  (errCode e = Some "GENERATION_FAILED"%string <->
   ChatGPTOperations.apiCode error = None \/
   ChatGPTOperations.apiCode error = Some ""%string) /\
  (errDetails e = Some (ChatGPTOperations.thrown error) <->
   errCode e = Some "GENERATION_FAILED"%string) /\
  (errDetails e = None <-> errCode e <> Some "GENERATION_FAILED"%string).
Proof.
  cbv zeta. unfold ChatGPTOperations.generationError.
  destruct (ChatGPTOperations.apiCode error) as [code|]; [|settle_policy].
  destruct (String.eqb_spec code "") as [->|H0]; [settle_policy|].
  destruct (String.eqb_spec code "content_policy_violation") as [->|H1]; [settle_policy|].
  destruct (String.eqb_spec code "invalid_request_error") as [->|H2]; [settle_policy|].
  destruct (String.eqb_spec code "rate_limit_exceeded") as [->|H3]; [settle_policy|].
  destruct (String.eqb_spec code "insufficient_quota") as [->|H4]; settle_policy.
Qed.

Section RetryExhausted.
Variables W T : Type.
Variable this : BaseImageProvider.t.
Variable operation : BaseImageProvider.Operation W T.
Variable operationName : string.

Import BaseImageProvider.

(** When the attempts are used up, the error thrown carries the error of
    an attempt. *)
Lemma retryLoop_exhausted_last (remaining : nat) : forall attempt lastError w last,
  outcomeOf (retryLoop this operation operationName remaining attempt lastError w)
  = Threw (exhausted this operationName last) ->
  (remaining = 0%nat -> lastError <> None) ->
  last <> None.
Proof.
  induction remaining as [|remaining IH]; intros attempt lastError w last Hrun Hlast.
  - simpl in Hrun. unfold throw, outcomeOf in Hrun. simpl in Hrun.
    unfold exhausted, createError in Hrun. injection Hrun as Heq.
    subst last. apply Hlast. reflexivity.
  - destruct (attemptError this operationName (fst (operation w))) as [e|] eqn:He.
    + destruct (isClientError e) eqn:Hc.
      * rewrite (retryLoop_client_error _ _ _ _ _ _ _ He Hc) in Hrun.
        unfold outcomeOf in Hrun. simpl in Hrun. injection Hrun as ->.
        discriminate Hc.
      * rewrite (retryLoop_other_error _ _ _ _ _ _ _ He Hc) in Hrun.
        unfold outcomeOf at 1 in Hrun. simpl fst in Hrun.
        apply (IH _ _ _ _ Hrun). intros _. discriminate.
    + destruct (attemptError_none _ _ _ He) as [v Hv].
      rewrite (retryLoop_resolves _ _ _ _ _ _ _ Hv) in Hrun. discriminate Hrun.
Qed.

End RetryExhausted.

Section ChatGPTDescription.
Variable W : Type.
Variable this : BaseImageProvider.t.
Variable api : string -> W -> ChatGPTOperations.Settled (option string) * W.
Variable imageUrl : string.

Local Abbreviation operation := (ChatGPTOperations.describeOperation this api imageUrl).

Lemma descriptionError_retried (error : ChatGPTOperations.Caught) :
  let e := ChatGPTOperations.descriptionError this error in
  BaseImageProvider.isClientError e = false /\
  (errCode e = Some "FEATURE_NOT_AVAILABLE"%string \/
   errCode e = Some "DESCRIPTION_FAILED"%string).
Proof.
  cbv zeta. unfold ChatGPTOperations.descriptionError.
  destruct (match ChatGPTOperations.apiCode error with
            | Some code => String.eqb code "model_not_found"
            | None => false
            end); cbn; split; auto.
Qed.

(** An attempt at a description fails with an error that the retry
    wrapper does not take for a client error. *)
Lemma describeOperation_fails (w : W) (e : JsError) :
  attemptError this "describe image" (fst (operation w)) = Some e ->
  BaseImageProvider.isClientError e = false /\
  In (errCode e)
     (map Some ["TIMEOUT"; "FEATURE_NOT_AVAILABLE"; "DESCRIPTION_FAILED"]%string).
Proof.
  unfold ChatGPTOperations.describeOperation.
  destruct (api imageUrl w) as [[[text|]|error|] w']; cbn [fst attemptError].
  - destruct (String.eqb text ""); [|discriminate].
    intros [= <-]. destruct (descriptionError_retried
      {| ChatGPTOperations.thrown :=
           BaseImageProvider.createError this "INVALID_RESPONSE"
             "No description in response" None;
         ChatGPTOperations.apiCode := None;
         ChatGPTOperations.apiMessage := None |}) as [Hc Hcode].
    split; [exact Hc|]. destruct Hcode as [H|H]; rewrite H; simpl; tauto.
  - intros [= <-]. destruct (descriptionError_retried
      {| ChatGPTOperations.thrown :=
           BaseImageProvider.createError this "INVALID_RESPONSE"
             "No description in response" None;
         ChatGPTOperations.apiCode := None;
         ChatGPTOperations.apiMessage := None |}) as [Hc Hcode].
    split; [exact Hc|]. destruct Hcode as [H|H]; rewrite H; simpl; tauto.
  - intros [= <-]. destruct (descriptionError_retried error) as [Hc Hcode].
    split; [exact Hc|]. destruct Hcode as [H|H]; rewrite H; simpl; tauto.
  - intros [= <-]. split; [reflexivity|]. simpl. tauto.
Qed.

Lemma describeOperation_resolves (w : W) (r : ImageDescriptionResult.t) :
  fst (operation w) = BaseImageProvider.Resolves r ->
  ImageDescriptionResult.success r = true /\
  ImageDescriptionResult.description r <> ""%string /\
  ImageDescriptionResult.provider r = BaseImageProvider.name this /\
  ImageDescriptionResult.error r = None.
Proof.
  unfold ChatGPTOperations.describeOperation.
  destruct (api imageUrl w) as [[[text|]|error|] w']; cbn [fst]; try discriminate.
  destruct (String.eqb_spec text "") as [->|Hne]; [discriminate|].
  intros [= <-]. cbn. repeat split. exact Hne.
Qed.


End ChatGPTDescription.

(** X18. What the operation of [generateImage] of the HuggingFace
    provider can throw, and what the retry wrapper does with it.  The
    error is a [ProviderError] without an HTTP status; the retries stop
    exactly for the statuses 401 and 403.  Every other failure is retried,
    among them every other status from 400 to 499, which [isClientError]
    would have stopped on had the status been passed on. *)
Theorem huggingFace_generationError_policy (this : BaseImageProvider.t)
        (error : ChatGPTOperations.Caught) :
  let e := HuggingFaceOperations.generationError this error in
  let status := errStatus (ChatGPTOperations.thrown error) in
  errName e = "ProviderError"%string /\
  errProvider e = Some (BaseImageProvider.name this) /\
  errStatus e = None /\
  (BaseImageProvider.isClientError e = true <-> status = Some 401 \/ status = Some 403) /\
  (errCode e = Some "RATE_LIMIT_EXCEEDED"%string <-> status = Some 429) /\
  (errCode e = Some "SERVICE_UNAVAILABLE"%string <-> status = Some 503) /\
  (errCode e = Some "GENERATION_FAILED"%string <-> status = None \/ status = Some 0) /\
  (errCode e = Some "API_ERROR"%string <->
   exists s, status = Some s /\ ~ In s [0; 401; 403; 429; 503]).
Proof.
  cbv zeta. unfold HuggingFaceOperations.generationError.
  destruct (errStatus (ChatGPTOperations.thrown error)) as [s|].
  2:{ cbn. repeat split; try tauto; try discriminate; try congruence.
      all: try (intros [H|H]; discriminate).
      intros [s [H _]]. discriminate. }
  destruct (Z.eqb_spec s 0) as [->|H0];
    [|destruct (Z.eqb_spec s 401) as [->|H1];
      [|destruct (Z.eqb_spec s 403) as [->|H2];
        [|destruct (Z.eqb_spec s 429) as [->|H3];
          [|destruct (Z.eqb_spec s 503) as [->|H4]]]]];
    cbn; repeat split; try tauto; try discriminate; try congruence;
    try (intros [H|H]; congruence);
    try (intros [s' [[= <-] Hn]]; exfalso; apply Hn; simpl; tauto).
  intros _. exists s. split; [reflexivity|]. simpl. intuition congruence.
Qed.

(** X19. The error handler and the providers agree in one direction: a
    failure that [ErrorHandler.handle] would flag retryable for the
    provider is one that the provider's own [generateImage] does retry.
    The converse fails: the providers also retry failures that the handler
    flags as final, such as an HTTP 404. *)
Theorem handler_retryable_is_retried (this : BaseImageProvider.t)
        (error : ChatGPTOperations.Caught) (now : Z) (reqId : option string) :
  (ErrorHandler.retryable
     (ErrorHandler.handle now (ErrorHandler.Other (asRawError error)) "chatgpt" reqId) = true ->
   BaseImageProvider.isClientError (ChatGPTOperations.generationError this error) = false) /\
  (ErrorHandler.retryable
     (ErrorHandler.handle now (ErrorHandler.Other (asRawError error)) "huggingface" reqId)
   = true ->
   BaseImageProvider.isClientError (HuggingFaceOperations.generationError this error) = false) /\
  (errStatus (ChatGPTOperations.thrown error) = Some 404 ->
   ChatGPTOperations.apiCode error = None ->
   forall prov, prov = "chatgpt"%string \/ prov = "huggingface"%string ->
     ErrorHandler.retryable
       (ErrorHandler.handle now (ErrorHandler.Other (asRawError error)) prov reqId) = false /\
     BaseImageProvider.isClientError (ChatGPTOperations.generationError this error) = false /\
     BaseImageProvider.isClientError (HuggingFaceOperations.generationError this error) = false).
Proof.
  unfold ErrorHandler.handle, ErrorHandler.handleOpenAIError,
    ErrorHandler.handleHuggingFaceError, asRawError,
    ChatGPTOperations.generationError, HuggingFaceOperations.generationError.
  cbn [String.eqb Ascii.eqb Bool.eqb ErrorHandler.rawMessage ErrorHandler.rawCode
       ErrorHandler.apiCode ErrorHandler.apiMessage ErrorHandler.httpStatus].
  split; [|split].
  - destruct (ChatGPTOperations.apiCode error) as [code|]; cbn [ErrorHandler.isCode].
    + destruct (String.eqb_spec code "") as [->|H0]; cbn;
        [repeat match goal with
                | |- context [ErrorHandler.isStatus ?x ?n] =>
                    destruct (ErrorHandler.isStatus x n)
                end; cbn; intros; try discriminate; reflexivity|].
      destruct (String.eqb_spec code "content_policy_violation") as [->|H1];
        [cbn; discriminate|].
      destruct (String.eqb_spec code "invalid_request_error") as [->|H2];
        [cbn; discriminate|].
      destruct (String.eqb_spec code "rate_limit_exceeded") as [->|H3];
        [cbn; reflexivity|].
      destruct (String.eqb_spec code "insufficient_quota") as [->|H4];
        [cbn; discriminate|].
      cbn. reflexivity.
    + cbn. reflexivity.
  - destruct (errStatus (ChatGPTOperations.thrown error)) as [s|];
      cbn [ErrorHandler.isStatus]; [|cbn; reflexivity].
    destruct (Z.eqb_spec s 401) as [->|H1]; [cbn; discriminate|].
    destruct (Z.eqb_spec s 403) as [->|H2]; [cbn; discriminate|].
    destruct (Z.eqb_spec s 0) as [->|H0]; [cbn; reflexivity|].
    destruct (Z.eqb_spec s 429) as [->|H3]; [cbn; reflexivity|].
    destruct (Z.eqb_spec s 503) as [->|H4]; cbn; reflexivity.
  - intros Hs Ha prov [->| ->]; rewrite Hs, Ha; cbn; repeat split; reflexivity.
Qed.

(* ================================================================== *)
(** * Properties of the generate_image tool *)
(* ================================================================== *)

Lemma enumIssue_nil (allowed : list string) (issue : GenerateImageHandler.Issue)
      (x : option string) :
  GenerateImageHandler.enumIssue allowed issue x = [] <->
  forall s, x = Some s -> In s allowed.
Proof.
  unfold GenerateImageHandler.enumIssue. destruct x as [s|].
  - destruct (existsb (String.eqb s) allowed) eqn:Hs.
    + split; [|reflexivity]. intros _ s' [= <-].
      apply existsb_exists in Hs. destruct Hs as [y [Hy Heq]].
      apply String.eqb_eq in Heq. subst y. exact Hy.
    + split; [discriminate|]. intros H. exfalso.
      apply Bool.not_true_iff_false in Hs. apply Hs.
      apply existsb_exists. exists s. split; [exact (H s eq_refl) | apply String.eqb_refl].
  - split; [intros _ s [=] | reflexivity].
Qed.

Lemma rangeIssue_nil (lo hi : Z) (tooSmall tooBig : GenerateImageHandler.Issue)
      (x : option Z) :
  GenerateImageHandler.rangeIssue lo hi tooSmall tooBig x = [] <->
  forall n, x = Some n -> lo <= n <= hi.
Proof.
  unfold GenerateImageHandler.rangeIssue. destruct x as [n|].
  - destruct (Z.ltb_spec n lo) as [Hlo|Hlo].
    + split; [discriminate|]. intros H. specialize (H n eq_refl). lia.
    + rewrite Z.gtb_ltb. destruct (Z.ltb_spec hi n) as [Hhi|Hhi].
      * split; [discriminate|]. intros H. specialize (H n eq_refl). lia.
      * split; [|reflexivity]. intros _ n' [= <-]. lia.
  - split; [intros _ n [=] | reflexivity].
Qed.

Lemma app_nil_iff {A} (l l' : list A) : l ++ l' = [] <-> l = [] /\ l' = [].
Proof.
  split; [apply app_eq_nil|]. intros [-> ->]. reflexivity.
Qed.

Lemma issues_nil_iff (args : GenerateImageHandler.Args) :
  GenerateImageHandler.issues args = [] <-> validArguments args.
Proof.
  unfold GenerateImageHandler.issues, validArguments.
  rewrite !app_nil_iff, !enumIssue_nil, !rangeIssue_nil.
  assert (Hp : (if Js.length (GenerateImageHandler.argPrompt args) <? 1
                then [GenerateImageHandler.PromptRequired]
                else if Js.length (GenerateImageHandler.argPrompt args) >? 4000
                     then [GenerateImageHandler.PromptTooLong] else []) = []
               <-> 1 <= Js.length (GenerateImageHandler.argPrompt args) <= 4000).
  { destruct (Z.ltb_spec (Js.length (GenerateImageHandler.argPrompt args)) 1) as [H|H].
    - split; [discriminate | lia].
    - rewrite Z.gtb_ltb.
      destruct (Z.ltb_spec 4000 (Js.length (GenerateImageHandler.argPrompt args)))
        as [H'|H'].
      + split; [discriminate | lia].
      + split; [lia | reflexivity]. }
  assert (Hn : match GenerateImageHandler.argNegativePrompt args with
               | Some s => if Js.length s >? 1000
                           then [GenerateImageHandler.NegativePromptTooLong] else []
               | None => []
               end = []
               <-> forall s, GenerateImageHandler.argNegativePrompt args = Some s ->
                             Js.length s <= 1000).
  { destruct (GenerateImageHandler.argNegativePrompt args) as [s|].
    - rewrite Z.gtb_ltb. destruct (Z.ltb_spec 1000 (Js.length s)) as [H|H].
      + split; [discriminate|]. intros H'. specialize (H' s eq_refl). lia.
      + split; [|reflexivity]. intros _ s' [= <-]. exact H.
    - split; [intros _ s [=] | reflexivity]. }
  rewrite Hp, Hn. tauto.
Qed.

(** X20. [handleGenerateImage] refuses exactly the arguments that break
    the schema: a prompt of no or more than 4000 code units, an unknown
    style, quality, provider or format, a width or height outside
    64..2048, a count outside 1..10, a negative prompt of more than 1000
    code units.  The refusal is a failed response that starts with
    "Invalid arguments: "; it is given before anything else happens: no
    provider is probed, and neither the cache nor a provider is called. *)
Theorem handleGenerateImage_invalid_arguments
        (W : Type) (zodMessage : GenerateImageHandler.Issue -> string)
        (cache : option (GenerateImageHandler.Cache W))
        (manager : FullProviderManager.t W) (args : GenerateImageHandler.Args) (w : W) :
  (GenerateImageHandler.issues args = [] <-> validArguments args) /\
  (~ validArguments args ->
   exists detail,
     GenerateImageHandler.handleGenerateImage zodMessage cache manager args w
     = (Returned (GenerateImageHandler.failure ("Invalid arguments: " ++ detail)%string),
        w, [])) /\
  (validArguments args ->
   GenerateImageHandler.parse args = inr (GenerateImageHandler.withDefaults args)).
Proof.
  split; [apply issues_nil_iff|]. split.
  - intros Hinvalid. unfold GenerateImageHandler.handleGenerateImage,
      GenerateImageHandler.parse.
    destruct (GenerateImageHandler.issues args) as [|issue found] eqn:Hissues.
    + exfalso. apply Hinvalid. apply issues_nil_iff. exact Hissues.
    + eexists. reflexivity.
  - intros Hvalid. unfold GenerateImageHandler.parse.
    rewrite (proj2 (issues_nil_iff args) Hvalid). reflexivity.
Qed.

(** X21. The request that [handleGenerateImage] hands to the manager, for
    valid arguments: the count is always given and lies in 1..10, so the
    count 0 that [validateRequest] lets through cannot come from this tool;
    quality and format are always given; dimensions are given exactly when
    both width and height are; the request never asks for transparency.
    Of the checks of [validateRequest] only two can still fail on it: a
    prompt that is blank after trimming, and an aspect ratio beyond 4 : 1. *)
Theorem handleGenerateImage_request
        (args : GenerateImageHandler.Args) (this : BaseImageProvider.t) :
  validArguments args ->
  let request :=
    GenerateImageHandler.toRequest (GenerateImageHandler.withDefaults args) in
  (exists n, count request = Some n /\ 1 <= n <= 10) /\
  quality request <> None /\ format request <> None /\
  transparent request = false /\
  (forall d, dimensions request = Some d <->
             GenerateImageHandler.argWidth args = Some (width d) /\
             GenerateImageHandler.argHeight args = Some (height d)) /\
  (BaseImageProvider.validateRequest this request = Returned tt <->
   Js.trim (GenerateImageHandler.argPrompt args) <> [] /\
   forall d, dimensions request = Some d ->
             height d <= 4 * width d /\ width d <= 4 * height d).
Proof.
  intros (Hprompt & _ & Hw & Hh & _ & Hc & _) request.
  assert (Hcount : exists n, count request = Some n /\ 1 <= n <= 10).
  { subst request. cbn.
    destruct (GenerateImageHandler.argCount args) as [n|] eqn:Hn.
    - exists n. split; [reflexivity | exact (Hc n eq_refl)].
    - exists 1. split; [reflexivity | lia]. }
  assert (Hdim : forall d, dimensions request = Some d <->
             GenerateImageHandler.argWidth args = Some (width d) /\
             GenerateImageHandler.argHeight args = Some (height d)).
  { intros d. subst request. cbn.
    destruct (GenerateImageHandler.argWidth args) as [a|] eqn:Ha;
      [|split; [discriminate | intros [H _]; discriminate]].
    destruct (GenerateImageHandler.argHeight args) as [b|] eqn:Hb;
      [|split; [discriminate | intros [_ H]; discriminate]].
    specialize (Hw a eq_refl). specialize (Hh b eq_refl).
    destruct (Z.eqb_spec a 0) as [->|_]; [lia|].
    destruct (Z.eqb_spec b 0) as [->|_]; [lia|].
    cbn. destruct d as [dw dh]. cbn. split.
    - intros [= <- <-]. split; reflexivity.
    - intros [[= <-] [= <-]]. reflexivity. }
  split; [exact Hcount|].
  split; [subst request; cbn; discriminate|].
  split; [subst request; cbn; discriminate|].
  split; [reflexivity|].
  split; [exact Hdim|].
  rewrite validateRequest_acceptable. unfold acceptable.
  destruct Hcount as [n [Hn Hrange]]. rewrite Hn.
  change (prompt request) with (GenerateImageHandler.argPrompt args).
  split.
  - intros (Ht & _ & _ & Hd). split; [exact Ht|].
    intros d Hdims. rewrite Hdims in Hd. tauto.
  - intros [Ht Hd]. split; [exact Ht|]. split; [lia|]. split; [right; exact Hrange|].
    destruct (dimensions request) as [d|] eqn:Hdims; [|exact I].
    destruct (proj1 (Hdim d) eq_refl) as [Ha Hb].
    specialize (Hw _ Ha). specialize (Hh _ Hb). specialize (Hd d eq_refl). lia.
Qed.

Lemma sketch_valid : validArguments SampleTool.sketch.
Proof.
  unfold validArguments. cbn.
  split; [vm_compute; split; discriminate|].
  split; [intros s [= <-]; simpl; tauto|].
  split; [intros n [= <-]; lia|].
  split; [intros n [=]|].
  split; [intros q [=]|].
  split; [intros n [=]|].
  split; [intros p [=]|].
  split; [intros f [=]|].
  intros s [=].
Defined.

Lemma handleGenerateImage_request_witness :
  exists n,
    count (GenerateImageHandler.toRequest
             (GenerateImageHandler.withDefaults SampleTool.sketch)) = Some n /\
    1 <= n <= 10.
Proof.
  exact (proj1 (@handleGenerateImage_request SampleTool.sketch
                  (BaseImageProvider.new "chatgpt" None) sketch_valid)).
Defined.

Local Ltac count_operations :=
  repeat first [ rewrite operationCalls_app
               | rewrite operationCalls_probeEvents
               | progress cbn [operationCalls app] ].

Local Ltac find_generated Hp :=
  repeat first [ rewrite generateCalls_app
               | progress cbn [generateCalls]
               | rewrite in_app_iff ];
  tauto.

Section HandlerFlow.
Variable W : Type.
Variable zodMessage : GenerateImageHandler.Issue -> string.

Lemma hasAvailableProviders_run (manager : FullProviderManager.t W) (w : W) :
  FullProviderManager.hasAvailableProviders manager w
  = (Returned (0 <? List.length
                      (fullAvailable
                         (fullReports (FullProviderManager.getProviders manager) w)))%nat,
     worldAfterProbes
       (map FullImageProvider.core (FullProviderManager.getProviders manager)) w,
     probeEvents
       (probeReports
          (map FullImageProvider.core (FullProviderManager.getProviders manager)) w)).
Proof.
  unfold FullProviderManager.hasAvailableProviders,
    FullProviderManager.getAvailableProviders, bind.
  rewrite full_probeAll_reports. unfold ret. rewrite app_nil_r. reflexivity.
Qed.

Lemma getCapabilities_run (manager : FullProviderManager.t W) (w : W) :
  exists capabilities,
    FullProviderManager.getCapabilities manager w
    = (Returned capabilities,
       worldAfterProbes
         (map FullImageProvider.core (FullProviderManager.getProviders manager)) w,
       probeEvents
         (probeReports
            (map FullImageProvider.core (FullProviderManager.getProviders manager)) w)).
Proof.
  unfold FullProviderManager.getCapabilities,
    FullProviderManager.getAvailableProviders, bind.
  rewrite full_probeAll_reports. unfold ret. rewrite app_nil_r.
  eexists. reflexivity.
Qed.

(** The manager's [generateImage] starts no operation of its own, and a
    successful result it returns is one that a provider returned. *)
Lemma generateImage_run (this : ProviderManager.t W) (request : ImageGenerationRequest)
      (preferred : option string) (w : W) :
  let run := ProviderManager.generateImage this request preferred w in
  operationCalls (eventsOf run) = [] /\
  forall r, outcomeOf run = Returned r -> success r = true ->
            exists p, In (p, true) (generateCalls (eventsOf run)).
Proof.
  cbv zeta.
  assert (Hsel : exists o w1 t1,
             ProviderManager.selectProvider this request preferred w = (o, w1, t1) /\
             operationCalls t1 = []).
  { assert (Hbest : forall w0 t0, operationCalls t0 = [] ->
              exists o w1 t1,
                (let '(r, w2, t2) :=
                   ProviderManager.getBestProvider this (ProviderManager.featureOf request) w0
                 in (r, w2, t0 ++ t2)) = (o, w1, t1) /\ operationCalls t1 = []).
    { intros w0 t0 Ht0. rewrite getBestProvider_reports. do 3 eexists.
      split; [reflexivity|]. rewrite operationCalls_app, Ht0.
      apply operationCalls_probeEvents. }
    unfold ProviderManager.selectProvider, ProviderManager.selectPreferred.
    destruct preferred as [n|].
    - destruct (String.eqb n "").
      + unfold bind at 1. unfold ret at 1. apply (Hbest w []). reflexivity.
      + destruct (ProviderManager.getProvider this n) as [p|].
        * unfold bind at 1. unfold bind at 1. unfold ProviderManager.probe.
          destruct (ImageProvider.isAvailable p w) as [[[|]|e] w0].
          -- unfold ret. do 3 eexists. split; [reflexivity|]. reflexivity.
          -- unfold ret at 1. cbv iota beta.
             apply (Hbest w0 ([EvProbe (ImageProvider.name p) (Returned false)] ++ [])).
             reflexivity.
          -- do 3 eexists. split; [reflexivity|]. reflexivity.
        * unfold bind at 1. unfold ret at 1. apply (Hbest w []). reflexivity.
    - unfold bind at 1. unfold ret at 1. apply (Hbest w []). reflexivity. }
  destruct Hsel as [o [w1 [t1 [Hsel Ht1]]]].
  unfold ProviderManager.generateImage, bind. rewrite Hsel.
  destruct o as [sel|e]; [|split; [exact Ht1 | intros r [=]]].
  unfold ProviderManager.generateWith.
  destruct sel as [p|].
  2:{ unfold ret, eventsOf, outcomeOf. simpl. rewrite app_nil_r.
      split; [exact Ht1|]. intros r [= <-]. discriminate. }
  unfold tryCatch, ProviderManager.invoke.
  destruct (ImageProvider.generateImage p request w1) as [[r0|e0] w2].
  { unfold eventsOf, outcomeOf. simpl.
    rewrite operationCalls_app, generateCalls_app, Ht1. split; [reflexivity|].
    intros r _ _. exists (ImageProvider.name p). apply in_or_app. right. left. reflexivity. }
  unfold ProviderManager.tryFallback, bind. rewrite getFallbackProvider_reports.
  destruct (find _ _) as [q|].
  2:{ unfold ret, eventsOf, outcomeOf. simpl.
      count_operations. rewrite Ht1.
      split; [reflexivity|]. intros r [= <-]. discriminate. }
  unfold tryCatch, ProviderManager.invoke.
  destruct (ImageProvider.generateImage q request _) as [[r1|e1] w3].
  - unfold eventsOf, outcomeOf. simpl.
    count_operations. rewrite Ht1.
    split; [reflexivity|].
    intros r _ _. exists (ImageProvider.name q).
    rewrite generateCalls_app. apply in_or_app. right.
    cbn [generateCalls]. right.
    rewrite generateCalls_app. apply in_or_app. right. left. reflexivity.
  - unfold ret, eventsOf, outcomeOf. simpl.
    count_operations. rewrite Ht1.
    split; [reflexivity|]. intros r [= <-]. discriminate.
Qed.

(** [recover] throws exactly for an error named "ZodError"; any other
    error is answered with its message. *)
Lemma recover_run (error : JsError) (w : W) :
  (exists e, @GenerateImageHandler.recover W error w = (Threw e, w, []) /\
             errName e = "TypeError"%string /\
             errName error = "ZodError"%string) \/
  (exists message,
      @GenerateImageHandler.recover W error w
      = (Returned (GenerateImageHandler.failure message), w, []) /\
      message <> ""%string /\
      errName error <> "ZodError"%string /\
      message = if String.eqb (errMessage error) ""
                then "Unexpected error occurred"%string else errMessage error).
Proof.
  unfold GenerateImageHandler.recover.
  destruct (String.eqb_spec (errName error) "ZodError") as [Hz|Hz].
  - left. eexists. split; [reflexivity|]. split; [reflexivity | exact Hz].
  - right. destruct (String.eqb_spec (errMessage error) "") as [He|He].
    + eexists. split; [reflexivity|]. split; [discriminate|]. split; [exact Hz|].
      reflexivity.
    + eexists. split; [reflexivity|]. split; [exact He|]. split; [exact Hz|].
      reflexivity.
Qed.

Local Abbreviation flowOK cache manager args w calls generated outcome :=
  ((fullAvailable (fullReports (FullProviderManager.getProviders manager) w) = [] ->
    outcome%type
    = Returned (GenerateImageHandler.failure
                  ("No image generation providers are currently available. "
                   ++ "Please check your configuration.")%string) /\
    calls%list = [] /\ generated%list = []) /\
   (In ("cache", "set")%string calls -> exists p, In (p, true) generated) /\
   (cache = None -> calls%list = []) /\
   (forall c thrown,
       cache = Some c ->
       fullAvailable (fullReports (FullProviderManager.getProviders manager) w) <> [] ->
       fst (GenerateImageHandler.get c
              (GenerateImageHandler.toRequest (GenerateImageHandler.withDefaults args))
              (worldAfterProbes
                 (map FullImageProvider.core (FullProviderManager.getProviders manager)) w))
       = Threw thrown ->
       (errName thrown = "ZodError"%string ->
        exists e, outcome%type = Threw e /\ errName e = "TypeError"%string) /\
       (errName thrown <> "ZodError"%string ->
        outcome%type
        = Returned (GenerateImageHandler.failure
                      (if String.eqb (errMessage thrown) ""
                       then "Unexpected error occurred"%string
                       else errMessage thrown)))) /\
   match outcome with
   | Threw e =>
       errName e = "TypeError"%string /\
       exists thrown,
         errName thrown = "ZodError"%string /\
         thrownWhileResponding cache manager args w thrown
   | Returned response =>
       match GenerateImageHandler.responseData response with
       | None =>
           GenerateImageHandler.responseSuccess response = false /\
           exists message,
             GenerateImageHandler.responseError response = Some message /\
             message <> ""%string
       | Some (GenerateImageHandler.CachedResult result) =>
           GenerateImageHandler.responseSuccess response = true /\
           GenerateImageHandler.responseError response = None /\
           calls%list = [("cache", "get")%string] /\ generated%list = []
       | Some (GenerateImageHandler.FreshResult result sizes capabilities statistics) =>
           GenerateImageHandler.responseSuccess response = true /\
           GenerateImageHandler.responseError response = None /\
           success result = true /\
           sizes = map (fun img => GenerateImageTool.formatFileSize (imgSize img))
                       (images result) /\
           (exists p, In (p, true) generated) /\
           (cache <> None -> calls%list = [("cache", "get"); ("cache", "set")]%string) /\
           (statistics = None <-> cache = None)
       end
   end).

Lemma handleGenerateImage_run
      (cache : option (GenerateImageHandler.Cache W))
      (manager : FullProviderManager.t W) (args : GenerateImageHandler.Args) (w : W) :
  validArguments args ->
  exists outcome w' t,
    GenerateImageHandler.handleGenerateImage zodMessage cache manager args w
    = (outcome, w', t) /\
    flowOK cache manager args w (operationCalls t) (generateCalls t) outcome.
Proof.
  intros Hvalid.
  unfold GenerateImageHandler.handleGenerateImage, GenerateImageHandler.parse.
  rewrite (proj2 (issues_nil_iff args) Hvalid).
  unfold tryCatch, GenerateImageHandler.respond. unfold bind at 1.
  rewrite hasAvailableProviders_run.
  set (w1 := worldAfterProbes _ w).
  set (t1 := probeEvents _).
  assert (Ht1 : operationCalls t1 = []) by apply operationCalls_probeEvents.
  assert (Hg1 : generateCalls t1 = []) by apply generateCalls_probeEvents.
  destruct (fullAvailable (fullReports (FullProviderManager.getProviders manager) w))
    as [|first others].
  { cbn. unfold ret. do 3 eexists. split; [reflexivity|].
    rewrite !app_nil_r, Ht1, Hg1.
    split; [intros _; repeat split|]. split; [intros []|]. split; [reflexivity|].
    split; [intros c thrown _ Hne; exfalso; apply Hne; reflexivity|].
    cbn. split; [reflexivity|]. eexists. split; [reflexivity | discriminate]. }
  cbn [List.length Nat.ltb Nat.leb negb].
  set (request := GenerateImageHandler.toRequest _).
  change (GenerateImageHandler.argProvider (GenerateImageHandler.withDefaults args))
    with (GenerateImageHandler.argProvider args).
  unfold bind at 1.
  destruct cache as [c|].
  - unfold GenerateImageHandler.cacheGet at 1.
    destruct (GenerateImageHandler.get c request w1) as [[[hit|]|e] w2] eqn:Hget.
    + unfold ret. do 3 eexists. split; [reflexivity|].
      count_operations. rewrite Ht1, !generateCalls_app, Hg1. cbn.
      split; [intros H; discriminate H|].
      split; [intros [H|[]]; discriminate H|].
      split; [discriminate|].
      split; [intros c0 thrown Hc _ H; injection Hc as <-;
              change (fst (GenerateImageHandler.get c request w1) = Threw thrown) in H;
              rewrite Hget in H; discriminate H|].
      repeat split.
    + unfold bind at 1.
      pose proof (generateImage_run (FullProviderManager.cores manager) request
                    (GenerateImageHandler.argProvider args) w2) as Hgen.
      cbv zeta in Hgen.
      destruct (ProviderManager.generateImage (FullProviderManager.cores manager) request
                  (GenerateImageHandler.argProvider args) w2) as [[[result|e] w3] t3]
        eqn:Hmanager;
        unfold eventsOf, outcomeOf in Hgen; cbn [fst snd] in Hgen;
        destruct Hgen as [Hops3 Hsucc3].
      * destruct (success result) eqn:Hs; cbn [negb].
        -- destruct (Hsucc3 result eq_refl Hs) as [p Hp].
           unfold bind at 1. unfold GenerateImageHandler.cacheSet at 1.
           destruct (GenerateImageHandler.set c request result w3) as [[[]|e] w4] eqn:Hset.
           ++ unfold bind at 1.
              destruct (getCapabilities_run manager w4) as [caps Hcaps]. rewrite Hcaps.
              unfold bind, GenerateImageHandler.cacheStats, ret.
              do 3 eexists. split; [reflexivity|].
              assert (Hgenerated : exists q, In (q, true)
                        (generateCalls
                           (t1 ++ [EvOperation "cache" "get"] ++ t3 ++
                            [EvOperation "cache" "set"] ++
                            probeEvents
                              (probeReports
                                 (map FullImageProvider.core
                                    (FullProviderManager.getProviders manager)) w4)
                            ++ [] ++ []))).
              { exists p. find_generated Hp. }
              count_operations. rewrite Ht1, Hops3.
              split; [intros H; discriminate H|].
              split; [intros _; exact Hgenerated|].
              split; [discriminate|].
              split; [intros c0 thrown Hc _ H; injection Hc as <-;
                      change (fst (GenerateImageHandler.get c request w1) = Threw thrown) in H;
                      rewrite Hget in H; discriminate H|].
              cbn. repeat split; try assumption; try discriminate.
           ++ destruct (recover_run e w4)
                as [[e' [Hrec [He' Hzod]]]|[message [Hrec [Hmessage _]]]];
                rewrite Hrec; do 3 eexists; (split; [reflexivity|]);
                count_operations; rewrite Ht1, Hops3;
                (split; [intros H; discriminate H|]);
                (split; [intros _; exists p; find_generated Hp|]);
                (split; [discriminate|]);
                (split; [intros c0 thrown Hc _ H; injection Hc as <-;
                         change (fst (GenerateImageHandler.get c request w1) = Threw thrown)
                           in H;
                         rewrite Hget in H; discriminate H|]).
              ** split; [exact He'|]. exists e. split; [exact Hzod|].
                 right. right. exists c, result, w3.
                 split; [reflexivity|]. split; [exact Hs|].
                 exact (f_equal fst Hset).
              ** cbn. split; [reflexivity|]. exists message. split; [reflexivity | exact Hmessage].
        -- unfold ret. do 3 eexists. split; [reflexivity|].
           count_operations. rewrite Ht1, Hops3.
           split; [intros H; discriminate H|].
           split; [intros [H|[]]; discriminate H|].
           split; [discriminate|].
           split; [intros c0 thrown Hc _ H; injection Hc as <-;
                   change (fst (GenerateImageHandler.get c request w1) = Threw thrown) in H;
                   rewrite Hget in H; discriminate H|].
           cbn. split; [reflexivity|].
           destruct (error result) as [m|];
             [destruct (String.eqb_spec m "") as [Hm|Hm]|];
             eexists; (split; [reflexivity|]); try discriminate. exact Hm.
      * destruct (recover_run e w3)
          as [[e' [Hrec [He' Hzod]]]|[message [Hrec [Hmessage _]]]];
          rewrite Hrec; do 3 eexists; (split; [reflexivity|]);
          count_operations; rewrite Ht1, Hops3;
          (split; [intros H; discriminate H|]);
          (split; [intros [H|[]]; discriminate H|]);
          (split; [discriminate|]);
          (split; [intros c0 thrown Hc _ H; injection Hc as <-;
                   change (fst (GenerateImageHandler.get c request w1) = Threw thrown) in H;
                   rewrite Hget in H; discriminate H|]).
        -- split; [exact He'|]. exists e. split; [exact Hzod|].
           right. left. exists w2.
           exact (f_equal (fun run => fst (fst run)) Hmanager).
        -- cbn. split; [reflexivity|]. exists message. split; [reflexivity | exact Hmessage].
    + destruct (recover_run e w2)
        as [[e' [Hrec [He' Hzod]]]|[message [Hrec [Hmessage [Hnz Hmsg]]]]];
        rewrite Hrec; do 3 eexists; (split; [reflexivity|]);
        count_operations; rewrite Ht1;
        (split; [intros H; discriminate H|]);
        (split; [intros [H|[]]; discriminate H|]);
        (split; [discriminate|]).
      * split.
        { intros c0 thrown Hc _ H. injection Hc as <-.
          change (fst (GenerateImageHandler.get c request w1) = Threw thrown) in H.
          rewrite Hget in H. injection H as <-.
          split; [intros _; exists e'; split; [reflexivity | exact He']|].
          intros Hno. contradiction. }
        split; [exact He'|]. exists e. split; [exact Hzod|].
        left. exists c. split; [reflexivity|]. exact (f_equal fst Hget).
      * split.
        { intros c0 thrown Hc _ H. injection Hc as <-.
          change (fst (GenerateImageHandler.get c request w1) = Threw thrown) in H.
          rewrite Hget in H. injection H as <-.
          split; [intros Hyes; contradiction|].
          intros _. rewrite Hmsg. reflexivity. }
        cbn. split; [reflexivity|]. exists message. split; [reflexivity | exact Hmessage].
  - unfold GenerateImageHandler.cacheGet at 1. unfold ret at 1. cbv iota.
    unfold bind at 1.
    pose proof (generateImage_run (FullProviderManager.cores manager) request
                  (GenerateImageHandler.argProvider args) w1) as Hgen.
    cbv zeta in Hgen.
    destruct (ProviderManager.generateImage (FullProviderManager.cores manager) request
                (GenerateImageHandler.argProvider args) w1) as [[[result|e] w3] t3]
      eqn:Hmanager;
      unfold eventsOf, outcomeOf in Hgen; cbn [fst snd] in Hgen;
      destruct Hgen as [Hops3 Hsucc3].
    + destruct (success result) eqn:Hs; cbn [negb].
      * destruct (Hsucc3 result eq_refl Hs) as [p Hp].
        unfold bind at 1. unfold GenerateImageHandler.cacheSet at 1. unfold ret at 1.
        cbv iota. unfold bind at 1.
        destruct (getCapabilities_run manager w3) as [caps Hcaps]. rewrite Hcaps.
        unfold bind, GenerateImageHandler.cacheStats, ret.
        do 3 eexists. split; [reflexivity|].
        count_operations. rewrite Ht1, Hops3.
        split; [intros H; discriminate H|].
        split; [intros []|].
        split; [reflexivity|].
        split; [intros c0 thrown Hc; discriminate Hc|].
        cbn. repeat split; try assumption; try discriminate; try congruence.
        exists p. find_generated Hp.
      * unfold ret. do 3 eexists. split; [reflexivity|].
        count_operations. rewrite Ht1, Hops3.
        split; [intros H; discriminate H|].
        split; [intros []|].
        split; [reflexivity|].
        split; [intros c0 thrown Hc; discriminate Hc|].
        cbn. split; [reflexivity|].
        destruct (error result) as [m|];
          [destruct (String.eqb_spec m "") as [Hm|Hm]|];
          eexists; (split; [reflexivity|]); try discriminate. exact Hm.
    + destruct (recover_run e w3)
        as [[e' [Hrec [He' Hzod]]]|[message [Hrec [Hmessage _]]]];
        rewrite Hrec; do 3 eexists; (split; [reflexivity|]);
        count_operations; rewrite Ht1, Hops3;
        (split; [intros H; discriminate H|]);
        (split; [intros []|]);
        (split; [reflexivity|]);
        (split; [intros c0 thrown Hc; discriminate Hc|]).
      * split; [exact He'|]. exists e. split; [exact Hzod|].
        right. left. exists w1.
        exact (f_equal (fun run => fst (fst run)) Hmanager).
      * cbn. split; [reflexivity|]. exists message. split; [reflexivity | exact Hmessage].
Qed.


End HandlerFlow.


(* ================================================================== *)
(** * Properties of the background removal *)
(* ================================================================== *)

Section Transparency.
Import HuggingFaceTransparency.

Lemma isBackground_spec (r g b : Z) :
  isBackground r g b = true <->
  r + g + b > 720 /\ Z.abs (r - g) < 10 /\ Z.abs (g - b) < 10.
Proof.
  unfold isBackground. rewrite !andb_true_iff, !Z.ltb_lt.
  assert (H : BaseImageProvider.Qltb (inject_Z 240) (inject_Z (r + g + b) / inject_Z 3)%Q
              = true <-> r + g + b > 720).
  { unfold BaseImageProvider.Qltb.
    destruct (Qcompare_spec (inject_Z 240) (inject_Z (r + g + b) / inject_Z 3)%Q)
      as [He|Hl|Hg].
    - split; [discriminate|]. intros Hgt. exfalso.
      unfold Qeq, Qdiv, Qmult, Qinv, inject_Z in He. simpl in He. lia.
    - split; [|reflexivity]. intros _.
      unfold Qlt, Qdiv, Qmult, Qinv, inject_Z in Hl. simpl in Hl. lia.
    - split; [discriminate|]. intros Hgt. exfalso.
      unfold Qlt, Qdiv, Qmult, Qinv, inject_Z in Hg. simpl in Hg. lia. }
  rewrite H. tauto.
Qed.

Lemma write_length (pixels : list Z) : forall i v,
  List.length (write i v pixels) = List.length pixels.
Proof.
  induction pixels as [|x rest IH]; intros i v; [reflexivity|].
  destruct i; simpl; [reflexivity | rewrite IH; reflexivity].
Qed.

Lemma read_write (pixels : list Z) : forall i v j,
  read (write i v pixels) j
  = if (j =? i)%nat && (i <? List.length pixels)%nat then v else read pixels j.
Proof.
  unfold read.
  induction pixels as [|x rest IH]; intros i v j.
  - simpl. rewrite andb_false_r. reflexivity.
  - destruct i as [|i]; destruct j as [|j]; simpl; try reflexivity.
    rewrite IH. reflexivity.
Qed.

Lemma loop_length (fuel : nat) : forall channels i pixels,
  List.length (loop fuel channels i pixels) = List.length pixels.
Proof.
  induction fuel as [|fuel IH]; intros channels i pixels; [reflexivity|].
  simpl. destruct (i <? List.length pixels)%nat; [|reflexivity].
  rewrite IH. destruct (isBackground _ _ _); [apply write_length | reflexivity].
Qed.

Local Abbreviation background pixels s :=
  (isBackground (read pixels s) (read pixels (s + 1)) (read pixels (s + 2))).

(** The loop from index [i] on: the byte three places after the start of a
    pixel that tests as background becomes 0, every other byte stays. *)
Lemma loop_spec (channels : nat) (Hc : (4 <= channels)%nat) (fuel : nat) :
  forall i pixels,
    (List.length pixels <= i + fuel)%nat ->
    (forall k, (i + k * channels + 3 < List.length pixels)%nat ->
               background pixels (i + k * channels)%nat = true ->
               read (loop fuel channels i pixels) (i + k * channels + 3) = 0) /\
    (forall j, (forall k, j = (i + k * channels + 3)%nat ->
                          background pixels (i + k * channels)%nat = false \/
                          (List.length pixels <= j)%nat) ->
               read (loop fuel channels i pixels) j = read pixels j).
Proof.
  induction fuel as [|fuel IH]; intros i pixels Hfuel.
  - simpl. split; [|reflexivity]. intros k Hk. lia.
  - simpl. destruct (Nat.ltb_spec i (List.length pixels)) as [Hi|Hi].
    2:{ split; [|reflexivity]. intros k Hk. lia. }
    set (pixels' := if background pixels i then write (i + 3) 0 pixels else pixels).
    assert (Hlen : List.length pixels' = List.length pixels).
    { unfold pixels'. destruct (background pixels i); [apply write_length | reflexivity]. }
    assert (Hread : forall p, p <> (i + 3)%nat -> read pixels' p = read pixels p).
    { intros p Hp. unfold pixels'. destruct (background pixels i); [|reflexivity].
      rewrite read_write. destruct (Nat.eqb_spec p (i + 3)); [contradiction | reflexivity]. }
    assert (Hbg : forall k, background pixels' (i + channels + k * channels)%nat
                            = background pixels (i + channels + k * channels)%nat).
    { intros k. rewrite !Hread by lia. reflexivity. }
    destruct (IH (i + channels)%nat pixels') as [IHA IHB]; [lia|].
    split.
    + intros k Hk Hback. destruct k as [|k].
      * replace (i + 0 * channels + 3)%nat with (i + 3)%nat by lia.
        replace (i + 0 * channels)%nat with i in Hback by lia.
        rewrite IHB.
        -- unfold pixels'. rewrite Hback, read_write, Nat.eqb_refl.
           destruct (Nat.ltb_spec (i + 3) (List.length pixels)); [reflexivity | lia].
        -- intros k' Hk'. exfalso.
           assert (4 <= channels + k' * channels)%nat by lia. lia.
      * replace (i + S k * channels + 3)%nat with (i + channels + k * channels + 3)%nat
          in * by lia.
        replace (i + S k * channels)%nat with (i + channels + k * channels)%nat
          in Hback by lia.
        apply IHA; [lia|]. rewrite Hbg. exact Hback.
    + intros j Hj. rewrite IHB.
      * unfold pixels'. destruct (background pixels i) eqn:Hback; [|reflexivity].
        rewrite read_write.
        destruct (Nat.eqb_spec j (i + 3)) as [->|Hne]; [|reflexivity].
        destruct (Nat.ltb_spec (i + 3) (List.length pixels)) as [Hlt|Hge]; [|reflexivity].
        exfalso. destruct (Hj 0%nat) as [H|H]; [lia | | lia].
        replace (i + 0 * channels)%nat with i in H by lia. congruence.
      * intros k Hk. rewrite Hbg, Hlen.
        replace (i + channels + k * channels)%nat with (i + S k * channels)%nat by lia.
        apply Hj. lia.
Qed.

Lemma not_pixel_start (channels k k' d : nat) :
  (4 <= channels)%nat -> (0 < d < 4)%nat -> (k * channels <> k' * channels + d)%nat.
Proof.
  intros Hc Hd Heq.
  destruct (Nat.le_gt_cases k k') as [Hle|Hgt].
  - pose proof (Nat.mul_le_mono_r _ _ channels Hle). lia.
  - assert (Hs : (S k' <= k)%nat) by lia.
    pose proof (Nat.mul_le_mono_r _ _ channels Hs). simpl in *. lia.
Qed.

Lemma alpha_position (channels j : nat) :
  (4 <= channels)%nat ->
  (exists k, j = (k * channels + 3)%nat) \/ (forall k, j <> (k * channels + 3)%nat).
Proof.
  intros Hc.
  destruct (le_lt_dec 3 j) as [H3|H3]; [|right; intros k; lia].
  destruct (Nat.eq_dec ((j - 3) mod channels) 0) as [Hm|Hm].
  - left. exists ((j - 3) / channels)%nat.
    pose proof (Nat.div_mod_eq (j - 3) channels) as Hd. rewrite Hm in Hd. lia.
  - right. intros k Hk. apply Hm.
    replace (j - 3)%nat with (k * channels)%nat by lia.
    apply Nat.Div0.mod_mul.
Qed.

(** X23. The background removal on raw pixels of at least four
    channels.  No byte is added or dropped.  Of every whole pixel the first
    three bytes stay as they were and the fourth, the alpha, becomes 0 when
    the three test as background (their sum exceeds 720 and neighbours
    differ by less than 10) and stays otherwise; bytes at other places are
    never touched.  Running the removal on its own result changes
    nothing. *)
Theorem clearBackground_spec (channels : nat) (pixels : list Z) :
  (4 <= channels)%nat ->
  let cleared := clearBackground channels pixels in
  List.length cleared = List.length pixels /\
  (forall k, let i := (k * channels)%nat in
     (i + 3 < List.length pixels)%nat ->
     read cleared i = read pixels i /\
     read cleared (i + 1) = read pixels (i + 1) /\
     read cleared (i + 2) = read pixels (i + 2) /\
     read cleared (i + 3)
     = if isBackground (read pixels i) (read pixels (i + 1)) (read pixels (i + 2))
       then 0 else read pixels (i + 3)) /\
  (forall j, (forall k, j <> (k * channels + 3)%nat) -> read cleared j = read pixels j) /\
  clearBackground channels cleared = cleared /\
  (forall r g b, isBackground r g b = true <->
                 r + g + b > 720 /\ Z.abs (r - g) < 10 /\ Z.abs (g - b) < 10).
Proof.
  intros Hc. cbv zeta.
  assert (Hspec : forall px,
            (forall k, (k * channels + 3 < List.length px)%nat ->
                       background px (k * channels)%nat = true ->
                       read (clearBackground channels px) (k * channels + 3) = 0) /\
            (forall j, (forall k, j = (k * channels + 3)%nat ->
                                  background px (k * channels)%nat = false \/
                                  (List.length px <= j)%nat) ->
                       read (clearBackground channels px) j = read px j)).
  { intros px. unfold clearBackground.
    destruct (@loop_spec channels Hc (List.length px) 0%nat px) as [HA HB]; [lia|].
    split.
    - intros k Hk Hb. apply (HA k); [exact Hk | exact Hb].
    - intros j Hj. apply HB. intros k Hk. apply (Hj k). exact Hk. }
  assert (Hlen : forall px, List.length (clearBackground channels px) = List.length px)
    by (intros px; apply loop_length).
  assert (Hcolour : forall px k d,
            (d < 3)%nat ->
            read (clearBackground channels px) (k * channels + d) = read px (k * channels + d)).
  { intros px k d Hd. apply (proj2 (Hspec px)). intros k' Hk'. exfalso.
    destruct d as [|d].
    - apply (@not_pixel_start channels k k' 3 Hc); lia.
    - destruct d as [|d].
      + apply (@not_pixel_start channels k k' 2 Hc); lia.
      + apply (@not_pixel_start channels k k' 1 Hc); lia. }
  assert (Halpha : forall px k,
            (k * channels + 3 < List.length px)%nat ->
            read (clearBackground channels px) (k * channels + 3)
            = if background px (k * channels)%nat then 0 else read px (k * channels + 3)).
  { intros px k Hk. destruct (background px (k * channels)%nat) eqn:Hb.
    - apply (proj1 (Hspec px)); assumption.
    - apply (proj2 (Hspec px)). intros k' Hk'. left.
      assert (k' = k) by nia. subst k'. exact Hb. }
  split; [apply Hlen|].
  split.
  { intros k Hk.
    pose proof (Hcolour pixels k 0%nat) as H0. rewrite Nat.add_0_r in H0.
    split; [apply H0; lia|].
    split; [apply Hcolour; lia|].
    split; [apply Hcolour; lia|].
    apply Halpha. exact Hk. }
  split.
  { intros j Hj. apply (proj2 (Hspec pixels)). intros k Hk. exfalso. exact (Hj k Hk). }
  split; [|apply isBackground_spec].
  apply (nth_ext _ _ 0 0); [rewrite !Hlen; reflexivity|].
  intros j Hj. rewrite !Hlen in Hj.
  change (read (clearBackground channels (clearBackground channels pixels)) j
          = read (clearBackground channels pixels) j).
  destruct (@alpha_position channels j Hc) as [[k ->]|Hnot].
  - rewrite Halpha by (rewrite Hlen; exact Hj).
    assert (Hsame : background (clearBackground channels pixels) (k * channels)%nat
                    = background pixels (k * channels)%nat).
    { pose proof (Hcolour pixels k 0%nat) as H0. rewrite Nat.add_0_r in H0.
      rewrite H0, !Hcolour by lia. reflexivity. }
    rewrite Hsame. destruct (background pixels (k * channels)%nat) eqn:Hb; [|reflexivity].
    symmetry. rewrite Halpha by exact Hj. rewrite Hb. reflexivity.
  - apply (proj2 (Hspec _)). intros k Hk. exfalso. exact (Hnot k Hk).
Qed.

End Transparency.

Lemma clearBackground_spec_witness :
  List.length (HuggingFaceTransparency.clearBackground 4 SamplePixels.whiteThenDark)
  = 8%nat.
Proof.
  exact (proj1 (@clearBackground_spec 4 SamplePixels.whiteThenDark ltac:(lia))).
Defined.

Example clearBackground_rgba :
  HuggingFaceTransparency.clearBackground 4 SamplePixels.whiteThenDark
  = [250; 250; 250; 0; 10; 20; 30; 255].
Proof. vm_compute. reflexivity. Qed.

(** With two channels the loop reads the alpha as green and the next pixel
    as blue, and clears the alpha of the pixel that follows. *)
Example clearBackground_two_channels :
  HuggingFaceTransparency.clearBackground 2 SamplePixels.greyAlpha
  = [250; 255; 250; 0].
Proof. vm_compute. reflexivity. Qed.

(* ================================================================== *)
(** * Tagging with the ChatGPT provider *)
(* ================================================================== *)

(** X24. The ChatGPT provider inherits a [tagImage] that always throws,
    so the manager's test [!provider.tagImage] lets it through.  When it
    is named as the preferred provider of [tagImage], is registered and
    answers the probe with [true], the manager calls its [tagImage] first,
    and the result never comes from it: it is what a provider of another
    name that supports tagging returned, or the failure that bears the
    ChatGPT provider's name and the text "Image tagging not supported by
    this provider". *)
Theorem tagImage_preferred_chatgpt
        (W : Type) (this : FullProviderManager.t W) (chat : ChatGPTProvider.t W)
        (config : ChatGPTParams.ChatGPTConfig)
        (vision : string -> W -> ChatGPTOperations.Settled (option string) * W)
        (providerName imageUrl : string) (w : W) :
  let p := ChatGPTAdapter.asFullProvider chat config vision in
  providerName <> ""%string ->
  FullProviderManager.getProvider this providerName = Some p ->
  outcomeOf (ChatGPTProvider.isAvailable chat w) = Returned true ->
  let run := FullProviderManager.tagImage this imageUrl (Some providerName) w in
  hd_error (operationCalls (eventsOf run))
  = Some (FullImageProvider.name p, "tagImage"%string) /\
  exists r,
    outcomeOf run = Returned r /\
    ((exists q g w0,
         In q (FullProviderManager.getProviders this) /\
         FullImageProvider.name q <> FullImageProvider.name p /\
         FullImageProvider.supportsFeature q tagging = true /\
         FullImageProvider.tagImage q = Some g /\
         fst (g imageUrl w0) = Returned r) \/
     (ImageTaggingResult.success r = false /\
      ImageTaggingResult.provider r = FullImageProvider.name p /\
      ImageTaggingResult.error r
      = Some "Image tagging not supported by this provider"%string)).
Proof.
  intros p Hname Hget Havailable run.
  assert (Hrun : exists r w' t,
             run = (Returned r, w', t) /\
             hd_error (operationCalls t)
             = Some (FullImageProvider.name p, "tagImage"%string) /\
             ((exists q g w0,
                  In q (FullProviderManager.getProviders this) /\
                  FullImageProvider.name q <> FullImageProvider.name p /\
                  FullImageProvider.supportsFeature q tagging = true /\
                  FullImageProvider.tagImage q = Some g /\
                  fst (g imageUrl w0) = Returned r) \/
              (ImageTaggingResult.success r = false /\
               ImageTaggingResult.provider r = FullImageProvider.name p /\
               ImageTaggingResult.error r
               = Some "Image tagging not supported by this provider"%string))).
  { subst run.
    unfold FullProviderManager.tagImage, FullProviderManager.operate,
      FullProviderManager.selectPreferred.
    apply String.eqb_neq in Hname. rewrite Hname, Hget.
    unfold bind at 1. unfold bind at 1.
    unfold FullProviderManager.probe, ProviderManager.probe.
    assert (Hprobe : exists w0,
               ImageProvider.isAvailable (FullImageProvider.core p) w = (Returned true, w0)).
    { unfold p. cbn. unfold outcomeOf in Havailable.
      destruct (ChatGPTProvider.isAvailable chat w) as [[o w0] t0]. cbn in *.
      subst o. exists w0. reflexivity. }
    destruct Hprobe as [w0 Hprobe]. rewrite Hprobe.
    unfold ret at 1. cbv iota beta. unfold bind at 1. unfold ret at 1. cbv iota beta.
    change (FullImageProvider.tagImage p)
      with (Some (@InheritedMethods.tagImage W (ChatGPTProvider.base chat))).
    cbv iota beta.
    unfold tryCatch at 1, FullProviderManager.call at 1, InheritedMethods.tagImage at 1.
    cbv iota beta.
    unfold FullProviderManager.tryFallback, bind.
    destruct (@full_getFallbackProvider_reports W tagging this (FullImageProvider.name p) w0)
      as [tp [Hfb Htp]].
    rewrite Hfb.
    set (e := BaseImageProvider.createError (ChatGPTProvider.base chat)
                "IMAGE_TAGGING_NOT_SUPPORTED"
                "Image tagging not supported by this provider" None).
    assert (Hfailed :
              ImageTaggingResult.success (FullProviderManager.failedTagging p e) = false /\
              ImageTaggingResult.provider (FullProviderManager.failedTagging p e)
              = FullImageProvider.name p /\
              ImageTaggingResult.error (FullProviderManager.failedTagging p e)
              = Some "Image tagging not supported by this provider"%string).
    { repeat split. }
    destruct (find _ _) as [q|] eqn:Hfind.
    2:{ unfold ret. do 3 eexists. split; [reflexivity|]. split.
        - count_operations. rewrite Htp. reflexivity.
        - right. exact Hfailed. }
    destruct (find_some _ _ Hfind) as [Hq Hok].
    apply andb_prop in Hok. destruct Hok as [Hne Hsup].
    apply negb_true_iff in Hne. apply String.eqb_neq in Hne.
    apply full_available_registered in Hq.
    destruct (FullImageProvider.tagImage q) as [g|] eqn:Hg.
    2:{ unfold ret. do 3 eexists. split; [reflexivity|]. split.
        - count_operations. rewrite Htp. reflexivity.
        - right. exact Hfailed. }
    unfold tryCatch, FullProviderManager.call.
    destruct (g imageUrl _) as [[r|e'] w4] eqn:Hcall.
    - do 3 eexists. split; [reflexivity|]. split.
      + count_operations. rewrite Htp. reflexivity.
      + left. eexists q, g, _. rewrite Hcall. repeat split; assumption.
    - unfold ret. do 3 eexists. split; [reflexivity|]. split.
      + count_operations. rewrite Htp. reflexivity.
      + right. exact Hfailed. }
  destruct Hrun as [r [w' [t [Hrun [Hcalls Hresult]]]]]. rewrite Hrun.
  split; [exact Hcalls|]. exists r. split; [reflexivity | exact Hresult].
Qed.

Lemma tagImage_preferred_chatgpt_witness :
  let run := FullProviderManager.tagImage SampleRegistry.onlyChatGPT "https://example.org/a.png"
               (Some "chatgpt"%string) 0%nat in
  hd_error (operationCalls (eventsOf run)) = Some ("chatgpt"%string, "tagImage"%string).
Proof.
  refine (proj1 (@tagImage_preferred_chatgpt nat SampleRegistry.onlyChatGPT Sample.chatgpt
                   {| ChatGPTParams.model := Some "dall-e-3"%string |}
                   (fun _ w => (ChatGPTOperations.Hanging, w))
                   "chatgpt" "https://example.org/a.png" 0%nat _ _ _)).
  - discriminate.
  - reflexivity.
  - reflexivity.
Defined.
